(** * Porto multisigner: intent lifecycle and submission encoding

    A shallow embedding of the server routes of the repository (the intent
    store [src/app/api/_lib/store.ts], intent creation
    [src/app/api/intents/route.ts], the signing route
    [POST /api/intents/[id]/sign], the submission route
    [src/app/api/intents/[id]/submit/route.ts], the reading route
    [GET /api/intents/[id]]), of the external-key helpers
    ([externalPublicKey], [computeExternalKeyHash],
    [encodeAuthorizeExternalExecute]), of the permission helpers
    ([src/lib/permissions.ts]) and of the helpers and setup actions of the
    main page ([src/app/page.tsx]), with the properties of the
    specification and further properties of the code stated over them.

    Conventions of the embedding.
    - A [Hex] value is a JavaScript string; strings are modelled by Rocq
      strings, which hold the code units below 256 (hex strings are
      ASCII).  A JavaScript string with another code unit is outside the
      model.
    - A [bigint] is a [Z]; a JavaScript number holding an integer is a [Z].
    - viem's encoders ([concatHex], [toHex], [encodeAbiParameters],
      [keccak256], [isAddress]) work on hex strings, as in the library;
      the byte strings they stand for come in only to state what an
      encoding is.  The hash function is an interface ([Keccak]), with
      Keccak-256 itself as an instance to run examples.
    - The chain (viem's public and wallet clients) is a record of oracles; a
      call that throws answers [None].  [encodeFunctionData] for an ABI
      that the caller passes in is a parameter.
    - A request handler is a function from the store to a response, the new
      store and the list of chain calls it made, in order.  Requests run one
      at a time.

    Layout: the program ([JS], [Hexa], [Viem], [Store], [Chain], [Create],
    [Sign], [Submit], [ExternalKey], [Keccak256], [Read], [Permissions],
    [Page]), the notions the properties are stated with ([Spec], [Laws]),
    concrete data ([Scenario], [Cases]), then examples, lemmas, the claims
    of the specification, and further properties of the code. *)

From Stdlib Require Import ZArith Ascii String List Bool Lia.
From stdpp Require Import base option list strings gmap.
Import ListNotations.

Local Open Scope Z_scope.

Abbreviation Hex := string.

(** ** JavaScript string primitives *)

Module JS.

(** One code unit of [String.prototype.toLowerCase], for the code units
    below 256: the letters A to Z and the Latin-1 capitals U+00C0 to
    U+00DE, other than the multiplication sign U+00D7, move up by 32; every
    other code unit is kept.  (Lower-casing changes the number of code
    units only for characters from U+0130 on, which these strings do not
    hold.) *)
Definition lower_ascii (c : ascii) : ascii :=
  let n := nat_of_ascii c in
  if ((65 <=? n) && (n <=? 90)
      || (192 <=? n) && (n <=? 222) && negb (n =? 215))%nat
  then ascii_of_nat (n + 32) else c.

Fixpoint toLowerCase (s : string) : string :=
  match s with
  | EmptyString => EmptyString
  | String c r => String (lower_ascii c) (toLowerCase r)
  end.

(** [s.startsWith(p)] *)
Definition startsWith (p s : string) : bool := String.prefix p s.

(** [s.slice(-n)] *)
Definition slice_last (n : nat) (s : string) : string :=
  substring (String.length s - n) n s.

(** [s.slice(0, -n)] *)
Definition slice_init (n : nat) (s : string) : string :=
  substring 0 (String.length s - n) s.

(** [s.replace(p, '')] for the two-character pattern ['0x']: the first
    occurrence is removed. *)
Fixpoint replace_0x (s : string) : string :=
  match s with
  | EmptyString => EmptyString
  | String c r =>
      match r with
      | String d r' =>
          if (Ascii.eqb c "0" && Ascii.eqb d "x")%bool then r'
          else String c (replace_0x r)
      | EmptyString => s
      end
  end.

(** [s.padStart(n, '0')] and [s.padEnd(n, '0')] *)
Fixpoint zeros (n : nat) : string :=
  match n with O => EmptyString | S k => String "0" (zeros k) end.

Definition padStart0 (n : nat) (s : string) : string :=
  zeros (n - String.length s) +:+ s.

Definition padEnd0 (n : nat) (s : string) : string :=
  s +:+ zeros (n - String.length s).

(** [Number(b)] for a bigint [b]: the nearest double, ties to even.  The
    result is an integer; exact below 2^53.  (Magnitudes of 2^1024 and
    more, which give Infinity, are outside every integer type the chain
    returns.) *)
Definition Number (b : Z) : Z :=
  let a := Z.abs b in
  if a <? 2 ^ 53 then b
  else
    let e := Z.log2 a - 52 in
    let q := Z.shiftr a e in
    let r := a - Z.shiftl q e in
    let half := 2 ^ (e - 1) in
    let q' := if r <? half then q
              else if half <? r then q + 1
              else if Z.even q then q else q + 1 in
    Z.sgn b * Z.shiftl q' e.

End JS.

(** ** Bytes and hexadecimal strings *)

Abbreviation byte := Byte.byte.
Abbreviation bytes := (list Byte.byte).

Definition byte_of_Z (z : Z) : byte :=
  match Byte.of_N (Z.to_N (z mod 256)) with
  | Some b => b
  | None => Byte.x00
  end.

Definition Z_of_byte (b : byte) : Z := Z.of_N (Byte.to_N b).

(** The hash function of the chain.  viem takes it from a library; here it
    is an interface with the one law the encoders rely on. *)
Class Keccak := {
  keccak_256 : bytes -> bytes;
  keccak_256_length : forall m, length (keccak_256 m) = 32%nat
}.

Module Hexa.

(** Digit [d] (0..15) in lower case, as [toString(16)] prints it. *)
Definition hexDigit (d : Z) : ascii :=
  if d <? 10 then ascii_of_nat (48 + Z.to_nat d)
  else ascii_of_nat (87 + Z.to_nat d).

(** Value of a hexadecimal digit, either case. *)
Definition digitValue (c : ascii) : option Z :=
  let n := Z.of_nat (nat_of_ascii c) in
  if (48 <=? n) && (n <=? 57) then Some (n - 48)
  else if (97 <=? n) && (n <=? 102) then Some (n - 87)
  else if (65 <=? n) && (n <=? 70) then Some (n - 55)
  else None.

Definition isHexDigit (c : ascii) : bool :=
  match digitValue c with Some _ => true | None => false end.

(** The [n] lowest base-16 digits of [v], most significant first: what
    [v.toString(16).padStart(n, '0')] is when [0 <= v < 16^n]. *)
Fixpoint digits (n : nat) (v : Z) : string :=
  match n with
  | O => EmptyString
  | S k => String (hexDigit ((v / 16 ^ Z.of_nat k) mod 16)) (digits k v)
  end.

Definition byteHex (b : byte) : string :=
  String (hexDigit (Z_of_byte b / 16))
    (String (hexDigit (Z_of_byte b mod 16)) EmptyString).

(** Pairs of digits to bytes; [None] on a non-digit or an odd length. *)
Fixpoint parseDigits (s : string) : option bytes :=
  match s with
  | EmptyString => Some []
  | String c (String d r) =>
      match digitValue c, digitValue d, parseDigits r with
      | Some h, Some l, Some bs => Some (byte_of_Z (16 * h + l) :: bs)
      | _, _, _ => None
      end
  | String _ EmptyString => None
  end.

Fixpoint printDigits (bs : bytes) : string :=
  match bs with
  | [] => EmptyString
  | b :: r => byteHex b +:+ printDigits r
  end.

(** The byte string a hex value denotes: ["0x"] and an even number of
    digits. *)
Definition parseHex (h : Hex) : option bytes :=
  match h with
  | String c (String d r) =>
      if (Ascii.eqb c "0" && Ascii.eqb d "x")%bool then parseDigits r
      else None
  | _ => None
  end.

(** Big-endian bytes of [v], [n] of them. *)
Fixpoint beBytes (n : nat) (v : Z) : bytes :=
  match n with
  | O => []
  | S k => byte_of_Z ((v / 256 ^ Z.of_nat k) mod 256) :: beBytes k v
  end.

End Hexa.

(** ** viem's encoders, on hex strings *)

Module Viem.

Definition concatHex (values : list Hex) : Hex :=
  "0x" +:+ fold_left (fun acc x => acc +:+ JS.replace_0x x) values "".

(** [size(value)]: [Math.ceil((value.length - 2) / 2)] for a hex value. *)
Definition size (value : Hex) : nat :=
  if JS.startsWith "0x" value
  then ((String.length value - 2 + 1) / 2)%nat
  else String.length value.

(** [numberToHex(value, { size })], unsigned: throws out of range. *)
Definition numberToHex (value : Z) (sz : nat) : option Hex :=
  if (value <? 0) || (2 ^ (8 * Z.of_nat sz) - 1 <? value) then None
  else Some ("0x" +:+ Hexa.digits (2 * sz) value).

(** [toHex] of a bigint is [numberToHex]. *)
Definition toHex (value : Z) (sz : nat) : option Hex := numberToHex value sz.

(** [numberToHex(n, { size: 32 })] of a length or an offset, which is
    never out of range (a string has fewer than 2^53 code units). *)
Definition hexWord (n : nat) : Hex := "0x" +:+ Hexa.digits 64 (Z.of_nat n).

Inductive Dir := dirLeft | dirRight.

Definition padHex (dir : Dir) (hex_ : Hex) (sz : nat) : option Hex :=
  let hex := JS.replace_0x hex_ in
  if (sz * 2 <? String.length hex)%nat then None
  else Some ("0x" +:+ match dir with
                      | dirRight => JS.padEnd0 (sz * 2) hex
                      | dirLeft => JS.padStart0 (sz * 2) hex
                      end).

(** [hexToBytes]: the digits after the first two code units, an odd
    number of them completed by a leading zero; throws on a non-digit. *)
Definition hexToBytes (hex : Hex) : option bytes :=
  let hexString := substring 2 (String.length hex - 2) hex in
  Hexa.parseDigits (if Nat.odd (String.length hexString)
                    then String "0" hexString else hexString).

Definition bytesToHex (bs : bytes) : Hex := "0x" +:+ Hexa.printDigits bs.

(** The UTF-8 bytes of a code unit below 256: itself below 128, two
    bytes from there on. *)
Definition utf8 (c : ascii) : bytes :=
  let n := Z.of_nat (nat_of_ascii c) in
  if n <? 128 then [byte_of_Z n]
  else [byte_of_Z (192 + n / 64); byte_of_Z (128 + n mod 64)].

(** [stringToBytes(s)]: the UTF-8 encoding. *)
Definition stringToBytes (s : string) : bytes :=
  flat_map utf8 (list_ascii_of_string s).

Section WithKeccak.
Context `{Keccak}.

(** [keccak256(value)] with the default hex output: the hash of the
    bytes of a hex value ([0x] and hex digits only), and of the UTF-8 bytes
    of any other string, with or without the prefix.  It never throws. *)
Definition keccak256 (value : Hex) : option Hex :=
  if JS.startsWith "0x" value
  then match hexToBytes value with
       | Some bs => Some (bytesToHex (keccak_256 bs))
       | None => Some (bytesToHex (keccak_256 (stringToBytes value)))
       end
  else Some (bytesToHex (keccak_256 (stringToBytes value))).

Definition upper_ascii (c : ascii) : ascii :=
  let n := nat_of_ascii c in
  if ((97 <=? n) && (n <=? 122))%nat then ascii_of_nat (n - 32) else c.

(** [checksumAddress(address)] (EIP-55): digit [i] is printed in upper
    case when nibble [i] of the hash of the lower-case digits is 8 or
    more. *)
Fixpoint checksumDigits (hash : bytes) (address : list ascii) : list ascii :=
  match hash, address with
  | h :: hash', a :: b :: address' =>
      (if 8 <=? Z_of_byte h / 16 then upper_ascii a else a)
      :: (if 8 <=? Z_of_byte h mod 16 then upper_ascii b else b)
      :: checksumDigits hash' address'
  | h :: hash', [a] =>
      [if 8 <=? Z_of_byte h / 16 then upper_ascii a else a]
  | _, _ => address
  end.

Definition checksumAddress (address_ : Hex) : Hex :=
  let hexAddress :=
    JS.toLowerCase (substring 2 (String.length address_ - 2) address_) in
  let hash := keccak_256 (stringToBytes hexAddress) in
  "0x" +:+ string_of_list_ascii
             (checksumDigits (firstn 20 hash) (list_ascii_of_string hexAddress)).

(** [/^0x[a-fA-F0-9]{40}$/] *)
Definition addressRegex (a : Hex) : bool :=
  JS.startsWith "0x" a && (String.length a =? 42)%nat
  && forallb Hexa.isHexDigit (list_ascii_of_string (substring 2 40 a)).

(** [isAddress(address)], strict. *)
Definition isAddress (address : Hex) : bool :=
  if negb (addressRegex address) then false
  else if String.eqb (JS.toLowerCase address) address then true
  else String.eqb (checksumAddress address) address.

(** *** encodeAbiParameters *)

Record PreparedParam := { dynamic : bool; encoded : Hex }.

(** address *)
Definition encodeAddress (value : Hex) : option PreparedParam :=
  if negb (isAddress value) then None
  else match padHex dirLeft (JS.toLowerCase value) 32 with
       | Some e => Some {| dynamic := false; encoded := e |}
       | None => None
       end.

(** uint<bits> *)
Definition encodeNumber (value : Z) (bits : Z) : option PreparedParam :=
  let max := 2 ^ bits - 1 in
  if (max <? value) || (value <? 0) then None
  else match numberToHex value 32 with
       | Some e => Some {| dynamic := false; encoded := e |}
       | None => None
       end.

(** bytes; the padded size is
    [Math.ceil((value.length - 2) / 2 / 32) * 32] *)
Definition encodeBytes (value : Hex) : option PreparedParam :=
  let bytesSize := size value in
  match (if (bytesSize mod 32 =? 0)%nat then Some value
         else padHex dirRight value
                ((String.length value - 2 + 63) / 64 * 32)%nat) with
  | Some value_ =>
      Some {| dynamic := true;
              encoded := concatHex [hexWord bytesSize; value_] |}
  | None => None
  end.

(** bytes<n> *)
Definition encodeBytesN (value : Hex) (paramSize : nat) : option PreparedParam :=
  if negb (size value =? paramSize)%nat then None
  else match padHex dirRight value 32 with
       | Some e => Some {| dynamic := false; encoded := e |}
       | None => None
       end.

Definition staticSize (ps : list PreparedParam) : nat :=
  fold_left (fun s p => if dynamic p then s + 32 else s + size (encoded p))%nat
            ps 0%nat.

(** The second loop of [encodeParams]: heads and tails. *)
Fixpoint splitParams (ps : list PreparedParam) (staticSz dynamicSz : nat)
  : list Hex * list Hex :=
  match ps with
  | [] => ([], [])
  | p :: r =>
      if dynamic p then
        let '(st, dy) :=
          splitParams r staticSz (dynamicSz + size (encoded p)) in
        (hexWord (staticSz + dynamicSz) :: st, encoded p :: dy)
      else
        let '(st, dy) := splitParams r staticSz dynamicSz in
        (encoded p :: st, dy)
  end.

Definition encodeParams (ps : list PreparedParam) : Hex :=
  let '(st, dy) := splitParams ps (staticSize ps) 0 in
  concatHex (st ++ dy).

(** A dynamic array [T[]] of prepared elements. *)
Definition encodeArray (preparedParams : list PreparedParam) : PreparedParam :=
  let data := encodeParams preparedParams in
  let len := hexWord (length preparedParams) in
  {| dynamic := true;
     encoded := if (0 <? length preparedParams)%nat
                then concatHex [len; data] else len |}.

(** A tuple of prepared components. *)
Definition encodeTuple (preparedParams : list PreparedParam) : PreparedParam :=
  let dyn := existsb dynamic preparedParams in
  {| dynamic := dyn;
     encoded := if dyn then encodeParams preparedParams
                else concatHex (map encoded preparedParams) |}.

Definition encodeAbiParameters (preparedParams : list PreparedParam) : Hex :=
  encodeParams preparedParams.

End WithKeccak.

End Viem.

(** ** The intent store ([_lib/store.ts]) *)

Module Store.

(** A call; stored values are bigints. *)
Record Call := { call_to : Hex; call_value : Z; call_data : Hex }.

(** An entry of [Intent.signatures]. *)
Record OwnerSig := { ownerKeyHash : Hex; sig : Hex; at_ : Z }.

Inductive Status := collecting | submitted | confirmed | failed.

Record Intent := {
  id : string;
  account : Hex;
  chainId : Z;
  externalKeyHash : Hex;
  seqKey : Z;
  nonce : Z;
  digest : Hex;
  calls : list Call;
  threshold : Z;
  owners : list Hex;
  signatures : list OwnerSig;
  status : Status;
  txHash : option Hex
}.

(** [Partial<Intent>] *)
Record Patch := {
  p_id : option string;
  p_account : option Hex;
  p_chainId : option Z;
  p_externalKeyHash : option Hex;
  p_seqKey : option Z;
  p_nonce : option Z;
  p_digest : option Hex;
  p_calls : option (list Call);
  p_threshold : option Z;
  p_owners : option (list Hex);
  p_signatures : option (list OwnerSig);
  p_status : option Status;
  p_txHash : option Hex
}.

(** [{ signatures }], [{ status }] and [{ status, txHash }] *)
Definition patchSignatures (s : list OwnerSig) : Patch :=
  {| p_id := None; p_account := None; p_chainId := None;
     p_externalKeyHash := None; p_seqKey := None; p_nonce := None;
     p_digest := None; p_calls := None; p_threshold := None;
     p_owners := None; p_signatures := Some s; p_status := None;
     p_txHash := None |}.

Definition patchStatus (s : Status) : Patch :=
  {| p_id := None; p_account := None; p_chainId := None;
     p_externalKeyHash := None; p_seqKey := None; p_nonce := None;
     p_digest := None; p_calls := None; p_threshold := None;
     p_owners := None; p_signatures := None; p_status := Some s;
     p_txHash := None |}.

Definition patchStatusTx (s : Status) (h : Hex) : Patch :=
  {| p_id := None; p_account := None; p_chainId := None;
     p_externalKeyHash := None; p_seqKey := None; p_nonce := None;
     p_digest := None; p_calls := None; p_threshold := None;
     p_owners := None; p_signatures := None; p_status := Some s;
     p_txHash := Some h |}.

(** [{ ...now, ...patch }] *)
Definition spread (now : Intent) (patch : Patch) : Intent :=
  {| id := default (id now) (p_id patch);
     account := default (account now) (p_account patch);
     chainId := default (chainId now) (p_chainId patch);
     externalKeyHash := default (externalKeyHash now) (p_externalKeyHash patch);
     seqKey := default (seqKey now) (p_seqKey patch);
     nonce := default (nonce now) (p_nonce patch);
     digest := default (digest now) (p_digest patch);
     calls := default (calls now) (p_calls patch);
     threshold := default (threshold now) (p_threshold patch);
     owners := default (owners now) (p_owners patch);
     signatures := default (signatures now) (p_signatures patch);
     status := default (status now) (p_status patch);
     txHash := match p_txHash patch with
               | Some h => Some h
               | None => txHash now
               end |}.

(** [Map<string, Intent>] *)
Abbreviation DB := (gmap string Intent).

Definition upsertIntent (db : DB) (i : Intent) : DB * Intent :=
  (<[id i := i]> db, i).

Definition getIntent (db : DB) (k : string) : option Intent := db !! k.

Definition setIntent (db : DB) (k : string) (patch : Patch) : DB :=
  match db !! k with
  | None => db
  | Some now => <[k := spread now patch]> db
  end.

End Store.

(** ** The chain, as the routes see it ([_lib/viem.ts]) *)

Module Chain.
Import Store.

Inductive Receipt := success | reverted.

(** [publicClient.readContract], [walletClient.writeContract] and
    [publicClient.waitForTransactionReceipt] at the functions the routes
    use.  [None] is a call that throws. *)
Record Client := {
  (** is [RELAYER_PRIVATE_KEY] set *)
  walletClient : bool;
  (** multisig.getConfig(account, keyHash) *)
  getConfig : Hex -> Hex -> Hex -> option (Z * list Hex);
  (** account.getNonce(seqKey) *)
  getNonce : Hex -> Z -> option Z;
  (** account.computeDigest(calls, nonce) *)
  computeDigest : Hex -> list Call -> Z -> option Hex;
  (** account.unwrapAndValidateSignature(digest, signature) *)
  unwrapAndValidateSignature : Hex -> Hex -> Hex -> option (bool * Hex);
  (** account.execute(mode, executionData), the transaction hash *)
  execute : Hex -> Hex -> Hex -> option Hex;
  waitForTransactionReceipt : Hex -> option Receipt
}.

(** One call to the chain, with its arguments. *)
Inductive Call :=
| CallGetConfig (multisig account keyHash : Hex)
| CallGetNonce (account : Hex) (seqKey : Z)
| CallComputeDigest (account : Hex) (calls : list Store.Call) (nonce : Z)
| CallUnwrap (account digest signature : Hex)
| CallExecute (account mode executionData : Hex)
| CallWaitReceipt (hash : Hex).

Definition isExecute (c : Call) : bool :=
  match c with CallExecute _ _ _ => true | _ => false end.

Definition MODE_SINGLE_WITH_OPDATA : Hex :=
  "0x0100000000007821000100000000000000000000000000000000000000000000".

Definition MODE_SINGLE_NO_OPDATA : Hex :=
  "0x0100000000000000000000000000000000000000000000000000000000000000".

End Chain.

(** ** Intent creation ([POST /api/intents]) *)

Module Create.
Import Store Chain.

Record Body := {
  b_account : Hex;
  b_chainId : Z;
  b_externalKeyHash : Hex;
  (** the value [BigInt(seqKey)] of the field, absent by default *)
  b_seqKey : option Z;
  (** each [value] already as [BigInt(c.value)] *)
  b_calls : list Store.Call;
  b_multisigAddress : Hex
}.

Inductive Response :=
| Created (id : string) (digest : Hex) (threshold : Z) (owners : list Hex)
| NoOwners          (* 400 'No owners configured for this keyHash' *)
| Threw.            (* a chain read threw: the handler rejects *)

(** [uuid] is what [randomUUID()] returns. *)
Definition POST (c : Client) (db : DB) (uuid : string) (body : Body)
  : Response * DB * list Chain.Call :=
  let account := b_account body in
  let externalKeyHash := b_externalKeyHash body in
  let multisigAddress := b_multisigAddress body in
  let t0 := [CallGetConfig multisigAddress account externalKeyHash] in
  match getConfig c multisigAddress account externalKeyHash with
  | None => (Threw, db, t0)
  | Some (threshold, ownerKeyHashes) =>
      if (length ownerKeyHashes =? 0)%nat then (NoOwners, db, t0)
      else
        let seqKeyBig := default 0 (b_seqKey body) in
        let t1 := t0 ++ [CallGetNonce account seqKeyBig] in
        match getNonce c account seqKeyBig with
        | None => (Threw, db, t1)
        | Some nonce =>
            let t2 := t1 ++ [CallComputeDigest account (b_calls body) nonce] in
            match computeDigest c account (b_calls body) nonce with
            | None => (Threw, db, t2)
            | Some digest =>
                let '(db', intent) :=
                  upsertIntent db
                    {| id := uuid;
                       account := account;
                       chainId := b_chainId body;
                       externalKeyHash := externalKeyHash;
                       seqKey := seqKeyBig;
                       nonce := nonce;
                       digest := digest;
                       calls := b_calls body;
                       threshold := JS.Number threshold;
                       owners := ownerKeyHashes;
                       signatures := [];
                       status := collecting;
                       txHash := None |} in
                (Created (id intent) (Store.digest intent)
                   (Store.threshold intent) (Store.owners intent), db', t2)
            end
        end
  end.

End Create.

(** ** Signature collection ([POST /api/intents/[id]/sign]) *)

Module Sign.
Import Store Chain.

(** The result of one validation attempt. *)
Record Checked := { ok : bool; ownerKh : Hex; sig : Hex }.

(** One read of [unwrapAndValidateSignature]; a read that throws counts
    as invalid.  (The label argument of the source is unused.) *)
Definition tryOnce (c : Client) (account digest : Hex) (sig : Hex) : Checked :=
  match unwrapAndValidateSignature c account digest sig with
  | Some (ok, ownerKh) => {| ok := ok; ownerKh := ownerKh; sig := sig |}
  | None => {| ok := false; ownerKh := "0x"; sig := sig |}
  end.

(** The other prehash variant of a lower-cased wrapped signature. *)
Definition flip (hex : Hex) : Hex :=
  let last2 := JS.slice_last 2 hex in
  let flippedLast2 := if String.eqb last2 "01" then "00" else "01" in
  JS.slice_init 2 hex +:+ flippedLast2.

(** Is the lower-cased signature long enough to be retried. *)
Definition retriable (hex : Hex) : bool :=
  negb (negb (JS.startsWith "0x" hex)
        || (String.length hex <? 2 + 64 + 64 + 64 + 2)%nat).

Definition validateWrappedSignature (c : Client) (account digest wrapped : Hex)
  : Checked * list Chain.Call :=
  let res := tryOnce c account digest wrapped in
  let t1 := [CallUnwrap account digest wrapped] in
  if ok res then (res, t1)
  else
    let hex := JS.toLowerCase wrapped in
    if negb (JS.startsWith "0x" hex)
       || (String.length hex <? 2 + 64 + 64 + 64 + 2)%nat
    then (res, t1)
    else
      let flipped := flip hex in
      let res2 := tryOnce c account digest flipped in
      let t2 := t1 ++ [CallUnwrap account digest flipped] in
      if ok res2 then (res2, t2) else (res, t2).

Inductive Response :=
| NotFound                 (* 404 'Not found' *)
| MissingSignature         (* 400 'Missing wrappedSignature' *)
| DigestMismatch           (* 400 'Digest mismatch' *)
| InvalidSignature         (* 400 'Invalid signature' *)
| SignerNotAuthorized      (* 400 'Signer not authorized' *)
| Duplicate (k : nat) (M : Z)                 (* { ok, k, M } *)
| Accepted (k : nat) (M : Z) (ready : bool).  (* { ok, k, M, ready } *)

(** [a.toLowerCase() === b.toLowerCase()] *)
Definition sameHex (a b : Hex) : bool :=
  String.eqb (JS.toLowerCase a) (JS.toLowerCase b).

Definition isOwner (intent : Intent) (ownerKeyHash : Hex) : bool :=
  existsb (fun k => sameHex k ownerKeyHash) (owners intent).

Definition hasSigned (intent : Intent) (ownerKeyHash : Hex) : bool :=
  existsb (fun s => sameHex (Store.ownerKeyHash s) ownerKeyHash)
          (signatures intent).

(** [intent.signatures.push(s)]: the array of the stored object grows in
    place. *)
Definition push (intent : Intent) (s : OwnerSig) : Intent :=
  {| id := id intent; account := account intent; chainId := chainId intent;
     externalKeyHash := externalKeyHash intent; seqKey := seqKey intent;
     nonce := nonce intent; digest := digest intent; calls := calls intent;
     threshold := threshold intent; owners := owners intent;
     signatures := signatures intent ++ [s];
     status := status intent; txHash := txHash intent |}.

(** [k] is the route parameter, [wrappedSignature] the field of the body
    ([None] when absent), [now] what [Date.now()] returns.  A stored
    intent has an array of calls and a nonce, so the defensive digest
    check always runs; a recomputation that throws is caught and the
    check skipped. *)
Definition POST (c : Client) (db : DB) (k : string)
    (wrappedSignature : option Hex) (now : Z)
  : Response * DB * list Chain.Call :=
  match getIntent db k with
  | None => (NotFound, db, [])
  | Some intent =>
      match wrappedSignature with
      | None => (MissingSignature, db, [])
      | Some wrapped =>
          if String.eqb wrapped "" then (MissingSignature, db, [])
          else
            let t0 := [CallComputeDigest (account intent) (calls intent)
                         (nonce intent)] in
            let matches :=
              match computeDigest c (account intent) (calls intent)
                      (nonce intent) with
              | Some onChainDigest =>
                  String.eqb (JS.toLowerCase onChainDigest)
                             (JS.toLowerCase (digest intent))
              | None => true   (* caught: the check is skipped *)
              end in
            if negb matches then (DigestMismatch, db, t0)
            else
              let '(checked, tv) :=
                validateWrappedSignature c (account intent) (digest intent)
                                         wrapped in
              let t := t0 ++ tv in
              if negb (ok checked) then (InvalidSignature, db, t)
              else
                let ownerKeyHash := ownerKh checked in
                if negb (isOwner intent ownerKeyHash)
                then (SignerNotAuthorized, db, t)
                else if hasSigned intent ownerKeyHash
                then (Duplicate (length (signatures intent))
                                (threshold intent), db, t)
                else
                  let intent' :=
                    push intent {| ownerKeyHash := ownerKeyHash;
                                   Store.sig := sig checked;
                                   at_ := now |} in
                  let db1 := <[k := intent']> db in
                  let db2 := setIntent db1 (id intent')
                               (patchSignatures (signatures intent')) in
                  let n := length (signatures intent') in
                  (Accepted n (threshold intent')
                     (threshold intent' <=? Z.of_nat n), db2, t)
      end
  end.

End Sign.

(** ** Submission ([POST /api/intents/[id]/submit]) *)

Module Submit.
Import Store Chain Viem.

Inductive Response :=
| NotFound                       (* 404 'Not found' *)
| RelayerMissing                 (* 500 'RELAYER_PRIVATE_KEY missing' *)
| NotEnoughSignatures            (* 400 'Not enough signatures' *)
| NonceMismatch (intentNonce currentNonce : Z)   (* 400 'Nonce mismatch' *)
| Submitted (txHash : Hex) (status : Receipt)    (* { ok, txHash, status } *)
| SubmitFailed                   (* 500, from the catch block *)
| Threw.                         (* an encoder or the nonce read threw *)

Section WithKeccak.
Context `{Keccak}.

(** One element of the [tuple[]] of calls:
    [(address to, uint256 value, bytes data)]. *)
Definition prepareCall (c : Store.Call) : option PreparedParam :=
  to ← encodeAddress (call_to c);
  value ← encodeNumber (call_value c) 256;
  data ← encodeBytes (call_data c);
  Some (encodeTuple [to; value; data]).

(** Step 1: [encodeAbiParameters([{ type: 'bytes[]' }], [ownerSigs])] *)
Definition aggregate (ownerSigs : list Hex) : option Hex :=
  ps ← mapM encodeBytes ownerSigs;
  Some (encodeAbiParameters [encodeArray ps]).

(** Steps 1 to 4 of the route. *)
Definition executionData (intent : Intent) : option Hex :=
  let ownerSigs := map Store.sig (signatures intent) in
  aggregated ← aggregate ownerSigs;
  let outer := concatHex [aggregated; externalKeyHash intent; "0x00"] in
  nonce32 ← toHex (nonce intent) 32;
  let opData := concatHex [nonce32; outer] in
  cs ← mapM prepareCall (calls intent);
  od ← encodeBytes opData;
  Some (encodeAbiParameters [encodeArray cs; od]).

Definition POST (c : Client) (db : DB) (k : string)
  : Response * DB * list Chain.Call :=
  match getIntent db k with
  | None => (NotFound, db, [])
  | Some intent =>
      if negb (walletClient c) then (RelayerMissing, db, [])
      else if Z.of_nat (length (signatures intent)) <? threshold intent
      then (NotEnoughSignatures, db, [])
      else
        match executionData intent with
        | None => (Threw, db, [])
        | Some executionData =>
            let t1 := [CallGetNonce (account intent) 0] in
            match getNonce c (account intent) 0 with
            | None => (Threw, db, t1)
            | Some currentNonce =>
                if negb (nonce intent =? currentNonce)
                then (NonceMismatch (nonce intent) currentNonce, db, t1)
                else
                  let t2 := t1 ++ [CallExecute (account intent)
                                     MODE_SINGLE_WITH_OPDATA executionData] in
                  match execute c (account intent) MODE_SINGLE_WITH_OPDATA
                          executionData with
                  | None =>
                      (SubmitFailed,
                       setIntent db (id intent) (patchStatus failed), t2)
                  | Some hash =>
                      let db1 := setIntent db (id intent)
                                   (patchStatusTx submitted hash) in
                      let t3 := t2 ++ [CallWaitReceipt hash] in
                      match waitForTransactionReceipt c hash with
                      | None =>
                          (SubmitFailed,
                           setIntent db1 (id intent) (patchStatus failed), t3)
                      | Some receipt =>
                          let db2 :=
                            setIntent db1 (id intent)
                              (patchStatus
                                 match receipt with
                                 | success => confirmed
                                 | reverted => failed
                                 end) in
                          (Submitted hash receipt, db2, t3)
                      end
                  end
            end
        end
  end.

End WithKeccak.

End Submit.

(** ** The external key ([externalPublicKey], [computeExternalKeyHash],
       [encodeAuthorizeExternalExecute]) *)

Module ExternalKey.
Import Viem.

(** The [Key] struct passed to [authorize]. *)
Record Key := {
  expiry : Z;
  keyType : Z;
  isSuperAdmin : bool;
  publicKey : Hex
}.

Record AuthorizeCall := { to : Hex; data : Hex; externalKeyHash : Hex }.

Section WithKeccak.
Context `{Keccak}.

Definition externalPublicKey (multisig salt12 : Hex) : Hex :=
  concatHex [multisig; salt12].

Definition computeExternalKeyHash (multisig salt12 : Hex) : option Hex :=
  let pub := externalPublicKey multisig salt12 in
  pubHash ← keccak256 pub;
  p1 ← encodeNumber 3 8;
  p2 ← encodeBytesN pubHash 32;
  let packed := encodeAbiParameters [p1; p2] in
  keccak256 packed.

(** [encodeFunctionData] for [authorize] and [execute] of the account
    ABI, which the caller passes in. *)
Variable encodeAuthorize : Key -> option Hex.
Variable encodeExecute : Hex -> Hex -> option Hex.

Definition encodeAuthorizeExternalExecute (account multisig salt12 : Hex)
  : option AuthorizeCall :=
  let publicKey := externalPublicKey multisig salt12 in
  let key := {| expiry := 0; keyType := 3; isSuperAdmin := false;
                publicKey := publicKey |} in
  authorizeData ← encodeAuthorize key;
  zero ← encodeAddress "0x0000000000000000000000000000000000000000";
  value ← encodeNumber 0 256;
  data ← encodeBytes authorizeData;
  let callsEncoded :=
    encodeAbiParameters [encodeArray [encodeTuple [zero; value; data]]] in
  data ← encodeExecute Chain.MODE_SINGLE_NO_OPDATA callsEncoded;
  externalKeyHash ← computeExternalKeyHash multisig salt12;
  Some {| to := account; data := data; externalKeyHash := externalKeyHash |}.

End WithKeccak.

End ExternalKey.

(** ** Keccak-256

    The hash function itself (FIPS 202's permutation with Keccak's original
    padding), to run the encoders on concrete data. *)

Module Keccak256.

Definition mask64 : Z := 2 ^ 64 - 1.

Definition rotl (v n : Z) : Z :=
  Z.lor (Z.land (Z.shiftl v n) mask64) (Z.shiftr v (64 - n)).

(** Lane (x, y) of a state of 25 lanes. *)
Definition lane (st : list Z) (x y : nat) : Z := nth (x mod 5 + 5 * y) st 0.

Definition roundConstants : list Z :=
  [0x0000000000000001; 0x0000000000008082; 0x800000000000808A;
   0x8000000080008000; 0x000000000000808B; 0x0000000080000001;
   0x8000000080008081; 0x8000000000008009; 0x000000000000008A;
   0x0000000000000088; 0x0000000080008009; 0x000000008000000A;
   0x000000008000808B; 0x800000000000008B; 0x8000000000008089;
   0x8000000000008003; 0x8000000000008002; 0x8000000000000080;
   0x000000000000800A; 0x800000008000000A; 0x8000000080008081;
   0x8000000000008080; 0x0000000080000001; 0x8000000080008008].

(** Rotation offsets, indexed by x + 5 y. *)
Definition rotationOffsets : list Z :=
  [0; 1; 62; 28; 27;
   36; 44; 6; 55; 20;
   3; 10; 43; 25; 39;
   41; 45; 15; 21; 8;
   18; 2; 61; 56; 14].

Definition theta (st : list Z) : list Z :=
  let C x := Z.lxor (lane st x 0) (Z.lxor (lane st x 1) (Z.lxor (lane st x 2)
               (Z.lxor (lane st x 3) (lane st x 4)))) in
  let D x := Z.lxor (C (x + 4)%nat) (rotl (C (x + 1)%nat) 1) in
  map (fun i => Z.lxor (nth i st 0) (D (i mod 5)%nat)) (seq 0 25).

(** B[y, 2x + 3y] = rot(A[x, y], r[x, y]) *)
Definition rhoPi (st : list Z) : list Z :=
  map (fun j => let X := (j mod 5)%nat in
                let Y := (j / 5)%nat in
                let x := ((X + 3 * Y) mod 5)%nat in
                rotl (lane st x X) (nth (x + 5 * X) rotationOffsets 0))
      (seq 0 25).

Definition chi (st : list Z) : list Z :=
  map (fun i => let x := (i mod 5)%nat in
                let y := (i / 5)%nat in
                Z.lxor (lane st x y)
                  (Z.land (Z.lxor (lane st (x + 1) y) mask64)
                          (lane st (x + 2) y)))
      (seq 0 25).

Definition iota (rc : Z) (st : list Z) : list Z :=
  match st with
  | a :: r => Z.lxor a rc :: r
  | [] => []
  end.

Definition round (st : list Z) (rc : Z) : list Z :=
  iota rc (chi (rhoPi (theta st))).

Definition keccak_f (st : list Z) : list Z := fold_left round roundConstants st.

(** Little-endian lane of eight bytes. *)
Fixpoint leLane (bs : bytes) : Z :=
  match bs with
  | [] => 0
  | b :: r => Z_of_byte b + 256 * leLane r
  end.

Fixpoint lanesOf (n : nat) (block : bytes) : list Z :=
  match n with
  | O => []
  | S k => leLane (firstn 8 block) :: lanesOf k (skipn 8 block)
  end.

Definition rate : nat := 136.

Definition absorbBlock (st : list Z) (block : bytes) : list Z :=
  let ls := lanesOf 17 block in
  keccak_f (map (fun i => Z.lxor (nth i st 0) (nth i ls 0)) (seq 0 25)).

(** pad10*1 with Keccak's domain bits: 0x01 ... 0x80 *)
Definition pad (m : bytes) : bytes :=
  let q := (rate - length m mod rate)%nat in
  if (q =? 1)%nat then m ++ [Byte.x81]
  else m ++ [Byte.x01] ++ repeat Byte.x00 (q - 2) ++ [Byte.x80].

Fixpoint absorb (fuel : nat) (st : list Z) (m : bytes) : list Z :=
  match fuel with
  | O => st
  | S k =>
      match m with
      | [] => st
      | _ => absorb k (absorbBlock st (firstn rate m)) (skipn rate m)
      end
  end.

Definition squeezeByte (st : list Z) (i : nat) : byte :=
  byte_of_Z (Z.shiftr (nth (i / 8) st 0) (8 * Z.of_nat (i mod 8))).

Definition hash (m : bytes) : bytes :=
  let p := pad m in
  let st := absorb (length p) (repeat 0 25) p in
  map (squeezeByte st) (seq 0 32).

(** Keccak-256 as the chain computes it. *)
Definition keccak : Keccak :=
  {| keccak_256 := hash;
     keccak_256_length := fun m =>
       eq_trans (length_map (squeezeByte _) (seq 0 32)) (length_seq 32 0) |}.

End Keccak256.

From stdpp Require Import pretty.

Local Open Scope Z_scope.

(** ** Reading an intent ([GET /api/intents/[id]]) *)

Module Read.
Import Store.

(** A call and an intent as handed to [NextResponse.json]: the bigints
    replaced by their decimal strings. *)
Record CallJson := { j_to : Hex; j_value : string; j_data : Hex }.

Record IntentJson := {
  j_id : string;
  j_account : Hex;
  j_chainId : Z;
  j_externalKeyHash : Hex;
  j_seqKey : string;
  j_nonce : string;
  j_digest : Hex;
  j_calls : list CallJson;
  j_threshold : Z;
  j_owners : list Hex;
  j_signatures : list OwnerSig;
  j_status : Status;
  j_txHash : option Hex
}.

(** [b.toString()] of a bigint: the decimal digits, a minus sign in front
    of a negative number. *)
Definition toString (b : Z) : string := pretty b.

Definition callForJson (call : Call) : CallJson :=
  {| j_to := call_to call;
     j_value := toString (call_value call);
     j_data := call_data call |}.

Definition intentForJson (intent : Intent) : IntentJson :=
  {| j_id := id intent;
     j_account := account intent;
     j_chainId := chainId intent;
     j_externalKeyHash := externalKeyHash intent;
     j_seqKey := toString (seqKey intent);
     j_nonce := toString (nonce intent);
     j_digest := digest intent;
     j_calls := map callForJson (calls intent);
     j_threshold := threshold intent;
     j_owners := owners intent;
     j_signatures := signatures intent;
     j_status := status intent;
     j_txHash := txHash intent |}.

Inductive Response :=
| NotFound                       (* 404 'Intent not found' *)
| Found (intent : IntentJson).

Definition GET (db : DB) (k : string) : Response :=
  match getIntent db k with
  | None => NotFound
  | Some intent => Found (intentForJson intent)
  end.

End Read.

(** ** Permissions of a key ([lib/permissions.ts]) *)

Module Permissions.
Import Viem.

Definition EMPTY_CALLDATA_FN_SEL : Hex := "0xe0e0e0e0".
Definition ANY_TARGET : Hex := "0x3232323232323232323232323232323232323232".

(** [{ to, data }] *)
Record BatchCall := { to : Hex; data : Hex }.

Section WithKeccak.
Context `{Keccak}.

(** [encodeFunctionData] for [setCanExecute], [setSpendLimit] and
    [execute] of the account ABI, which the caller passes in. *)
Variable encodeSetCanExecute : Hex -> Hex -> Hex -> bool -> option Hex.
Variable encodeSetSpendLimit : Hex -> Hex -> Z -> Z -> option Hex.
Variable encodeExecute : Hex -> Hex -> option Hex.

Definition encodeSetCanExecuteExecute (account keyHash target fnSel : Hex)
    (can : bool) : option BatchCall :=
  setData ← encodeSetCanExecute keyHash target fnSel can;
  zero ← encodeAddress "0x0000000000000000000000000000000000000000";
  value ← encodeNumber 0 256;
  data ← encodeBytes setData;
  let callsEncoded :=
    encodeAbiParameters [encodeArray [encodeTuple [zero; value; data]]] in
  data ← encodeExecute Chain.MODE_SINGLE_NO_OPDATA callsEncoded;
  Some {| to := account; data := data |}.

Definition encodeSetSpendLimitExecute (account keyHash token : Hex)
    (period limit : Z) : option BatchCall :=
  setData ← encodeSetSpendLimit keyHash token period limit;
  zero ← encodeAddress "0x0000000000000000000000000000000000000000";
  value ← encodeNumber 0 256;
  data ← encodeBytes setData;
  let callsEncoded :=
    encodeAbiParameters [encodeArray [encodeTuple [zero; value; data]]] in
  data ← encodeExecute Chain.MODE_SINGLE_NO_OPDATA callsEncoded;
  Some {| to := account; data := data |}.

End WithKeccak.

End Permissions.

(** ** The main page ([app/page.tsx]): its helpers and the two setup
       actions *)

Module Page.
Import Viem.

(** [ensure0x] of [_lib/viem.ts] *)
Definition ensure0x (h : string) : Hex :=
  if JS.startsWith "0x" h then h else "0x" +:+ h.

(** [s.slice(2)] *)
Definition slice_from2 (s : string) : string :=
  substring 2 (String.length s - 2) s.

Definition normalizeKeyHash (keyHash : string) : string :=
  let keyHash :=
    if negb (JS.startsWith "0x" keyHash) then "0x" +:+ keyHash else keyHash in
  let hexPart := slice_from2 keyHash in
  if (String.length hexPart <? 64)%nat
  then "0x" +:+ JS.padStart0 64 hexPart
  else if (64 <? String.length hexPart)%nat
  then "0x" +:+ substring 0 64 hexPart
  else JS.toLowerCase keyHash.

(** White space and line terminators among the code units below 256. *)
Definition isSpace (c : ascii) : bool :=
  let n := nat_of_ascii c in
  ((9 <=? n) && (n <=? 13) || (n =? 32) || (n =? 160))%nat.

Fixpoint trimStart (s : string) : string :=
  match s with
  | String c r => if isSpace c then trimStart r else s
  | EmptyString => EmptyString
  end.

Fixpoint trimEnd (s : string) : string :=
  match s with
  | EmptyString => EmptyString
  | String c r =>
      match trimEnd r with
      | EmptyString => if isSpace c then EmptyString else String c EmptyString
      | r' => String c r'
      end
  end.

(** [s.trim()] *)
Definition trim (s : string) : string := trimEnd (trimStart s).

(** The class [[^/?]] *)
Definition notSeparator (c : ascii) : bool :=
  negb (Ascii.eqb c "/" || Ascii.eqb c "?").

(** The longest prefix matched by [[^/?]*] *)
Fixpoint segment (s : string) : string :=
  match s with
  | String c r => if notSeparator c then String c (segment r) else EmptyString
  | EmptyString => EmptyString
  end.

(** [input.match(/\/intent\/([^/?]+)/)]: the capture group of the leftmost
    match, [None] when there is none. *)
Fixpoint matchIntent (input : string) : option string :=
  match input with
  | EmptyString => None
  | String _ r =>
      if JS.startsWith "/intent/" input
      then match segment (substring 8 (String.length input - 8) input) with
           | EmptyString => matchIntent r
           | captured => Some captured
           end
      else matchIntent r
  end.

Definition extractIntentId (input : string) : string :=
  match matchIntent input with
  | Some captured => captured
  | None => trim input
  end.

(** The owners kept by the page (and written to local storage at each
    change). *)
Record Owner := { keyHash : Hex; label : option string }.

(** [addOwner]: the new list of owners; the same list when the key hash
    is among them already. *)
Definition addOwner (owners : list Owner) (owner : Owner) : list Owner :=
  if existsb (fun o => String.eqb (keyHash o) (keyHash owner)) owners
  then owners
  else owners ++ [owner].

Definition removeOwner (owners : list Owner) (kh : Hex) : list Owner :=
  List.filter (fun o => negb (String.eqb (keyHash o) kh)) owners.

(** [!v] for a string that may be undefined *)
Definition missing (v : option string) : bool :=
  match v with
  | Some s => String.eqb s ""
  | None => true
  end.

(** [isHex(value)], strict: [/^0x[0-9a-fA-F]*$/] *)
Definition isHex (value : string) : bool :=
  JS.startsWith "0x" value
  && forallb Hexa.isHexDigit (list_ascii_of_string (slice_from2 value)).

(** A JavaScript number as [parseInt] returns it: an integer, an infinity
    (of a digit string beyond the range of a double) or NaN. *)
Inductive Num := Int (z : Z) | Infinity (negative : bool) | NaN.

(** [a < b] and [a > b] for a number and an integer *)
Definition lessThan (a : Num) (b : Z) : bool :=
  match a with
  | Int z => z <? b
  | Infinity negative => negative
  | NaN => false
  end.

Definition greaterThan (a : Num) (b : Z) : bool :=
  match a with
  | Int z => b <? z
  | Infinity negative => negb negative
  | NaN => false
  end.

(** [BigInt(a)]: throws unless [a] is an integer. *)
Definition BigInt (a : Num) : option Z :=
  match a with
  | Int z => Some z
  | _ => None
  end.

(** A call of a batch; the target is a variable of the page, which may be
    undefined. *)
Record SentCall := { sc_to : option Hex; sc_data : Hex }.

(** What an action of the page comes to: nothing, an alert, or a batch
    handed to [sendCalls]. *)
Inductive Outcome :=
| Nothing
| Alert (message : string)
| SendCalls (calls : list SentCall).

Section WithKeccak.
Context `{Keccak}.

Definition ownerKeyHashFromXY (x y : Z) : option Hex :=
  px ← encodeNumber x 256;
  py ← encodeNumber y 256;
  let pubEncoded := encodeAbiParameters [px; py] in
  pubHash ← keccak256 pubEncoded;
  p1 ← encodeNumber 1 8;
  p2 ← encodeBytesN pubHash 32;
  let packed := encodeAbiParameters [p1; p2] in
  keccak256 packed.

(** [encodeFunctionData] at the functions the page calls: [authorize],
    [execute], [setCanExecute] and [setSpendLimit] of the account ABI,
    [initConfig] of the multisig ABI. *)
Variable encodeAuthorize : ExternalKey.Key -> option Hex.
Variable encodeExecute : Hex -> Hex -> option Hex.
Variable encodeSetCanExecute : Hex -> Hex -> Hex -> bool -> option Hex.
Variable encodeSetSpendLimit : Hex -> Hex -> Z -> Z -> option Hex.
Variable encodeInitConfig : Hex -> Z -> list Hex -> option Hex.

(** [authorizeKeyOnAccount]: the call that authorizes the passkey with
    coordinates [x], [y] on the connected account. *)
Definition authorizeKeyOnAccount (address : option Hex) (x y : Z) : Outcome :=
  if missing address then Nothing
  else
    match
      (px ← encodeNumber x 256;
       py ← encodeNumber y 256;
       let publicKey := encodeAbiParameters [px; py] in
       let key := {| ExternalKey.expiry := 0; ExternalKey.keyType := 1;
                     ExternalKey.isSuperAdmin := false;
                     ExternalKey.publicKey := publicKey |} in
       authorizeData ← encodeAuthorize key;
       Some [ {| sc_to := address; sc_data := authorizeData |} ])
    with
    | Some calls => SendCalls calls
    | None => Alert "Failed to authorize key"
    end.

(** [onSetupExternalKeyBatched], up to the call of [sendCalls]. *)
Definition onSetupExternalKeyBatched (address MULTISIG_ADDRESS : option Hex)
    (salt12 : string) : Outcome :=
  if missing address then Alert "Connect first"
  else if missing MULTISIG_ADDRESS
  then Alert "Missing NEXT_PUBLIC_MULTISIG_SIGNER"
  else if negb (isHex salt12) || negb (String.length salt12 =? 2 + 24)%nat
  then Alert "Salt must be 12 bytes hex"
  else
    (* both are defined here *)
    let account := default "" address in
    match
      (auth ← ExternalKey.encodeAuthorizeExternalExecute encodeAuthorize
                encodeExecute account (default "" MULTISIG_ADDRESS) salt12;
       let computedHash := ExternalKey.externalKeyHash auth in
       empty ← Permissions.encodeSetCanExecuteExecute encodeSetCanExecute
                 encodeExecute account computedHash Permissions.ANY_TARGET
                 Permissions.EMPTY_CALLDATA_FN_SEL true;
       let limitWei := 1000000000000000000 in
       spend ← Permissions.encodeSetSpendLimitExecute encodeSetSpendLimit
                 encodeExecute account computedHash
                 "0x0000000000000000000000000000000000000000" 6 limitWei;
       Some [ {| sc_to := Some (ExternalKey.to auth);
                 sc_data := ExternalKey.data auth |};
              {| sc_to := Some (Permissions.to empty);
                 sc_data := Permissions.data empty |};
              {| sc_to := Some (Permissions.to spend);
                 sc_data := Permissions.data spend |} ])
    with
    | Some calls => SendCalls calls
    | None => Alert "Batched setup failed. See console for details."
    end.

(** [onCompleteMultisigSetup], up to the call of [sendCalls].  The
    threshold is a number set by [parseInt].  The saved credential is
    absent, or holds coordinates that [BigInt] reads
    ([Some (Some (x, y))]), or cannot be read ([Some None]). *)
Definition onCompleteMultisigSetup (address MULTISIG_ADDRESS : option Hex)
    (externalKeyHash : string) (owners : list Owner) (threshold : Num)
    (savedCredential : option (option (Z * Z))) : Outcome :=
  if missing address then Alert "Connect wallet first"
  else if String.eqb externalKeyHash "" then Alert "Setup external key first"
  else if (length owners =? 0)%nat then Alert "Add at least one owner"
  else if lessThan threshold 1
          || greaterThan threshold (Z.of_nat (length owners))
  then Alert "Invalid threshold"
  else
    match savedCredential with
    | None => Alert "No Porto passkey found. Create a passkey first."
    | Some credentialData =>
        match
          ('(x, y) ← credentialData;
           px ← encodeNumber x 256;
           py ← encodeNumber y 256;
           let publicKey := encodeAbiParameters [px; py] in
           let key := {| ExternalKey.expiry := 0; ExternalKey.keyType := 1;
                         ExternalKey.isSuperAdmin := false;
                         ExternalKey.publicKey := publicKey |} in
           authorizeData ← encodeAuthorize key;
           let mode :=
             "0x0100000000000000000000000000000000000000000000000000000000000000" in
           zero ← encodeAddress "0x0000000000000000000000000000000000000000";
           value ← encodeNumber 0 256;
           data ← encodeBytes authorizeData;
           let executionData :=
             encodeAbiParameters
               [encodeArray [encodeTuple [zero; value; data]]] in
           t ← BigInt threshold;
           initConfigData ← encodeInitConfig externalKeyHash t
                              (map keyHash owners);
           executeData ← encodeExecute mode executionData;
           Some [ {| sc_to := address; sc_data := executeData |};
                  {| sc_to := MULTISIG_ADDRESS; sc_data := initConfigData |} ])
        with
        | Some calls => SendCalls calls
        | None =>
            Alert "Complete multisig setup failed. See console for details."
        end
    end.

End WithKeccak.

End Page.

(** ** Notions used to state the properties *)

Module Spec.
Import Store Chain.

(** Every entry sits under its own identifier: what [upsertIntent]
    establishes and the patches of the routes keep. *)
Definition keyed (db : DB) : Prop :=
  forall k i, db !! k = Some i -> id i = k.

(** The intent that create-intent builds from its three reads. *)
Definition created (uuid : string) (body : Create.Body)
    (threshold : Z) (ownerKeyHashes : list Hex) (nonce : Z) (digest : Hex)
  : Intent :=
  {| id := uuid;
     account := Create.b_account body;
     chainId := Create.b_chainId body;
     externalKeyHash := Create.b_externalKeyHash body;
     seqKey := default 0 (Create.b_seqKey body);
     nonce := nonce;
     digest := digest;
     calls := Create.b_calls body;
     threshold := JS.Number threshold;
     owners := ownerKeyHashes;
     signatures := [];
     status := collecting;
     txHash := None |}.

(** The bound on the threshold of a stored intent. *)
Definition thresholdInRange (i : Intent) : Prop :=
  1 <= threshold i <= Z.of_nat (length (owners i)).

(** The two final states of the specification's state machine. *)
Definition terminal (s : Status) : Prop := s = confirmed \/ s = failed.


(** The outcome of the defensive digest check of submit-signature: the
    recomputed digest equals the stored one up to case, or the
    recomputation threw. *)
Definition digestOk (c : Client) (i : Intent) : bool :=
  match computeDigest c (account i) (calls i) (nonce i) with
  | Some onChainDigest =>
      String.eqb (JS.toLowerCase onChainDigest) (JS.toLowerCase (digest i))
  | None => true
  end.

(** Two versions of an intent that differ at most in status and
    transaction hash. *)
Definition sameCollection (i j : Intent) : Prop :=
  account i = account j /\ digest i = digest j /\ calls i = calls j
  /\ nonce i = nonce j /\ owners i = owners j
  /\ threshold i = threshold j /\ signatures i = signatures j.

(** A validation oracle accepts every stored signature for the owner it
    is stored under. *)
Definition validated (v : Hex -> Hex -> Hex -> option (bool * Hex)) (db : DB)
  : Prop :=
  forall k i s, db !! k = Some i -> In s (signatures i) ->
    v (account i) (digest i) (Store.sig s) = Some (true, ownerKeyHash s).

(** The stores the three routes can produce from the empty one, over
    chains that validate signatures as [v] does. *)
Inductive reachable `{Keccak} (v : Hex -> Hex -> Hex -> option (bool * Hex))
  : DB -> Prop :=
| reach_empty : reachable v ∅
| reach_create c db uuid body :
    reachable v db -> reachable v (Create.POST c db uuid body).1.2
| reach_sign c db k w now :
    unwrapAndValidateSignature c = v ->
    reachable v db -> reachable v (Sign.POST c db k w now).1.2
| reach_submit c db k :
    reachable v db -> reachable v (Submit.POST c db k).1.2.

(** *** The ABI encoding, on bytes

    The contract ABI's head/tail encoding of the types the submission
    uses, written on byte strings. *)

(** [h] denotes the byte string [b]. *)
Definition denotes (h : Hex) (b : bytes) : Prop := Hexa.parseHex h = Some b.

(** uint256 *)
Definition word32 (v : Z) : bytes := Hexa.beBytes 32 v.

Definition zeroBytes (n : nat) : bytes := repeat Byte.x00 n.

(** The tail of a [bytes] value: length, content, zeros up to a multiple
    of 32. *)
Definition encBytes (b : bytes) : bytes :=
  word32 (Z.of_nat (length b)) ++ b
  ++ zeroBytes ((32 - length b mod 32) mod 32).

(** Offsets of consecutive tails, the first at [start]. *)
Fixpoint offsets (start : nat) (tails : list bytes) : list bytes :=
  match tails with
  | [] => []
  | t :: r => word32 (Z.of_nat start) :: offsets (start + length t) r
  end.

(** A sequence of dynamic components: their offsets, then their tails. *)
Definition encDynamicSeq (tails : list bytes) : bytes :=
  concat (offsets (32 * length tails) tails) ++ concat tails.

(** A dynamic array of dynamic elements. *)
Definition encDynamicArray (tails : list bytes) : bytes :=
  word32 (Z.of_nat (length tails)) ++ encDynamicSeq tails.

(** bytes[] *)
Definition encBytesArray (l : list bytes) : bytes :=
  encDynamicArray (map encBytes l).

(** A call, with its target and calldata as bytes. *)
Record CallBytes := { cb_to : bytes; cb_value : Z; cb_data : bytes }.

(** (address, uint256, bytes): two static words, the offset of the
    calldata, the calldata. *)
Definition encCall (c : CallBytes) : bytes :=
  zeroBytes 12 ++ cb_to c ++ word32 (cb_value c) ++ word32 96
  ++ encBytes (cb_data c).

(** (address, uint256, bytes)[] *)
Definition encCalls (cs : list CallBytes) : bytes :=
  encDynamicArray (map encCall cs).

(** abi.encode(bytes[]) *)
Definition abiEncodeSignatures (sigs : list bytes) : bytes :=
  encDynamicSeq [encBytesArray sigs].

(** abi.encode((address, uint256, bytes)[], bytes) *)
Definition abiEncodeExecution (cs : list CallBytes) (opData : bytes) : bytes :=
  encDynamicSeq [encCalls cs; encBytes opData].

(** The execution payload as the specification words it: the aggregated
    signatures, the policy key identifier and a zero byte; the nonce in
    front; then the tuple of calls and operation data. *)
Definition payload (sigs : list bytes) (policyKey : bytes) (nonce : Z)
    (cs : list CallBytes) : bytes :=
  let outer := abiEncodeSignatures sigs ++ policyKey ++ [Byte.x00] in
  let opData := word32 nonce ++ outer in
  abiEncodeExecution cs opData.

(** A parameter prepared by viem's encoder denotes [d], as a dynamic or
    as a static component. *)
Definition prepared (dyn : bool) (p : Viem.PreparedParam) (d : bytes) : Prop :=
  Viem.dynamic p = dyn /\ denotes (Viem.encoded p) d.

(** A stored call denotes a call on bytes. *)
Definition denotesCall `{Keccak} (c : Store.Call) (cb : CallBytes) : Prop :=
  Viem.isAddress (call_to c) = true
  /\ denotes (call_to c) (cb_to cb)
  /\ call_value c = cb_value cb
  /\ 0 <= call_value c < 2 ^ 256
  /\ denotes (call_data c) (cb_data cb).

(** The external key hash as the specification words it. *)
Definition externalKeyHashOf `{Keccak} (policyContract salt : bytes) : bytes :=
  keccak_256 (word32 3 ++ keccak_256 (policyContract ++ salt)).

End Spec.

(** ** Notions for the properties of the routes and of the page *)

Module Laws.
Import Store Chain.

(** The stores the three routes can produce from the empty one, on any
    chains. *)
Inductive produced `{Keccak} : DB -> Prop :=
| produced_empty : produced ∅
| produced_create c db uuid body :
    produced db -> produced (Create.POST c db uuid body).1.2
| produced_sign c db k w now :
    produced db -> produced (Sign.POST c db k w now).1.2
| produced_submit c db k :
    produced db -> produced (Submit.POST c db k).1.2.

(** The fields of an intent that describe the request: all but the
    signatures, the status and the transaction hash. *)
Definition sameRequest (i j : Intent) : Prop :=
  id i = id j /\ account i = account j /\ chainId i = chainId j
  /\ externalKeyHash i = externalKeyHash j /\ seqKey i = seqKey j
  /\ nonce i = nonce j /\ digest i = digest j /\ calls i = calls j
  /\ threshold i = threshold j /\ owners i = owners j.

(** The key hash of a signer, up to case. *)
Definition signer (s : OwnerSig) : string := JS.toLowerCase (ownerKeyHash s).

(** Every signature of the intent is stored for one of its owners, and no
    two of them for the same owner. *)
Definition collectedFromOwners (i : Intent) : Prop :=
  (forall s, In s (signatures i) -> Sign.isOwner i (ownerKeyHash s) = true)
  /\ NoDup (map signer (signatures i)).

(** Status and transaction hash agree: no hash while collecting, a hash
    once confirmed, and never left as submitted. *)
Definition settled (i : Intent) : Prop :=
  match status i with
  | collecting => txHash i = None
  | submitted => False
  | confirmed => txHash i <> None
  | failed => True
  end.

(** What the routes keep of a store: identifiers, signatures, status. *)
Definition wellFormed (db : DB) : Prop :=
  forall k i, db !! k = Some i ->
    id i = k /\ collectedFromOwners i /\ settled i.

(** The key hash of a passkey with coordinates [x], [y], on bytes. *)
Definition ownerKeyHashOf `{Keccak} (x y : Z) : bytes :=
  keccak_256 (Spec.word32 1
              ++ keccak_256 (Spec.word32 x ++ Spec.word32 y)).

(** abi.encode of the batch of one call of the account to itself:
    [(address(0), 0, data)]. *)
Definition selfCallBatch (data : bytes) : bytes :=
  Spec.encDynamicSeq
    [Spec.encCalls [ {| Spec.cb_to := Spec.zeroBytes 20;
                        Spec.cb_value := 0;
                        Spec.cb_data := data |} ]].

(** The number a big-endian byte string stands for. *)
Definition beValue (bs : bytes) : Z :=
  fold_left (fun acc b => acc * 256 + Z_of_byte b) bs 0.

(** A call on bytes as the account takes it: a target of 20 bytes, a
    value of 256 bits. *)
Definition wellSized (c : Spec.CallBytes) : Prop :=
  length (Spec.cb_to c) = 20%nat /\ 0 <= Spec.cb_value c < 2 ^ 256.

(** A length below 2^256, as the length of every byte string the
    encoders meet is. *)
Definition small (n : nat) : Prop := Z.of_nat n < 2 ^ 256.

(** No character of [s] is a slash or a question mark. *)
Definition plain (s : string) : bool :=
  forallb Page.notSeparator (list_ascii_of_string s).


End Laws.

(** ** Concrete data: one account, one policy, three owners *)

Module Scenario.
Import Store Chain.

Definition accountA : Hex := "0x00000000000000000000000000000000000000aa".
Definition targetT : Hex := "0x00000000000000000000000000000000000000bb".
Definition multisig : Hex := "0x3232323232323232323232323232323232323232".
Definition salt : Hex := "0x000000000000000000000001".

(** A 32-byte identifier with the given number. *)
Definition word (n : Z) : Hex := "0x" +:+ Hexa.digits 64 n.

Definition policyH : Hex := word 5.
Definition O1 : Hex := word 1.
Definition O2 : Hex := word 2.
Definition O3 : Hex := word 3.
Definition O4 : Hex := word 4.
Definition digestD : Hex := word 99.
Definition tx1 : Hex := word 1000.

(** A wrapped signature of 97 bytes: 96 bytes of [c] and the flag byte. *)
Definition wrappedSig (c : ascii) (flag : string) : Hex :=
  "0x" +:+ string_of_list_ascii (repeat c 192) +:+ flag.

(** The signatures of O1, O2 and of the outsider O4, as the account
    accepts them; O3's is accepted with the flag byte 0x01 only. *)
Definition unwrap (_ _ : Hex) (s : Hex) : option (bool * Hex) :=
  if String.eqb s (wrappedSig "1" "00") then Some (true, O1)
  else if String.eqb s (wrappedSig "2" "00") then Some (true, O2)
  else if String.eqb s (wrappedSig "3" "01") then Some (true, O3)
  else if String.eqb s (wrappedSig "4" "00") then Some (true, O4)
  else if String.eqb s "0x01" then Some (true, O1)
  else Some (false, word 0).

(** The account's nonce for a sequence key: the key in the upper 192
    bits, the sequence's counter below. *)
Definition nonceOf (counter : Z) (seqKey : Z) : Z := seqKey * 2 ^ 64 + counter.

(** A chain with threshold 2 over O1, O2, O3, counter 7 on every
    sequence, and a relayer whose transaction succeeds. *)
Definition chain : Client :=
  {| walletClient := true;
     getConfig := fun _ _ _ => Some (2, [O1; O2; O3]);
     getNonce := fun _ s => Some (nonceOf 7 s);
     computeDigest := fun _ _ _ => Some digestD;
     unwrapAndValidateSignature := unwrap;
     execute := fun _ _ _ => Some tx1;
     waitForTransactionReceipt := fun _ => Some success |}.


(** A chain whose policy contract answers threshold 0 over one owner. *)
Definition chainZeroThreshold : Client :=
  {| walletClient := true;
     getConfig := fun _ _ _ => Some (0, [O1]);
     getNonce := fun _ s => Some (nonceOf 7 s);
     computeDigest := fun _ _ _ => Some digestD;
     unwrapAndValidateSignature := unwrap;
     execute := fun _ _ _ => Some tx1;
     waitForTransactionReceipt := fun _ => Some success |}.

(** A chain on which the broadcast is rejected. *)
Definition chainRejecting : Client :=
  {| walletClient := true;
     getConfig := fun _ _ _ => Some (2, [O1; O2; O3]);
     getNonce := fun _ s => Some (nonceOf 7 s);
     computeDigest := fun _ _ _ => Some digestD;
     unwrapAndValidateSignature := unwrap;
     execute := fun _ _ _ => None;
     waitForTransactionReceipt := fun _ => Some success |}.

Definition transfer : Store.Call :=
  {| call_to := targetT; call_value := 5; call_data := "0x" |}.

Definition body (seqKey : option Z) : Create.Body :=
  {| Create.b_account := accountA;
     Create.b_chainId := 84532;
     Create.b_externalKeyHash := policyH;
     Create.b_seqKey := seqKey;
     Create.b_calls := [transfer];
     Create.b_multisigAddress := multisig |}.

Definition sigO1 : OwnerSig :=
  {| ownerKeyHash := O1; Store.sig := wrappedSig "1" "00"; at_ := 10 |}.
Definition sigO2 : OwnerSig :=
  {| ownerKeyHash := O2; Store.sig := wrappedSig "2" "00"; at_ := 11 |}.

(** The intent of the scenario with the given signatures and status. *)
Definition intent1 (sigs : list OwnerSig) (st : Status) : Intent :=
  {| id := "intent-1"; account := accountA; chainId := 84532;
     externalKeyHash := policyH; seqKey := 0; nonce := 7;
     digest := digestD; calls := [transfer]; threshold := 2;
     owners := [O1; O2; O3]; signatures := sigs; status := st;
     txHash := None |}.

(** The store after creation, and after O1 and O2 signed. *)
Definition db0 : DB := (Create.POST chain ∅ "intent-1" (body None)).1.2.
Definition db1 : DB :=
  (Sign.POST chain db0 "intent-1" (Some (wrappedSig "1" "00")) 10).1.2.
Definition db2 : DB :=
  (Sign.POST chain db1 "intent-1" (Some (wrappedSig "2" "00")) 11).1.2.

(** The store after a rejected broadcast of the ready intent. *)
Definition dbFailed : DB :=
  (Submit.POST (H := Keccak256.keccak) chainRejecting db2 "intent-1").1.2.



(** The bytes of the scenario's hex values. *)
Definition bytesOf (h : Hex) : bytes := default [] (Hexa.parseHex h).

Definition transferBytes : Spec.CallBytes :=
  {| Spec.cb_to := bytesOf targetT; Spec.cb_value := 5;
     Spec.cb_data := [] |}.

End Scenario.

(** ** More concrete data: the scenario after the submission *)

Module Cases.
Import Store Chain.

(** The store after the intent of the scenario was submitted and
    confirmed. *)
Definition dbConfirmed : DB :=
  (Submit.POST (H := Keccak256.keccak) Scenario.chain Scenario.db2
     "intent-1").1.2.

(** The intent of [Scenario.db2] and the one of [dbConfirmed]. *)
Definition intentReady : Intent :=
  Scenario.intent1 [Scenario.sigO1; Scenario.sigO2] collecting.

Definition intentConfirmed : Intent :=
  {| id := "intent-1"; account := Scenario.accountA; chainId := 84532;
     externalKeyHash := Scenario.policyH; seqKey := 0; nonce := 7;
     digest := Scenario.digestD; calls := [Scenario.transfer];
     threshold := 2;
     owners := [Scenario.O1; Scenario.O2; Scenario.O3];
     signatures := [Scenario.sigO1; Scenario.sigO2];
     status := confirmed; txHash := Some Scenario.tx1 |}.

(** A chain whose digest for the calls is another one. *)
Definition chainOtherDigest : Client :=
  {| walletClient := true;
     getConfig := fun _ _ _ => Some (2, [Scenario.O1; Scenario.O2; Scenario.O3]);
     getNonce := fun _ s => Some (Scenario.nonceOf 7 s);
     computeDigest := fun _ _ _ => Some (Scenario.word 98);
     unwrapAndValidateSignature := Scenario.unwrap;
     execute := fun _ _ _ => Some Scenario.tx1;
     waitForTransactionReceipt := fun _ => Some success |}.

(** A chain on which the receipt never comes. *)
Definition chainNoReceipt : Client :=
  {| walletClient := true;
     getConfig := fun _ _ _ => Some (2, [Scenario.O1; Scenario.O2; Scenario.O3]);
     getNonce := fun _ s => Some (Scenario.nonceOf 7 s);
     computeDigest := fun _ _ _ => Some Scenario.digestD;
     unwrapAndValidateSignature := Scenario.unwrap;
     execute := fun _ _ _ => Some Scenario.tx1;
     waitForTransactionReceipt := fun _ => None |}.

(** An intent whose call target is not an address, created and signed
    all the same. *)
Definition badTransfer : Store.Call :=
  {| call_to := "0x12"; call_value := 5; call_data := "0x" |}.

Definition intentBadTarget : Intent :=
  {| id := "intent-2"; account := Scenario.accountA; chainId := 84532;
     externalKeyHash := Scenario.policyH; seqKey := 0; nonce := 7;
     digest := Scenario.digestD; calls := [badTransfer]; threshold := 2;
     owners := [Scenario.O1; Scenario.O2; Scenario.O3];
     signatures := [Scenario.sigO1; Scenario.sigO2];
     status := collecting; txHash := None |}.

Definition dbBadTarget : DB :=
  let body :=
    {| Create.b_account := Scenario.accountA;
       Create.b_chainId := 84532;
       Create.b_externalKeyHash := Scenario.policyH;
       Create.b_seqKey := None;
       Create.b_calls := [badTransfer];
       Create.b_multisigAddress := Scenario.multisig |} in
  let d0 := (Create.POST Scenario.chain ∅ "intent-2" body).1.2 in
  let d1 := (Sign.POST Scenario.chain d0 "intent-2"
               (Some (Scenario.wrappedSig "1" "00")) 10).1.2 in
  (Sign.POST Scenario.chain d1 "intent-2"
     (Some (Scenario.wrappedSig "2" "00")) 11).1.2.

(** Stand-ins for [encodeFunctionData]: a selector followed by some of
    the arguments. *)
Definition encodeAuthorize (key : ExternalKey.Key) : option Hex :=
  Some (Viem.concatHex ["0xcebfe336"; ExternalKey.publicKey key]).

Definition encodeExecute (mode calls : Hex) : option Hex :=
  Some (Viem.concatHex ["0xe9ae5c53"; mode; calls]).

Definition encodeSetCanExecute (keyHash target fnSel : Hex) (can : bool)
  : option Hex :=
  Some (Viem.concatHex ["0x00000001"; keyHash; target; fnSel]).

Definition encodeSetSpendLimit (keyHash token : Hex) (period limit : Z)
  : option Hex :=
  Some (Viem.concatHex ["0x00000002"; keyHash; token]).

Definition encodeInitConfig (keyHash : Hex) (threshold : Z)
    (owners : list Hex) : option Hex :=
  Some (Viem.concatHex ("0x00000003" :: keyHash :: owners)).

(** The call that authorizes the external key of the scenario. *)
Definition authorizeCall : ExternalKey.AuthorizeCall :=
  default {| ExternalKey.to := ""; ExternalKey.data := "";
             ExternalKey.externalKeyHash := "" |}
    (ExternalKey.encodeAuthorizeExternalExecute (H := Keccak256.keccak)
       encodeAuthorize encodeExecute Scenario.accountA Scenario.multisig
       Scenario.salt).

(** The owners of the page: two passkeys. *)
Definition ownerP1 : Page.Owner :=
  {| Page.keyHash := Scenario.O1; Page.label := Some "My Passkey" |}.
Definition ownerP2 : Page.Owner :=
  {| Page.keyHash := Scenario.O2; Page.label := None |}.

(** The batches of the two setup actions of the page, for the account,
    the policy contract and the salt of the scenario. *)
Definition setupCalls : list Page.SentCall :=
  match Page.onSetupExternalKeyBatched (H := Keccak256.keccak)
          encodeAuthorize encodeExecute encodeSetCanExecute
          encodeSetSpendLimit (Some Scenario.accountA)
          (Some Scenario.multisig) Scenario.salt with
  | Page.SendCalls calls => calls
  | _ => []
  end.

Definition completeCalls : list Page.SentCall :=
  match Page.onCompleteMultisigSetup (H := Keccak256.keccak)
          encodeAuthorize encodeExecute encodeInitConfig
          (Some Scenario.accountA) (Some Scenario.multisig) Scenario.policyH
          [ownerP1; ownerP2] (Page.Int 2) (Some (Some (1, 2))) with
  | Page.SendCalls calls => calls
  | _ => []
  end.

End Cases.

(** * The model on concrete data *)

Module Examples.
Import Store Chain.

Example toLowerCase_of_hex : JS.toLowerCase "0xABcd09" = "0xabcd09"%string.
Proof. reflexivity. Qed.

Example flip_of_01 : Sign.flip "0xaa01" = "0xaa00"%string.
Proof. reflexivity. Qed.

Example flip_of_00 : Sign.flip "0xaa00" = "0xaa01"%string.
Proof. reflexivity. Qed.

Example flip_of_ff : Sign.flip "0xaaff" = "0xaa01"%string.
Proof. reflexivity. Qed.

Example Number_rounds_to_even :
  JS.Number (2 ^ 53 + 1) = 2 ^ 53 /\ JS.Number (2 ^ 53 + 3) = 2 ^ 53 + 4.
Proof. split; reflexivity. Qed.

Example concatHex_of_three :
  Viem.concatHex ["0x12"; "0xab"; "0x"]%string = "0x12ab"%string.
Proof. reflexivity. Qed.

Example toHex_of_nonce :
  Viem.toHex 7 32
  = Some "0x0000000000000000000000000000000000000000000000000000000000000007"%string.
Proof. reflexivity. Qed.

(** abi.encode(bytes[]) of the one-element array [0x1234]. *)
Example aggregate_of_one :
  Submit.aggregate ["0x1234"%string]
  = Some ("0x"
          +:+ "0000000000000000000000000000000000000000000000000000000000000020"
          +:+ "0000000000000000000000000000000000000000000000000000000000000001"
          +:+ "0000000000000000000000000000000000000000000000000000000000000020"
          +:+ "0000000000000000000000000000000000000000000000000000000000000002"
          +:+ "1234000000000000000000000000000000000000000000000000000000000000").
Proof. vm_compute. reflexivity. Qed.

(** The scenario of the specification: threshold 2 over three owners;
    O1 signs, O2 signs, the intent is submitted and confirmed. *)
Example scenario_create :
  (Create.POST Scenario.chain ∅ "intent-1" (Scenario.body None)).1.1
  = Create.Created "intent-1" Scenario.digestD 2
      [Scenario.O1; Scenario.O2; Scenario.O3].
Proof. vm_compute. reflexivity. Qed.

Example scenario_first_signature :
  (Sign.POST Scenario.chain Scenario.db0 "intent-1"
     (Some (Scenario.wrappedSig "1" "00")) 10).1.1
  = Sign.Accepted 1 2 false.
Proof. vm_compute. reflexivity. Qed.

Example scenario_second_signature :
  (Sign.POST Scenario.chain Scenario.db1 "intent-1"
     (Some (Scenario.wrappedSig "2" "00")) 11).1.1
  = Sign.Accepted 2 2 true.
Proof. vm_compute. reflexivity. Qed.

Example scenario_submit :
  (Submit.POST (H := Keccak256.keccak) Scenario.chain Scenario.db2
     "intent-1").1.1
  = Submit.Submitted Scenario.tx1 success
  /\ (fun i => (status i, txHash i))
       <$> ((Submit.POST (H := Keccak256.keccak) Scenario.chain Scenario.db2
               "intent-1").1.2 !! "intent-1"%string)
     = Some (confirmed, Some Scenario.tx1).
Proof. vm_compute. split; reflexivity. Qed.

(** With too few signatures nothing is sent. *)
Example scenario_too_early :
  Submit.POST (H := Keccak256.keccak) Scenario.chain Scenario.db1 "intent-1"
  = (Submit.NotEnoughSignatures, Scenario.db1, []).
Proof. vm_compute. reflexivity. Qed.

(** A rejected broadcast leaves the intent in failed, without a hash. *)
Example scenario_rejected_broadcast :
  (Submit.POST (H := Keccak256.keccak) Scenario.chainRejecting Scenario.db2
     "intent-1").1.1 = Submit.SubmitFailed
  /\ Scenario.dbFailed !! "intent-1"%string
     = Some (Scenario.intent1 [Scenario.sigO1; Scenario.sigO2] failed).
Proof. vm_compute. split; reflexivity. Qed.

(** O3's signature validates with the other flag byte only: it is
    accepted, once. *)
Example scenario_flipped_signature :
  (Sign.POST Scenario.chain Scenario.db2 "intent-1"
     (Some (Scenario.wrappedSig "3" "00")) 12).1.1
  = Sign.Accepted 3 2 true
  /\ (Sign.POST Scenario.chain
        (Sign.POST Scenario.chain Scenario.db2 "intent-1"
           (Some (Scenario.wrappedSig "3" "00")) 12).1.2
        "intent-1" (Some (Scenario.wrappedSig "3" "01")) 13).1.1
     = Sign.Duplicate 3 2.
Proof. vm_compute. split; reflexivity. Qed.

End Examples.

(** * Properties *)

(** ** The hash function on known inputs *)

Module KeccakFacts.

Example keccak256_of_empty :
  Viem.bytesToHex (Keccak256.hash [])
  = "0xc5d2460186f7233c927e7db2dcc703c0e500b653ca82273b7bfad8045d85a470"%string.
Proof. vm_compute. reflexivity. Qed.

Example keccak256_of_abc :
  Viem.bytesToHex (Keccak256.hash (Viem.stringToBytes "abc"))
  = "0x4e03657aea45a94fc7d47ba826c8d667c0d1e6e33a64a036ec44f58fa12d6c45"%string.
Proof. vm_compute. reflexivity. Qed.

(** EIP-55's first test address. *)
Example checksum_of_eip55_address :
  Viem.checksumAddress (H := Keccak256.keccak)
    "0x5aaeb6053f3e94c9b9a09f33669435e7ef1beaed"
  = "0x5aAeb6053F3E94C9b9A09f33669435E7Ef1BeAed"%string.
Proof. vm_compute. reflexivity. Qed.

End KeccakFacts.

(** ** The store *)

Module StoreFacts.
Import Store Spec.

Lemma getIntent_setIntent (db : DB) (k k' : string) (p : Patch) :
  getIntent (setIntent db k p) k' =
  if decide (k = k') then (fun now => spread now p) <$> getIntent db k
  else getIntent db k'.
Proof.
  unfold getIntent, setIntent.
  destruct (db !! k) as [now|] eqn:E.
  - rewrite lookup_insert. by case_decide.
  - case_decide; [by subst|done].
Qed.

Lemma lookup_setIntent (db : DB) (k k' : string) (p : Patch) :
  setIntent db k p !! k' =
  if decide (k = k') then (fun now => spread now p) <$> db !! k
  else db !! k'.
Proof. apply getIntent_setIntent. Qed.

Lemma spread_patchSignatures (now : Intent) (s : list OwnerSig) :
  signatures now = s -> spread now (patchSignatures s) = now.
Proof. intros <-. by destruct now. Qed.

Lemma keyed_empty : keyed ∅.
Proof. intros k i E. by rewrite lookup_empty in E. Qed.

Lemma keyed_insert (db : DB) (i : Intent) :
  keyed db -> keyed (<[id i := i]> db).
Proof.
  intros K k j. rewrite lookup_insert. case_decide.
  - intros [= <-]. done.
  - apply K.
Qed.

Lemma keyed_setIntent (db : DB) (k : string) (p : Patch) :
  p_id p = None -> keyed db -> keyed (setIntent db k p).
Proof.
  intros Ep K k' j E. fold (getIntent (setIntent db k p) k') in E.
  rewrite getIntent_setIntent in E. case_decide.
  - subst k'. destruct (getIntent db k) as [now|] eqn:En; [|done].
    injection E as <-. simpl. rewrite Ep. simpl. by apply K.
  - by apply K.
Qed.

End StoreFacts.

(** ** Intent creation *)

Module CreateFacts.
Import Store Chain Create Spec StoreFacts.

Lemma POST_created (c : Client) (db db' : DB) (uuid : string) (body : Body)
    (k : string) (dg : Hex) (t : Z) (os : list Hex) (tr : list Chain.Call) :
  POST c db uuid body = (Created k dg t os, db', tr) ->
  exists t0 os0 n,
    getConfig c (b_multisigAddress body) (b_account body)
              (b_externalKeyHash body) = Some (t0, os0)
    /\ os0 <> []
    /\ getNonce c (b_account body) (default 0 (b_seqKey body)) = Some n
    /\ computeDigest c (b_account body) (b_calls body) n = Some dg
    /\ k = uuid /\ t = JS.Number t0 /\ os = os0
    /\ db' = <[uuid := created uuid body t0 os0 n dg]> db
    /\ tr = [CallGetConfig (b_multisigAddress body) (b_account body)
               (b_externalKeyHash body);
             CallGetNonce (b_account body) (default 0 (b_seqKey body));
             CallComputeDigest (b_account body) (b_calls body) n].
Proof.
  unfold POST. intros E.
  destruct (getConfig c _ _ _) as [[t0 os0]|] eqn:Ec; [|discriminate].
  destruct os0 as [|o os0]; [discriminate|]. simpl in E.
  destruct (getNonce c _ _) as [n|] eqn:En; [|discriminate].
  destruct (computeDigest c _ _ _) as [d|] eqn:Ed; [|discriminate].
  simpl in E. simplify_eq.
  exists t0, (o :: os0), n. repeat split; done.
Qed.

Lemma Number_exact (b : Z) : Z.abs b < 2 ^ 53 -> JS.Number b = b.
Proof.
  intros Hb. unfold JS.Number.
  destruct (Z.ltb_spec (Z.abs b) (2 ^ 53)); [done | lia].
Qed.

Lemma create_keyed (c : Client) (db : DB) (uuid : string) (body : Body) :
  keyed db -> keyed (POST c db uuid body).1.2.
Proof.
  intros K. unfold POST.
  destruct (getConfig c _ _ _) as [[t0 os0]|]; [|done].
  destruct (_ =? _)%nat; [done|].
  destruct (getNonce c _ _) as [n|]; [|done].
  destruct (computeDigest c _ _ _) as [d|]; [|done].
  simpl. by apply (keyed_insert db (created uuid body t0 os0 n d)).
Qed.

(** C2, amended.  The intent that create-intent stores carries the
    threshold the policy-config read returned (as a JavaScript number) and
    the returned owner list, unchecked but for the list being non-empty:
    for a returned threshold below 2^53 the stored threshold lies in
    [1, |owners|] exactly when the returned pair does. *)
Theorem create_threshold_is_snapshot (c : Client) (db db' : DB)
    (uuid : string) (body : Body) (k : string) (dg : Hex) (t : Z)
    (os : list Hex) (tr : list Chain.Call) :
  POST c db uuid body = (Created k dg t os, db', tr) ->
  exists t0 os0 i,
    getConfig c (b_multisigAddress body) (b_account body)
              (b_externalKeyHash body) = Some (t0, os0)
    /\ os0 <> []
    /\ db' !! k = Some i
    /\ threshold i = JS.Number t0 /\ owners i = os0
    /\ t = threshold i /\ os = owners i
    /\ (0 <= t0 < 2 ^ 53 ->
        threshold i = t0
        /\ (thresholdInRange i <-> 1 <= t0 <= Z.of_nat (length os0))).
Proof.
  intros E. apply POST_created in E as (t0 & os0 & n & Ec & Hne & _ & _ & -> & -> & -> & -> & _).
  exists t0, os0, (created uuid body t0 os0 n dg).
  rewrite lookup_insert_eq. do 7 (split; [done|]).
  intros Ht. unfold thresholdInRange. simpl.
  rewrite Number_exact by lia. done.
Qed.

Lemma create_threshold_is_snapshot_witness :
  exists t0 os0 i,
    getConfig Scenario.chain Scenario.multisig Scenario.accountA
              Scenario.policyH = Some (t0, os0)
    /\ os0 <> []
    /\ Scenario.db0 !! "intent-1"%string = Some i
    /\ threshold i = JS.Number t0 /\ owners i = os0
    /\ 2 = threshold i /\ [Scenario.O1; Scenario.O2; Scenario.O3] = owners i
    /\ (0 <= t0 < 2 ^ 53 ->
        threshold i = t0
        /\ (thresholdInRange i <-> 1 <= t0 <= Z.of_nat (length os0))).
Proof.
  apply (create_threshold_is_snapshot Scenario.chain ∅ Scenario.db0
           "intent-1" (Scenario.body None) "intent-1" Scenario.digestD 2
           [Scenario.O1; Scenario.O2; Scenario.O3]
           [CallGetConfig Scenario.multisig Scenario.accountA Scenario.policyH;
            CallGetNonce Scenario.accountA 0;
            CallComputeDigest Scenario.accountA [Scenario.transfer] 7]).
  vm_compute. reflexivity.
Defined.

(** C2 as stated fails: a policy contract that answers threshold 0 over
    one owner passes the only check of create-intent, and the intent is
    stored with threshold 0. *)
Lemma create_stores_threshold_zero :
  exists i,
    (POST Scenario.chainZeroThreshold ∅ "intent-0" (Scenario.body None)).1.2
      !! "intent-0"%string = Some i
    /\ owners i = [Scenario.O1]
    /\ threshold i = 0
    /\ ~ thresholdInRange i.
Proof.
  eexists. split; [vm_compute; reflexivity|].
  repeat split. unfold thresholdInRange. simpl. lia.
Qed.

End CreateFacts.

(** ** Signature collection *)

Module SignFacts.
Import Store Chain Sign Spec StoreFacts.

Lemma tryOnce_sig (c : Client) (a d s : Hex) : sig (tryOnce c a d s) = s.
Proof. unfold tryOnce. by destruct (unwrapAndValidateSignature c a d s) as [[??]|]. Qed.

Lemma tryOnce_ok (c : Client) (a d s : Hex) :
  ok (tryOnce c a d s) = true <->
  unwrapAndValidateSignature c a d s = Some (true, ownerKh (tryOnce c a d s)).
Proof.
  unfold tryOnce.
  destruct (unwrapAndValidateSignature c a d s) as [[[] o]|]; simpl; split;
    congruence.
Qed.

Lemma tryOnce_accepts (c : Client) (a d s o : Hex) :
  unwrapAndValidateSignature c a d s = Some (true, o) ->
  ok (tryOnce c a d s) = true /\ ownerKh (tryOnce c a d s) = o.
Proof. intros E. unfold tryOnce. by rewrite E. Qed.

(** [validateWrappedSignature] by cases. *)
Lemma validate_cases (c : Client) (a d w : Hex) :
  validateWrappedSignature c a d w =
  if ok (tryOnce c a d w) then (tryOnce c a d w, [CallUnwrap a d w])
  else if retriable (JS.toLowerCase w) then
    (if ok (tryOnce c a d (flip (JS.toLowerCase w)))
     then tryOnce c a d (flip (JS.toLowerCase w)) else tryOnce c a d w,
     [CallUnwrap a d w; CallUnwrap a d (flip (JS.toLowerCase w))])
  else (tryOnce c a d w, [CallUnwrap a d w]).
Proof.
  unfold validateWrappedSignature, retriable.
  destruct (ok (tryOnce c a d w)); [done|].
  destruct (negb _ || _); simpl; [done|].
  by destruct (ok (tryOnce c a d (flip (JS.toLowerCase w)))).
Qed.

(** What an accepted validation returns was accepted by the account. *)
Lemma validate_sound (c : Client) (a d w : Hex) :
  let res := (validateWrappedSignature c a d w).1 in
  ok res = true ->
  unwrapAndValidateSignature c a d (sig res) = Some (true, ownerKh res)
  /\ In (CallUnwrap a d (sig res)) (validateWrappedSignature c a d w).2
  /\ (if ok (tryOnce c a d w) then sig res = w
      else sig res = flip (JS.toLowerCase w)).
Proof.
  rewrite validate_cases.
  destruct (ok (tryOnce c a d w)) eqn:E1; simpl.
  - intros _. rewrite tryOnce_sig.
    split; [by apply tryOnce_ok | split; [by left | done]].
  - destruct (retriable _); simpl; [|congruence].
    destruct (ok (tryOnce c a d (flip _))) eqn:E2; [|congruence].
    intros _. rewrite tryOnce_sig.
    split; [by apply tryOnce_ok | split; [by right; left | done]].
Qed.

(** An attempt of the run that the account accepts is the result. *)
Lemma validate_complete (c : Client) (a d w a' d' s o : Hex) :
  In (CallUnwrap a' d' s) (validateWrappedSignature c a d w).2 ->
  unwrapAndValidateSignature c a' d' s = Some (true, o) ->
  let res := (validateWrappedSignature c a d w).1 in
  ok res = true /\ ownerKh res = o.
Proof.
  rewrite validate_cases.
  destruct (ok (tryOnce c a d w)) eqn:E1; simpl.
  - intros [[= <- <- <-]|[]] Ho. by apply tryOnce_accepts.
  - destruct (retriable _); simpl.
    + intros [[= <- <- <-]|[[= <- <- <-]|[]]] Ho.
      * apply tryOnce_accepts in Ho as [Hok _]. congruence.
      * apply tryOnce_accepts in Ho as [Hok Hown]. by rewrite Hok.
    + intros [[= <- <- <-]|[]] Ho.
      apply tryOnce_accepts in Ho as [Hok _]. congruence.
Qed.

Lemma validate_trace_args (c : Client) (a d w a' d' s : Hex) :
  In (CallUnwrap a' d' s) (validateWrappedSignature c a d w).2 ->
  a' = a /\ d' = d.
Proof.
  rewrite validate_cases.
  destruct (ok _); [|destruct (retriable _)]; simpl; intros Hin;
    repeat (destruct Hin as [Hin|Hin]); try done; by injection Hin.
Qed.

(** The run of [POST] up to the validation. *)
Lemma POST_reaches_validation (c : Client) (db : DB) (k : string)
    (i : Intent) (wrapped : Hex) (now : Z) :
  db !! k = Some i -> wrapped <> ""%string -> digestOk c i = true ->
  POST c db k (Some wrapped) now =
  let checked := (validateWrappedSignature c (account i) (digest i) wrapped).1 in
  let t := CallComputeDigest (account i) (calls i) (nonce i)
           :: (validateWrappedSignature c (account i) (digest i) wrapped).2 in
  if negb (ok checked) then (InvalidSignature, db, t)
  else if negb (isOwner i (ownerKh checked)) then (SignerNotAuthorized, db, t)
  else if hasSigned i (ownerKh checked)
  then (Duplicate (length (signatures i)) (threshold i), db, t)
  else
    let i' := push i {| ownerKeyHash := ownerKh checked;
                        Store.sig := sig checked; at_ := now |} in
    (Accepted (length (signatures i')) (threshold i')
       (threshold i' <=? Z.of_nat (length (signatures i'))),
     setIntent (<[k := i']> db) (id i') (patchSignatures (signatures i')), t).
Proof.
  intros Ei Hw Hd. unfold POST, getIntent. rewrite Ei.
  destruct (String.eqb_spec wrapped ""); [done|].
  unfold digestOk in Hd. rewrite Hd. simpl.
  by destruct (validateWrappedSignature c (account i) (digest i) wrapped).
Qed.

(** A validation attempt in the trace: the run reached the validation. *)
Lemma POST_unwrap_inv (c : Client) (db : DB) (k : string) (w : option Hex)
    (now : Z) (a d s : Hex) :
  In (CallUnwrap a d s) (POST c db k w now).2 ->
  exists i wrapped,
    db !! k = Some i /\ w = Some wrapped /\ wrapped <> ""%string
    /\ digestOk c i = true /\ a = account i /\ d = digest i
    /\ In (CallUnwrap a d s)
          (validateWrappedSignature c (account i) (digest i) wrapped).2.
Proof.
  intros Hin.
  destruct (db !! k) as [i|] eqn:Ei; [|by unfold POST, getIntent in Hin; rewrite Ei in Hin].
  destruct w as [wrapped|]; [|by unfold POST, getIntent in Hin; rewrite Ei in Hin].
  destruct (String.eqb_spec wrapped "") as [->|Hw];
    [by unfold POST, getIntent in Hin; rewrite Ei in Hin|].
  destruct (digestOk c i) eqn:Hd.
  - rewrite (POST_reaches_validation c db k i wrapped now Ei Hw Hd) in Hin.
    assert (In (CallUnwrap a d s)
              (CallComputeDigest (account i) (calls i) (nonce i)
               :: (validateWrappedSignature c (account i) (digest i) wrapped).2))
      as [Hbad|Hin'].
    { revert Hin. simpl. repeat case_match; simpl; tauto. }
    { discriminate. }
    destruct (validate_trace_args _ _ _ _ _ _ _ Hin') as [-> ->].
    exists i, wrapped. repeat split; done.
  - exfalso. unfold POST, getIntent in Hin. rewrite Ei in Hin.
    destruct (String.eqb_spec wrapped ""); [done|].
    unfold digestOk in Hd. rewrite Hd in Hin. simpl in Hin.
    by destruct Hin as [Hin|[]].
Qed.

Lemma sameHex_refl (a : Hex) : sameHex a a = true.
Proof. unfold sameHex. apply String.eqb_refl. Qed.

Lemma isOwner_spec (i : Intent) (o : Hex) :
  isOwner i o = true <->
  exists own, In own (owners i) /\ JS.toLowerCase own = JS.toLowerCase o.
Proof.
  unfold isOwner, sameHex. rewrite existsb_exists.
  split; intros (own & Hin & E); exists own; split; try done;
    by apply String.eqb_eq.
Qed.

Lemma hasSigned_spec (i : Intent) (o : Hex) :
  hasSigned i o = true <->
  exists st, In st (signatures i)
             /\ JS.toLowerCase (ownerKeyHash st) = JS.toLowerCase o.
Proof.
  unfold hasSigned, sameHex. rewrite existsb_exists.
  split; intros (st & Hin & E); exists st; split; try done;
    by apply String.eqb_eq.
Qed.

Lemma hasSigned_push (i : Intent) (s : OwnerSig) (o : Hex) :
  hasSigned (push i s) o = hasSigned i o || sameHex (ownerKeyHash s) o.
Proof.
  unfold hasSigned. simpl. rewrite existsb_app. simpl. by rewrite orb_false_r.
Qed.

(** After the push and the patch, the entry under [k] is the pushed
    intent, whichever entry the patch went to. *)
Lemma lookup_after_push (db : DB) (k : string) (i' : Intent) :
  setIntent (<[k := i']> db) (id i') (patchSignatures (signatures i')) !! k
  = Some i'.
Proof.
  change (getIntent (setIntent (<[k := i']> db) (id i')
                       (patchSignatures (signatures i'))) k = Some i').
  rewrite getIntent_setIntent. unfold getIntent. case_decide as E.
  - rewrite E, lookup_insert_eq. simpl. f_equal.
    by apply spread_patchSignatures.
  - by rewrite lookup_insert_eq.
Qed.

(** In a keyed store the push and the patch are one update. *)
Lemma push_then_patch_keyed (db : DB) (k : string) (i' : Intent) :
  id i' = k ->
  setIntent (<[k := i']> db) (id i') (patchSignatures (signatures i'))
  = <[k := i']> db.
Proof.
  intros ->. unfold setIntent. rewrite lookup_insert_eq.
  rewrite spread_patchSignatures by done. by rewrite insert_insert_eq.
Qed.

(** What an accepting run did. *)
Lemma POST_accepted_inv (c : Client) (db db' : DB) (k : string)
    (w : option Hex) (now : Z) (n : nat) (M : Z) (r : bool)
    (t : list Chain.Call) :
  POST c db k w now = (Accepted n M r, db', t) ->
  exists i wrapped,
    db !! k = Some i /\ w = Some wrapped /\ wrapped <> ""%string
    /\ digestOk c i = true
    /\ let checked :=
         (validateWrappedSignature c (account i) (digest i) wrapped).1 in
       let i' := push i {| ownerKeyHash := ownerKh checked;
                           Store.sig := sig checked; at_ := now |} in
       ok checked = true
       /\ isOwner i (ownerKh checked) = true
       /\ hasSigned i (ownerKh checked) = false
       /\ n = length (signatures i') /\ M = threshold i
       /\ r = (threshold i <=? Z.of_nat (length (signatures i')))
       /\ db' = setIntent (<[k := i']> db) (id i')
                  (patchSignatures (signatures i'))
       /\ t = CallComputeDigest (account i) (calls i) (nonce i)
              :: (validateWrappedSignature c (account i) (digest i) wrapped).2.
Proof.
  intros E.
  destruct (db !! k) as [i|] eqn:Ei;
    [|by unfold POST, getIntent in E; rewrite Ei in E].
  destruct w as [wrapped|];
    [|by unfold POST, getIntent in E; rewrite Ei in E].
  destruct (String.eqb_spec wrapped "") as [->|Hw];
    [by unfold POST, getIntent in E; rewrite Ei in E|].
  destruct (digestOk c i) eqn:Hd.
  - rewrite (POST_reaches_validation c db k i wrapped now Ei Hw Hd) in E.
    simpl in E.
    destruct (ok _) eqn:E1; simpl in E; [|discriminate].
    destruct (isOwner i _) eqn:E2; simpl in E; [|discriminate].
    destruct (hasSigned i _) eqn:E3; simpl in E; [discriminate|].
    injection E as <- <- <- <- <-.
    exists i, wrapped. repeat split; done.
  - exfalso. unfold POST, getIntent in E. rewrite Ei in E.
    destruct (String.eqb_spec wrapped ""); [done|].
    unfold digestOk in Hd. rewrite Hd in E. discriminate.
Qed.

(** A run either leaves the store alone or accepts a signature. *)
Lemma POST_store_cases (c : Client) (db : DB) (k : string) (w : option Hex)
    (now : Z) :
  (POST c db k w now).1.2 = db
  \/ exists n M r, (POST c db k w now).1.1 = Accepted n M r.
Proof.
  destruct (db !! k) as [i|] eqn:Ei;
    [|by left; unfold POST, getIntent; rewrite Ei].
  destruct w as [wrapped|];
    [|by left; unfold POST, getIntent; rewrite Ei].
  destruct (String.eqb_spec wrapped "") as [->|Hw];
    [by left; unfold POST, getIntent; rewrite Ei|].
  destruct (digestOk c i) eqn:Hd.
  - rewrite (POST_reaches_validation c db k i wrapped now Ei Hw Hd). simpl.
    destruct (ok _); simpl; [|by left].
    destruct (isOwner i _); simpl; [|by left].
    destruct (hasSigned i _); simpl; [by left|]. right. eauto.
  - left. unfold POST, getIntent. rewrite Ei.
    destruct (String.eqb_spec wrapped ""); [done|].
    unfold digestOk in Hd. by rewrite Hd.
Qed.

End SignFacts.

(** ** Claims on submit-signature *)

Module SignClaims.
Import Store Chain Sign Spec StoreFacts SignFacts.

(** C3, amended.  Validation is first attempted on the signature as
    received.  When that attempt is invalid, a retry happens exactly when
    the lower-cased hex string starts with 0x and has at least 196
    characters; it is a single retry, on the lower-cased string whose last
    byte is replaced by 00 if it was 01 and by 01 otherwise.  A shorter
    signature is not retried.  When no attempt of a run validates,
    submit-signature answers invalid-signature and the store is
    unchanged. *)
Theorem validation_attempts (c : Client) (db : DB) (k : string)
    (wrapped : Hex) (now : Z) (a d : Hex) :
  let hex := JS.toLowerCase wrapped in
  (validateWrappedSignature c a d wrapped).2 =
    (if ok (tryOnce c a d wrapped) then [CallUnwrap a d wrapped]
     else if retriable hex
          then [CallUnwrap a d wrapped; CallUnwrap a d (flip hex)]
          else [CallUnwrap a d wrapped])
  /\ (retriable hex = true <->
      JS.startsWith "0x" hex = true /\ (196 <= String.length hex)%nat)
  /\ flip hex =
       JS.slice_init 2 hex
       +:+ (if String.eqb (JS.slice_last 2 hex) "01" then "00" else "01")
  /\ ((exists a' d' s,
         In (CallUnwrap a' d' s) (POST c db k (Some wrapped) now).2) ->
      (forall a' d' s o,
         In (CallUnwrap a' d' s) (POST c db k (Some wrapped) now).2 ->
         unwrapAndValidateSignature c a' d' s <> Some (true, o)) ->
      (POST c db k (Some wrapped) now).1 = (InvalidSignature, db)).
Proof.
  intros hex. split; [|split; [|split]].
  - rewrite validate_cases. subst hex.
    destruct (ok _); [done|]. destruct (retriable _); [|done].
    by destruct (ok _).
  - unfold retriable. destruct (JS.startsWith "0x" hex); simpl.
    + destruct (Nat.ltb_spec (String.length hex) 196);
        simpl.
      * split; [done | intros [_ ?]; lia].
      * split; [intros _; split; [done | lia] | done].
    + split; [done | by intros [? _]].
  - done.
  - intros (a' & d' & s & Hin) Hnone.
    destruct (POST_unwrap_inv _ _ _ _ _ _ _ _ Hin)
      as (i & w' & Ei & [= <-] & Hw & Hd & -> & -> & Hin').
    destruct (ok (validateWrappedSignature c (account i) (digest i) wrapped).1)
      eqn:Hok.
    + exfalso.
      destruct (validate_sound c (account i) (digest i) wrapped Hok)
        as (Hv & Hin2 & _).
      eapply Hnone; [|exact Hv].
      rewrite (POST_reaches_validation c db k i wrapped now Ei Hw Hd).
      simpl. rewrite Hok. simpl.
      repeat case_match; simpl; by right.
    + rewrite (POST_reaches_validation c db k i wrapped now Ei Hw Hd).
      simpl. by rewrite Hok.
Qed.

Lemma validation_attempts_witness :
  (Sign.validateWrappedSignature Scenario.chain Scenario.accountA
     Scenario.digestD (Scenario.wrappedSig "9" "00")).2
  = [CallUnwrap Scenario.accountA Scenario.digestD
       (Scenario.wrappedSig "9" "00");
     CallUnwrap Scenario.accountA Scenario.digestD
       (Scenario.wrappedSig "9" "01")]
  /\ (POST Scenario.chain Scenario.db0 "intent-1"
        (Some (Scenario.wrappedSig "9" "00")) 10).1
     = (InvalidSignature, Scenario.db0).
Proof.
  destruct (validation_attempts Scenario.chain Scenario.db0 "intent-1"
              (Scenario.wrappedSig "9" "00") 10 Scenario.accountA
              Scenario.digestD) as (T & _ & _ & R).
  split.
  - rewrite T. vm_compute. reflexivity.
  - apply R.
    + exists Scenario.accountA, Scenario.digestD,
        (Scenario.wrappedSig "9" "00").
      vm_compute. right. left. reflexivity.
    + intros a' d' s o Hin. vm_compute in Hin.
      destruct Hin as [Hin|[Hin|[Hin|[]]]]; [discriminate| |];
        injection Hin as <- <- <-; vm_compute; discriminate.
Defined.

(** C3 as stated fails: a one-byte signature whose first attempt is
    invalid is not retried, although the account accepts its toggled
    variant; the request is rejected. *)
Lemma short_signature_is_not_retried :
  ok (tryOnce Scenario.chain Scenario.accountA Scenario.digestD "0x00") = false
  /\ unwrapAndValidateSignature Scenario.chain Scenario.accountA
       Scenario.digestD "0x01" = Some (true, Scenario.O1)
  /\ (validateWrappedSignature Scenario.chain Scenario.accountA
        Scenario.digestD "0x00").2
     = [CallUnwrap Scenario.accountA Scenario.digestD "0x00"]
  /\ (POST Scenario.chain Scenario.db0 "intent-1" (Some "0x00"%string) 10).1
     = (InvalidSignature, Scenario.db0).
Proof. vm_compute. repeat split. Qed.

(** C6.  A signature that the account validates in the run, for an owner
    identifier that is none of the intent's owners (identifiers compared
    up to the case of their digits, as the route does), is answered with
    signer-not-authorized, and the store, hence the signatures of the
    intent and their number, is unchanged, whatever is stored already. *)
Theorem non_owner_signature_rejected (c : Client) (db : DB) (k : string)
    (w : option Hex) (now : Z) (a d s o : Hex) :
  In (CallUnwrap a d s) (POST c db k w now).2 ->
  unwrapAndValidateSignature c a d s = Some (true, o) ->
  (forall i own, db !! k = Some i -> In own (owners i) ->
     JS.toLowerCase own <> JS.toLowerCase o) ->
  (POST c db k w now).1 = (SignerNotAuthorized, db).
Proof.
  intros Hin Hv Hnot.
  destruct (POST_unwrap_inv _ _ _ _ _ _ _ _ Hin)
    as (i & wrapped & Ei & -> & Hw & Hd & -> & -> & Hin').
  destruct (validate_complete _ _ _ _ _ _ _ _ Hin' Hv) as [Hok Ho].
  rewrite (POST_reaches_validation c db k i wrapped now Ei Hw Hd).
  simpl. rewrite Hok, Ho. simpl.
  destruct (isOwner i o) eqn:Hio; [|done].
  apply isOwner_spec in Hio as (own & Hown & E).
  by destruct (Hnot i own Ei Hown).
Qed.

Lemma non_owner_signature_rejected_witness :
  (POST Scenario.chain Scenario.db2 "intent-1"
        (Some (Scenario.wrappedSig "4" "00")) 12).1
  = (SignerNotAuthorized, Scenario.db2).
Proof.
  apply (non_owner_signature_rejected Scenario.chain Scenario.db2 "intent-1"
           (Some (Scenario.wrappedSig "4" "00")) 12
           Scenario.accountA Scenario.digestD (Scenario.wrappedSig "4" "00")
           Scenario.O4).
  - vm_compute. right. left. reflexivity.
  - vm_compute. reflexivity.
  - intros i own Ei Hown.
    assert (i = Scenario.intent1 [Scenario.sigO1; Scenario.sigO2] collecting) as ->.
    { vm_compute in Ei. injection Ei as <-. vm_compute. reflexivity. }
    simpl in Hown.
    destruct Hown as [<-|[<-|[<-|[]]]]; vm_compute; discriminate.
Defined.

(** C7.  A signature that the account validates for an owner who is
    already stored on the intent is answered with success and the current
    number of stored signatures, and the store is unchanged.  So the same
    wrapped signature, submitted again after it was accepted, is answered
    with the collected-count that the first answer reported as long as the
    intent's collection is as that acceptance left it (right after it, or
    after operations that add no signature to the intent); once further
    signatures have been stored on the intent, it is answered with the
    first count plus their number. *)
Theorem repeated_signature_is_idempotent (c : Client) (db : DB) (k : string)
    (w : option Hex) (now : Z) :
  (forall i a d s o,
     db !! k = Some i ->
     In (CallUnwrap a d s) (POST c db k w now).2 ->
     unwrapAndValidateSignature c a d s = Some (true, o) ->
     (exists own, In own (owners i)
                  /\ JS.toLowerCase own = JS.toLowerCase o) ->
     (exists st, In st (signatures i)
                 /\ JS.toLowerCase (ownerKeyHash st) = JS.toLowerCase o) ->
     (POST c db k w now).1
     = (Duplicate (length (signatures i)) (threshold i), db))
  /\ (forall n M r db1 t,
        POST c db k w now = (Accepted n M r, db1, t) ->
        (forall now', (POST c db1 k w now').1 = (Duplicate n M, db1))
        /\ (forall db2 i1 i2 now',
              db1 !! k = Some i1 -> db2 !! k = Some i2 ->
              sameCollection i1 i2 ->
              (POST c db2 k w now').1 = (Duplicate n M, db2))
        /\ (forall db2 i1 i2 more now',
              db1 !! k = Some i1 -> db2 !! k = Some i2 ->
              account i1 = account i2 -> digest i1 = digest i2 ->
              calls i1 = calls i2 -> nonce i1 = nonce i2 ->
              owners i1 = owners i2 -> threshold i1 = threshold i2 ->
              signatures i2 = signatures i1 ++ more ->
              (POST c db2 k w now').1
              = (Duplicate (n + length more) M, db2))).
Proof.
  split.
  - intros i a d s o Ei Hin Hv Hio%isOwner_spec Hsig%hasSigned_spec.
    destruct (POST_unwrap_inv _ _ _ _ _ _ _ _ Hin)
      as (i' & wrapped & Ei' & -> & Hw & Hd & -> & -> & Hin').
    assert (i' = i) as -> by congruence.
    destruct (validate_complete _ _ _ _ _ _ _ _ Hin' Hv) as [Hok Ho].
    rewrite (POST_reaches_validation c db k i wrapped now Ei Hw Hd).
    simpl. by rewrite Hok, Ho, Hio, Hsig.
  - intros n M r db1 t E.
    apply POST_accepted_inv in E
      as (i & wrapped & Ei & -> & Hw & Hd & Hok & Hio & Hns & -> & -> & _ & -> & _).
    set (i' := push i _).
    assert (setIntent (<[k := i']> db) (id i')
              (patchSignatures (signatures i')) !! k = Some i') as Ei'
      by apply lookup_after_push.
    assert (forall db2 i2 more now',
              db2 !! k = Some i2 ->
              account i' = account i2 -> digest i' = digest i2 ->
              calls i' = calls i2 -> nonce i' = nonce i2 ->
              owners i' = owners i2 -> threshold i' = threshold i2 ->
              signatures i2 = signatures i' ++ more ->
              (POST c db2 k (Some wrapped) now').1
              = (Duplicate (length (signatures i') + length more)
                   (threshold i), db2)) as G.
    { intros db2 i2 more now' Ei2 Ea Eg Ec En Eo Et Es.
      assert (digestOk c i2 = true) as Hd2.
      { unfold digestOk. rewrite <- Ea, <- Eg, <- Ec, <- En. exact Hd. }
      rewrite (POST_reaches_validation c db2 k i2 wrapped now' Ei2 Hw Hd2).
      rewrite <- Ea, <- Eg, <- Et.
      change (account i') with (account i). change (digest i') with (digest i).
      cbv zeta. rewrite Hok. cbn [negb].
      unfold isOwner, hasSigned. rewrite <- Eo, Es.
      fold (isOwner i' (ownerKh (validateWrappedSignature c (account i)
                                   (digest i) wrapped).1)).
      change (isOwner i' ?o) with (isOwner i o). rewrite Hio. cbn [negb].
      rewrite existsb_app.
      fold (hasSigned i' (ownerKh (validateWrappedSignature c (account i)
                                     (digest i) wrapped).1)).
      unfold i' at 1. rewrite hasSigned_push. cbn [ownerKeyHash].
      rewrite sameHex_refl, orb_true_r. cbn [orb].
      by rewrite length_app. }
    split; [|split].
    + intros now'. rewrite (G _ i' [] now' Ei'); try done.
      * cbn [length]. by rewrite Nat.add_0_r.
      * by rewrite app_nil_r.
    + intros db2 i1 i2 now' E1 E2 (Ea & Eg & Ec & En & Eo & Et & Es).
      assert (i1 = i') as -> by congruence.
      rewrite (G db2 i2 [] now' E2); try done.
      * cbn [length]. by rewrite Nat.add_0_r.
      * by rewrite app_nil_r.
    + intros db2 i1 i2 more now' E1 E2 Ea Eg Ec En Eo Et Es.
      assert (i1 = i') as -> by congruence.
      by apply (G db2 i2 more now' E2).
Qed.

Lemma repeated_signature_is_idempotent_witness :
  (POST Scenario.chain Scenario.db2 "intent-1"
        (Some (Scenario.wrappedSig "1" "00")) 12).1
  = (Duplicate 2 2, Scenario.db2)
  /\ (POST Scenario.chain Scenario.db1 "intent-1"
        (Some (Scenario.wrappedSig "1" "00")) 12).1
     = (Duplicate 1 2, Scenario.db1)
  /\ (POST Scenario.chain Scenario.db2 "intent-1"
        (Some (Scenario.wrappedSig "1" "00")) 12).1
     = (Duplicate (1 + length [Scenario.sigO2]) 2, Scenario.db2).
Proof.
  split; [|split].
  - refine (proj1 (repeated_signature_is_idempotent Scenario.chain Scenario.db2
                     "intent-1" (Some (Scenario.wrappedSig "1" "00")) 12)
              (Scenario.intent1 [Scenario.sigO1; Scenario.sigO2] collecting)
              Scenario.accountA Scenario.digestD
              (Scenario.wrappedSig "1" "00") Scenario.O1 _ _ _ _ _).
    + vm_compute. reflexivity.
    + vm_compute. right. left. reflexivity.
    + vm_compute. reflexivity.
    + exists Scenario.O1. split; [by left | reflexivity].
    + exists Scenario.sigO1. split; [by left | reflexivity].
  - refine (proj1 (proj2 (repeated_signature_is_idempotent Scenario.chain
                            Scenario.db0 "intent-1"
                            (Some (Scenario.wrappedSig "1" "00")) 10)
                     1%nat 2 false Scenario.db1
                     [CallComputeDigest Scenario.accountA [Scenario.transfer] 7;
                      CallUnwrap Scenario.accountA Scenario.digestD
                        (Scenario.wrappedSig "1" "00")] _) 12).
    vm_compute. reflexivity.
  - refine (proj2 (proj2 (proj2 (repeated_signature_is_idempotent
                                   Scenario.chain Scenario.db0 "intent-1"
                                   (Some (Scenario.wrappedSig "1" "00")) 10)
                            1%nat 2 false Scenario.db1
                            [CallComputeDigest Scenario.accountA
                               [Scenario.transfer] 7;
                             CallUnwrap Scenario.accountA Scenario.digestD
                               (Scenario.wrappedSig "1" "00")] _))
              Scenario.db2
              (Scenario.intent1 [Scenario.sigO1] collecting)
              (Scenario.intent1 [Scenario.sigO1; Scenario.sigO2] collecting)
              [Scenario.sigO2] 12 _ _ _ _ _ _ _ _ _);
      vm_compute; reflexivity.
Defined.

(** C7 as stated fails: the count answered to a repeated signature is the
    current number of stored signatures, not the count of its first
    acceptance.  O1 signs and is answered with count 1; O2 signs; O1's
    signature, submitted again, is answered with count 2, and the store
    is unchanged. *)
Lemma repeated_signature_reports_the_current_count :
  POST Scenario.chain Scenario.db0 "intent-1"
    (Some (Scenario.wrappedSig "1" "00")) 10
  = (Accepted 1 2 false, Scenario.db1,
     [CallComputeDigest Scenario.accountA [Scenario.transfer] 7;
      CallUnwrap Scenario.accountA Scenario.digestD
        (Scenario.wrappedSig "1" "00")])
  /\ (POST Scenario.chain Scenario.db1 "intent-1"
        (Some (Scenario.wrappedSig "2" "00")) 11).1
     = (Accepted 2 2 true, Scenario.db2)
  /\ (POST Scenario.chain Scenario.db2 "intent-1"
        (Some (Scenario.wrappedSig "1" "00")) 12).1
     = (Duplicate 2 2, Scenario.db2).
Proof. vm_compute. repeat split. Qed.

End SignClaims.

(** ** Submission *)

Module SubmitFacts.
Import Store Chain Submit Spec StoreFacts.

Section WithKeccak.
Context `{Keccak}.

(** The run of [POST] once the payload is encoded. *)
Lemma POST_encoded (c : Client) (db : DB) (k : string) (i : Intent)
    (e : Hex) :
  db !! k = Some i -> walletClient c = true ->
  threshold i <= Z.of_nat (length (signatures i)) ->
  executionData i = Some e ->
  POST c db k =
  match getNonce c (account i) 0 with
  | None => (Threw, db, [CallGetNonce (account i) 0])
  | Some currentNonce =>
      if negb (nonce i =? currentNonce)
      then (NonceMismatch (nonce i) currentNonce, db,
            [CallGetNonce (account i) 0])
      else
        match execute c (account i) MODE_SINGLE_WITH_OPDATA e with
        | None =>
            (SubmitFailed, setIntent db (id i) (patchStatus failed),
             [CallGetNonce (account i) 0;
              CallExecute (account i) MODE_SINGLE_WITH_OPDATA e])
        | Some hash =>
            match waitForTransactionReceipt c hash with
            | None =>
                (SubmitFailed,
                 setIntent (setIntent db (id i) (patchStatusTx submitted hash))
                   (id i) (patchStatus failed),
                 [CallGetNonce (account i) 0;
                  CallExecute (account i) MODE_SINGLE_WITH_OPDATA e;
                  CallWaitReceipt hash])
            | Some receipt =>
                (Submitted hash receipt,
                 setIntent (setIntent db (id i) (patchStatusTx submitted hash))
                   (id i)
                   (patchStatus match receipt with
                                | success => confirmed
                                | reverted => failed
                                end),
                 [CallGetNonce (account i) 0;
                  CallExecute (account i) MODE_SINGLE_WITH_OPDATA e;
                  CallWaitReceipt hash])
            end
        end
  end.
Proof.
  intros Ei Hw Ht He. unfold POST, getIntent. rewrite Ei, Hw, He. simpl.
  destruct (Z.ltb_spec (Z.of_nat (length (signatures i))) (threshold i));
    [lia|].
  reflexivity.
Qed.

(** A chain call in the trace: the payload was encoded. *)
Lemma POST_call_inv (c : Client) (db : DB) (k : string) (call : Chain.Call) :
  In call (POST c db k).2 ->
  exists i e,
    db !! k = Some i /\ walletClient c = true
    /\ threshold i <= Z.of_nat (length (signatures i))
    /\ executionData i = Some e.
Proof.
  unfold POST, getIntent. intros Hin.
  destruct (db !! k) as [i|] eqn:Ei; [|done].
  destruct (walletClient c) eqn:Hw; [|done]. simpl in Hin.
  destruct (Z.ltb_spec (Z.of_nat (length (signatures i))) (threshold i));
    [done|].
  destruct (executionData i) as [e|] eqn:He; [|done].
  exists i, e. split; [done|]. split; [done|]. split; [lia|done].
Qed.

(** The trace of a run is a prefix of nonce read, broadcast, wait. *)
Lemma POST_trace_shape (c : Client) (db : DB) (k : string) :
  (POST c db k).2 = []
  \/ exists i e,
       db !! k = Some i /\ executionData i = Some e
       /\ ((POST c db k).2 = [CallGetNonce (account i) 0]
           \/ (POST c db k).2 =
                [CallGetNonce (account i) 0;
                 CallExecute (account i) MODE_SINGLE_WITH_OPDATA e]
           \/ exists hash,
                (POST c db k).2 =
                  [CallGetNonce (account i) 0;
                   CallExecute (account i) MODE_SINGLE_WITH_OPDATA e;
                   CallWaitReceipt hash]).
Proof.
  destruct (POST c db k).2 as [|call t] eqn:Et; [by left|]. right.
  destruct (POST_call_inv c db k call) as (i & e & Ei & Hw & Ht & He).
  { rewrite Et. by left. }
  exists i, e. split; [done|]. split; [done|].
  rewrite <- Et, (POST_encoded c db k i e Ei Hw Ht He).
  destruct (getNonce c (account i) 0) as [cur|]; [|by left].
  destruct (negb _); [by left|].
  destruct (execute c _ _ _) as [hash|]; [|by right; left].
  destruct (waitForTransactionReceipt c hash); right; right; by exists hash.
Qed.

(** The store after a run: untouched, or the status of the submitted
    intent set to a final one. *)
Lemma POST_store_shape (c : Client) (db : DB) (k : string) :
  (existsb isExecute (POST c db k).2 = false /\ (POST c db k).1.2 = db)
  \/ exists i s,
       db !! k = Some i /\ terminal s
       /\ existsb isExecute (POST c db k).2 = true
       /\ ((POST c db k).1.2 = setIntent db (id i) (patchStatus s)
           \/ exists hash,
                (POST c db k).1.2 =
                  setIntent (setIntent db (id i) (patchStatusTx submitted hash))
                    (id i) (patchStatus s)).
Proof.
  destruct (POST c db k).2 as [|call t] eqn:Et.
  - left. split; [done|]. revert Et. unfold POST, getIntent.
    repeat case_match; simpl; try done.
    all: by destruct (_ : list Chain.Call).
  - destruct (POST_call_inv c db k call) as (i & e & Ei & Hw & Ht & He).
    { rewrite Et. by left. }
    rewrite <- Et. clear Et. rewrite (POST_encoded c db k i e Ei Hw Ht He).
    destruct (getNonce c (account i) 0) as [cur|]; [|by left].
    destruct (negb _); [by left|].
    right. destruct (execute c _ _ _) as [hash|].
    + destruct (waitForTransactionReceipt c hash) as [[]|]; simpl.
      * exists i, confirmed. split; [done|]. split; [by left|].
        split; [done|]. right. eauto.
      * exists i, failed. split; [done|]. split; [by right|].
        split; [done|]. right. eauto.
      * exists i, failed. split; [done|]. split; [by right|].
        split; [done|]. right. eauto.
    + exists i, failed. split; [done|]. split; [by right|].
      split; [done|]. by left.
Qed.



(** The entry of the submitted intent after a run, by the answer. *)
Lemma POST_outcome (c : Client) (db : DB) (k : string) (i : Intent) :
  db !! k = Some i -> id i = k ->
  exists i',
    (POST c db k).1.2 !! k = Some i'
    /\ match (POST c db k).1.1 with
       | Submitted hash success =>
           status i' = confirmed /\ txHash i' = Some hash
       | Submitted hash reverted =>
           status i' = failed /\ txHash i' = Some hash
       | SubmitFailed => status i' = failed
       | _ => i' = i
       end.
Proof.
  intros Ei Ek.
  destruct (walletClient c) eqn:Hw;
    [|exists i; unfold POST, getIntent; by rewrite Ei, Hw].
  destruct (Z.ltb_spec (Z.of_nat (length (signatures i))) (threshold i))
    as [Hlt|Ht].
  { exists i. unfold POST, getIntent. rewrite Ei, Hw. simpl.
    by destruct (Z.ltb_spec (Z.of_nat (length (signatures i))) (threshold i));
      [|lia]. }
  destruct (executionData i) as [e|] eqn:He.
  - rewrite (POST_encoded c db k i e Ei Hw Ht He), Ek.
    destruct (getNonce c (account i) 0) as [cur|]; [|by exists i].
    destruct (negb _); [by exists i|].
    destruct (execute c _ _ _) as [hash|].
    + destruct (waitForTransactionReceipt c hash) as [[]|]; simpl;
        rewrite !lookup_setIntent, !decide_True, Ei by done; simpl;
        by eexists.
    + simpl. rewrite lookup_setIntent, decide_True, Ei by done. simpl.
      by eexists.
  - exists i. unfold POST, getIntent. rewrite Ei, Hw, He. simpl.
    by destruct (Z.ltb_spec (Z.of_nat (length (signatures i))) (threshold i));
      [lia|].
Qed.

End WithKeccak.

End SubmitFacts.

(** ** Claims on the state machine and on submit-intent *)

Module SubmitClaims.
Import Store Chain Spec StoreFacts.

(** submit-signature changes no status. *)
Lemma sign_preserves_status (c : Client) (db : DB) (k' : string)
    (w : option Hex) (now : Z) (k : string) :
  status <$> ((Sign.POST c db k' w now).1.2 !! k) = status <$> (db !! k).
Proof.
  destruct (SignFacts.POST_store_cases c db k' w now) as [->|(n & M & r & E)];
    [done|].
  destruct (Sign.POST c db k' w now) as [[r0 db'] t] eqn:EP.
  simpl in E. subst r0. simpl.
  apply SignFacts.POST_accepted_inv in EP
    as (i & wrapped & Ei & _ & _ & _ & _ & _ & _ & _ & _ & _ & -> & _).
  set (i' := Sign.push i _).
  rewrite lookup_setIntent.
  case_decide; rewrite lookup_insert; case_decide; subst;
    rewrite ?Ei; simpl; try done;
    subst i'; simpl; by destruct (db !! id i).
Qed.

Section WithKeccak.
Context `{Keccak}.

(** C1, amended.  For an intent in confirmed or failed: submit-signature
    leaves its status as it is, and so does a submit-intent that stops
    before the broadcast (it leaves the whole store as it is).  The
    submission route does not look at the status: a submit-intent of that
    intent that reaches the broadcast sets the status again, to confirmed
    when the transaction succeeds and to failed when it reverts or the
    send or the wait throws.  So after every operation the status is still
    one of confirmed and failed, but not necessarily the same one. *)
Theorem terminal_status_stays_terminal (c : Client) (db : DB) (k : string)
    (i : Intent) :
  db !! k = Some i -> terminal (status i) ->
  (forall k' w now,
     status <$> ((Sign.POST c db k' w now).1.2 !! k) = Some (status i))
  /\ (forall k',
        exists i',
          (Submit.POST c db k').1.2 !! k = Some i'
          /\ terminal (status i')
          /\ (existsb isExecute (Submit.POST c db k').2 = false -> i' = i))
  /\ (id i = k ->
      exists i',
        (Submit.POST c db k).1.2 !! k = Some i'
        /\ match (Submit.POST c db k).1.1 with
           | Submit.Submitted hash success =>
               status i' = confirmed /\ txHash i' = Some hash
           | Submit.Submitted hash reverted =>
               status i' = failed /\ txHash i' = Some hash
           | Submit.SubmitFailed => status i' = failed
           | _ => i' = i
           end).
Proof.
  intros Ei Ht. split; [|split; [|by apply SubmitFacts.POST_outcome]].
  - intros k' w now. by rewrite sign_preserves_status, Ei.
  - intros k'.
    destruct (SubmitFacts.POST_store_shape c db k')
      as [[Hno ->]|(j & s & Ej & Hs & Hex & [->|[hash ->]])].
    + by exists i.
    + rewrite lookup_setIntent. case_decide as E.
      * rewrite E, Ei. simpl. eexists. split; [done|]. split; [done|].
        congruence.
      * exists i. split; [done|]. split; [done|]. congruence.
    + rewrite !lookup_setIntent. case_decide as E.
      * case_decide; [|done]. rewrite E, Ei. simpl.
        eexists. split; [done|]. split; [done|]. congruence.
      * exists i. split; [done|]. split; [done|]. congruence.
Qed.



End WithKeccak.

Lemma terminal_status_stays_terminal_witness :
  (forall k' w now,
     status <$> ((Sign.POST Scenario.chain Scenario.dbFailed k' w now).1.2
                   !! "intent-1"%string) = Some failed)
  /\ (forall k',
        exists i',
          (Submit.POST (H := Keccak256.keccak) Scenario.chain
             Scenario.dbFailed k').1.2 !! "intent-1"%string = Some i'
          /\ terminal (status i')
          /\ (existsb isExecute
                (Submit.POST (H := Keccak256.keccak) Scenario.chain
                   Scenario.dbFailed k').2 = false ->
              i' = Scenario.intent1 [Scenario.sigO1; Scenario.sigO2] failed)).
Proof.
  destruct (terminal_status_stays_terminal (H := Keccak256.keccak)
              Scenario.chain Scenario.dbFailed "intent-1"
              (Scenario.intent1 [Scenario.sigO1; Scenario.sigO2] failed))
    as (S1 & S2 & _).
  - vm_compute. reflexivity.
  - right. reflexivity.
  - by split.
Defined.



(** C1 as stated fails: the intent whose broadcast was rejected is in
    failed; submitted again on a chain that takes the transaction, it is
    broadcast and ends in confirmed. *)
Lemma failed_intent_is_submitted_again :
  status <$> (Scenario.dbFailed !! "intent-1"%string) = Some failed
  /\ (Submit.POST (H := Keccak256.keccak) Scenario.chain Scenario.dbFailed
        "intent-1").1.1
     = Submit.Submitted Scenario.tx1 success
  /\ status <$> ((Submit.POST (H := Keccak256.keccak) Scenario.chain
                    Scenario.dbFailed "intent-1").1.2 !! "intent-1"%string)
     = Some confirmed.
Proof. vm_compute. repeat split. Qed.

End SubmitClaims.

(** ** What is stored was validated *)

Module Invariants.
Import Store Chain Spec StoreFacts.

Lemma validated_setIntent (v : Hex -> Hex -> Hex -> option (bool * Hex))
    (db : DB) (k : string) (p : Patch) :
  p_signatures p = None -> p_account p = None -> p_digest p = None ->
  validated v db -> validated v (setIntent db k p).
Proof.
  intros Es Ea Ed V k0 i0 s0. rewrite lookup_setIntent. case_decide.
  - subst k0. destruct (db !! k) as [now|] eqn:En; [|done].
    simpl. intros [= <-]. simpl. rewrite Es, Ea, Ed. simpl. by apply (V k).
  - apply V.
Qed.

Lemma sign_keyed (c : Client) (db : DB) (k : string) (w : option Hex)
    (now : Z) :
  keyed db -> keyed (Sign.POST c db k w now).1.2.
Proof.
  intros K.
  destruct (SignFacts.POST_store_cases c db k w now) as [->|(n & M & r & E)];
    [done|].
  destruct (Sign.POST c db k w now) as [[r0 db'] t] eqn:EP.
  simpl in E. subst r0. simpl.
  apply SignFacts.POST_accepted_inv in EP
    as (i & wrapped & Ei & _ & _ & _ & _ & _ & _ & _ & _ & _ & -> & _).
  apply keyed_setIntent; [done|].
  rewrite <- (K k i Ei) at 1.
  by apply (keyed_insert db (Sign.push i _)).
Qed.

Lemma sign_validated (c : Client) (db : DB) (k : string) (w : option Hex)
    (now : Z) :
  keyed db -> validated (unwrapAndValidateSignature c) db ->
  validated (unwrapAndValidateSignature c) (Sign.POST c db k w now).1.2.
Proof.
  intros K V.
  destruct (SignFacts.POST_store_cases c db k w now) as [->|(n & M & r & E)];
    [done|].
  destruct (Sign.POST c db k w now) as [[r0 db'] t] eqn:EP.
  simpl in E. subst r0. simpl.
  apply SignFacts.POST_accepted_inv in EP
    as (i & wrapped & Ei & _ & _ & _ & Hok & _ & _ & _ & _ & _ & -> & _).
  rewrite SignFacts.push_then_patch_keyed by apply (K k i Ei).
  intros k0 i0 s0. rewrite lookup_insert. case_decide.
  - intros [= <-]. simpl. rewrite in_app_iff. intros [Hin|[<-|[]]].
    + by apply (V k).
    + simpl. by apply SignFacts.validate_sound.
  - apply V.
Qed.

Section WithKeccak.
Context `{Keccak}.

Lemma submit_keyed (c : Client) (db : DB) (k : string) :
  keyed db -> keyed (Submit.POST c db k).1.2.
Proof.
  intros K.
  destruct (SubmitFacts.POST_store_shape c db k)
    as [[_ ->]|(j & s & _ & _ & _ & [->|[hash ->]])];
    [done|..]; repeat apply keyed_setIntent; done.
Qed.

Lemma submit_validated (v : Hex -> Hex -> Hex -> option (bool * Hex))
    (c : Client) (db : DB) (k : string) :
  validated v db -> validated v (Submit.POST c db k).1.2.
Proof.
  intros V.
  destruct (SubmitFacts.POST_store_shape c db k)
    as [[_ ->]|(j & s & _ & _ & _ & [->|[hash ->]])];
    [done|..]; repeat apply validated_setIntent; done.
Qed.

Lemma create_validated (v : Hex -> Hex -> Hex -> option (bool * Hex))
    (c : Client) (db : DB) (uuid : string) (body : Create.Body) :
  validated v db -> validated v (Create.POST c db uuid body).1.2.
Proof.
  intros V. unfold Create.POST.
  destruct (getConfig c _ _ _) as [[t0 os0]|]; [|done].
  destruct (_ =? _)%nat; [done|].
  destruct (getNonce c _ _) as [n|]; [|done].
  destruct (computeDigest c _ _ _) as [d|]; [|done].
  simpl. intros k0 i0 s0. rewrite lookup_insert. case_decide.
  - by intros [= <-].
  - apply V.
Qed.

Lemma reachable_keyed (v : Hex -> Hex -> Hex -> option (bool * Hex))
    (db : DB) :
  reachable v db -> keyed db.
Proof.
  induction 1.
  - apply keyed_empty.
  - by apply CreateFacts.create_keyed.
  - by apply sign_keyed.
  - by apply submit_keyed.
Qed.

(** C10.  When a wrapped signature is accepted after its first attempt
    failed, what is stored on the intent, and read back for the
    aggregation at submission, is the lower-cased variant with the
    flipped flag byte, which differs from what was submitted; in both
    cases the stored bytes are those the account validated, for the owner
    they are stored under.  So in every store the routes can produce,
    every stored signature is one the account's verification entry point
    accepted. *)
Theorem stored_signature_is_the_validated_one :
  (forall c db k wrapped now n M r db' t,
     Sign.POST c db k (Some wrapped) now = (Sign.Accepted n M r, db', t) ->
     exists i s,
       db !! k = Some i
       /\ db' !! k = Some (Sign.push i s)
       /\ unwrapAndValidateSignature c (account i) (digest i) (Store.sig s)
          = Some (true, ownerKeyHash s)
       /\ (if Sign.ok (Sign.tryOnce c (account i) (digest i) wrapped)
           then Store.sig s = wrapped
           else Store.sig s = Sign.flip (JS.toLowerCase wrapped)
                /\ Store.sig s <> wrapped)
       /\ map Store.sig (signatures (Sign.push i s))
          = map Store.sig (signatures i) ++ [Store.sig s])
  /\ (forall v db, reachable v db -> validated v db).
Proof.
  split.
  - intros c db k wrapped now n M r db' t E.
    apply SignFacts.POST_accepted_inv in E
      as (i & w & Ei & [= <-] & _ & _ & Hok & _ & _ & _ & _ & _ & -> & _).
    destruct (SignFacts.validate_sound c (account i) (digest i) wrapped Hok)
      as (Hv & _ & Hsig).
    eexists i, _. split; [done|]. split; [apply SignFacts.lookup_after_push|].
    simpl. split; [done|]. split.
    + destruct (Sign.ok (Sign.tryOnce c (account i) (digest i) wrapped))
        eqn:E1; [done|].
      split; [done|]. rewrite Hsig. intros Eq.
      rewrite Hsig, Eq in Hv.
      apply SignFacts.tryOnce_accepts in Hv as [Hv _]. congruence.
    + by rewrite map_app.
  - intros v db R. induction R as [|c db uuid body R IH|c db k w now <- R IH|c db k R IH].
    + intros k i s E. by rewrite lookup_empty in E.
    + by apply create_validated.
    + apply sign_validated; [by eapply reachable_keyed|done].
    + by apply submit_validated.
Qed.

End WithKeccak.

Lemma stored_signature_is_the_validated_one_witness :
  exists i s,
    Scenario.db2 !! "intent-1"%string = Some i
    /\ (Sign.POST Scenario.chain Scenario.db2 "intent-1"
          (Some (Scenario.wrappedSig "3" "00")) 12).1.2 !! "intent-1"%string
       = Some (Sign.push i s)
    /\ unwrapAndValidateSignature Scenario.chain (account i) (digest i)
         (Store.sig s) = Some (true, ownerKeyHash s)
    /\ (if Sign.ok (Sign.tryOnce Scenario.chain (account i) (digest i)
                      (Scenario.wrappedSig "3" "00"))
        then Store.sig s = Scenario.wrappedSig "3" "00"
        else Store.sig s
             = Sign.flip (JS.toLowerCase (Scenario.wrappedSig "3" "00"))
             /\ Store.sig s <> Scenario.wrappedSig "3" "00")
    /\ map Store.sig (signatures (Sign.push i s))
       = map Store.sig (signatures i) ++ [Store.sig s].
Proof.
  apply (proj1 (stored_signature_is_the_validated_one (H := Keccak256.keccak))
           Scenario.chain Scenario.db2 "intent-1"
           (Scenario.wrappedSig "3" "00") 12 3%nat 2 true _
           [CallComputeDigest Scenario.accountA [Scenario.transfer] 7;
            CallUnwrap Scenario.accountA Scenario.digestD
              (Scenario.wrappedSig "3" "00");
            CallUnwrap Scenario.accountA Scenario.digestD
              (Scenario.wrappedSig "3" "01")]).
  vm_compute. reflexivity.
Defined.

End Invariants.

(** ** Hex strings and the bytes they denote *)

Module HexFacts.
Import Hexa Viem Spec.

Lemma append_cons (c : ascii) (s1 s2 : string) :
  String c s1 +:+ s2 = String c (s1 +:+ s2).
Proof. reflexivity. Qed.

Lemma append_empty_l (s : string) : "" +:+ s = s.
Proof. reflexivity. Qed.

Lemma length_append (s1 s2 : string) :
  String.length (s1 +:+ s2) = (String.length s1 + String.length s2)%nat.
Proof.
  induction s1 as [|c s1 IH]; [done|]. rewrite append_cons. simpl. by f_equal.
Qed.

Lemma append_assoc (s1 s2 s3 : string) :
  (s1 +:+ s2) +:+ s3 = s1 +:+ (s2 +:+ s3).
Proof.
  induction s1 as [|c s1 IH]; [done|]. rewrite !append_cons. by f_equal.
Qed.

Lemma append_empty_r (s : string) : s +:+ "" = s.
Proof.
  induction s as [|c s IH]; [done|]. rewrite append_cons. by f_equal.
Qed.



Lemma digitValue_lower (c : ascii) :
  digitValue (JS.lower_ascii c) = digitValue c.
Proof. by destruct c as [[] [] [] [] [] [] [] []]. Qed.

Lemma digitValue_hexDigit (d : Z) :
  0 <= d < 16 -> digitValue (hexDigit d) = Some d.
Proof.
  intros Hd.
  assert (d = 0 \/ d = 1 \/ d = 2 \/ d = 3 \/ d = 4 \/ d = 5 \/ d = 6
          \/ d = 7 \/ d = 8 \/ d = 9 \/ d = 10 \/ d = 11 \/ d = 12
          \/ d = 13 \/ d = 14 \/ d = 15) as Hc by lia.
  repeat (destruct Hc as [->|Hc]; [reflexivity|]). by subst.
Qed.

Lemma Z_of_byte_range (b : byte) : 0 <= Z_of_byte b < 256.
Proof.
  unfold Z_of_byte. pose proof (Byte.to_N_bounded b). lia.
Qed.

Lemma byte_of_Z_of_byte (b : byte) : byte_of_Z (Z_of_byte b) = b.
Proof.
  unfold byte_of_Z. rewrite Z.mod_small by apply Z_of_byte_range.
  unfold Z_of_byte. by rewrite N2Z.id, Byte.of_to_N.
Qed.

Lemma nibbles (x : Z) : 16 * ((x / 16) mod 16) + x mod 16 = x mod 256.
Proof. change 256 with (16 * 16). rewrite Z.rem_mul_r by lia. lia. Qed.

(** *** Parsing digits *)

Lemma parseDigits_inv (s : string) (bs : bytes) :
  parseDigits s = Some bs ->
  match bs with
  | [] => s = ""%string
  | b :: r =>
      exists c d s' h l,
        s = String c (String d s')
        /\ digitValue c = Some h /\ digitValue d = Some l
        /\ b = byte_of_Z (16 * h + l) /\ parseDigits s' = Some r
  end.
Proof.
  destruct s as [|c [|d s']]; simpl; [by intros [= <-] | done |].
  destruct (digitValue c) as [h|] eqn:Ec; [|done].
  destruct (digitValue d) as [l|] eqn:Ed; [|done].
  destruct (parseDigits s') as [r|] eqn:Er; [|done].
  intros [= <-]. by exists c, d, s', h, l.
Qed.

Lemma parseDigits_app (s1 s2 : string) (b1 b2 : bytes) :
  parseDigits s1 = Some b1 -> parseDigits s2 = Some b2 ->
  parseDigits (s1 +:+ s2) = Some (b1 ++ b2).
Proof.
  revert s1. induction b1 as [|b r IH]; intros s1 E1 E2.
  - apply parseDigits_inv in E1 as ->. done.
  - apply parseDigits_inv in E1 as (c & d & s' & h & l & -> & Ec & Ed & -> & Er).
    rewrite !append_cons. cbn [parseDigits].
    by rewrite Ec, Ed, (IH s' Er E2).
Qed.

Lemma parseDigits_length (s : string) (bs : bytes) :
  parseDigits s = Some bs -> String.length s = (2 * length bs)%nat.
Proof.
  revert s. induction bs as [|b r IH]; intros s E.
  - apply parseDigits_inv in E as ->. done.
  - apply parseDigits_inv in E as (c & d & s' & h & l & -> & _ & _ & _ & Er).
    simpl. rewrite (IH s' Er). lia.
Qed.

Lemma parseDigits_lower (s : string) :
  parseDigits (JS.toLowerCase s) = parseDigits s.
Proof.
  revert s. fix IH 1. intros [|c [|d s']]; simpl; [done | done |].
  by rewrite !digitValue_lower, IH.
Qed.

Lemma parseDigits_zeros (n : nat) :
  parseDigits (JS.zeros (2 * n)) = Some (zeroBytes n).
Proof.
  induction n as [|n IH]; [done|].
  replace (2 * S n)%nat with (S (S (2 * n))) by lia.
  cbn [JS.zeros parseDigits]. rewrite IH. done.
Qed.

Lemma parseDigits_byteHex (b : byte) :
  parseDigits (byteHex b) = Some [b].
Proof.
  unfold byteHex. cbn [parseDigits].
  pose proof (Z_of_byte_range b) as Hb.
  rewrite !digitValue_hexDigit.
  - rewrite <- (byte_of_Z_of_byte b) at 3. do 3 f_equal.
    rewrite <- (Z.mod_small (Z_of_byte b) 256) at 3 by done.
    rewrite <- nibbles.
    rewrite (Z.mod_small (Z_of_byte b / 16) 16); [done|].
    split; [apply Z.div_pos; lia | apply Z.div_lt_upper_bound; lia].
  - apply Z.mod_pos_bound. lia.
  - split; [apply Z.div_pos; lia | apply Z.div_lt_upper_bound; lia].
Qed.

Lemma parseDigits_printDigits (bs : bytes) :
  parseDigits (printDigits bs) = Some bs.
Proof.
  induction bs as [|b r IH]; [done|]. cbn [printDigits].
  by apply (parseDigits_app _ _ [b] r); [apply parseDigits_byteHex|].
Qed.

Lemma digits_SS (m : nat) (v : Z) :
  digits (S (S m)) v =
  String (hexDigit ((v / 16 ^ (Z.of_nat m + 1)) mod 16))
    (String (hexDigit ((v / 16 ^ Z.of_nat m) mod 16)) (digits m v)).
Proof.
  cbn [digits]. by rewrite Nat2Z.inj_succ, <- Z.add_1_r.
Qed.

Lemma length_digits (n : nat) (v : Z) : String.length (digits n v) = n.
Proof. induction n as [|n IH]; simpl; [done | by f_equal]. Qed.

(** The fixed-width digits of a number denote its big-endian bytes. *)
Lemma parseDigits_digits (n : nat) (v : Z) :
  parseDigits (digits (2 * n) v) = Some (beBytes n v).
Proof.
  induction n as [|n IH]; [done|].
  replace (2 * S n)%nat with (S (S (2 * n))) by lia.
  rewrite digits_SS. cbn [parseDigits beBytes].
  rewrite !digitValue_hexDigit by (apply Z.mod_pos_bound; lia).
  rewrite IH. do 3 f_equal.
  assert (16 ^ Z.of_nat (2 * n) = 256 ^ Z.of_nat n) as E16.
  { rewrite Nat2Z.inj_mul, Z.pow_mul_r by lia. done. }
  rewrite Z.pow_add_r, Z.pow_1_r by lia. rewrite E16.
  rewrite <- Z.div_div by lia. apply nibbles.
Qed.

(** *** Hex values *)

Lemma denotes_inv (h : Hex) (b : bytes) :
  denotes h b ->
  exists r, h = String "0" (String "x" r) /\ parseDigits r = Some b.
Proof.
  unfold denotes, parseHex. destruct h as [|c [|d r]]; [done | done |].
  destruct (Ascii.eqb_spec c "0") as [->|]; [|done].
  destruct (Ascii.eqb_spec d "x") as [->|]; [|done].
  simpl. intros E. by exists r.
Qed.

Lemma denotes_intro (r : string) (b : bytes) :
  parseDigits r = Some b -> denotes ("0x" +:+ r) b.
Proof. done. Qed.

Lemma denotes_length (h : Hex) (b : bytes) :
  denotes h b -> String.length h = (2 + 2 * length b)%nat.
Proof.
  intros (r & -> & E)%denotes_inv. simpl.
  by rewrite (parseDigits_length r b E).
Qed.

Lemma denotes_startsWith (h : Hex) (b : bytes) :
  denotes h b -> JS.startsWith "0x" h = true.
Proof. intros (r & -> & E)%denotes_inv. by destruct r. Qed.

Lemma denotes_replace_0x (h : Hex) (b : bytes) :
  denotes h b -> parseDigits (JS.replace_0x h) = Some b.
Proof. by intros (r & -> & E)%denotes_inv. Qed.

Lemma denotes_lower (h : Hex) (b : bytes) :
  denotes h b -> denotes (JS.toLowerCase h) b.
Proof.
  intros (r & -> & E)%denotes_inv.
  change (parseDigits (JS.toLowerCase r) = Some b).
  by rewrite parseDigits_lower.
Qed.

Lemma denotes_bytesToHex (bs : bytes) : denotes (bytesToHex bs) bs.
Proof. apply denotes_intro, parseDigits_printDigits. Qed.

Lemma denotes_size (h : Hex) (b : bytes) :
  denotes h b -> size h = length b.
Proof.
  intros D. unfold size. rewrite (denotes_startsWith h b D).
  rewrite (denotes_length h b D).
  replace (2 + 2 * length b - 2 + 1)%nat with (1 + length b * 2)%nat by lia.
  rewrite Nat.div_add by lia. done.
Qed.

Lemma denotes_hexToBytes (h : Hex) (b : bytes) :
  denotes h b -> hexToBytes h = Some b.
Proof.
  intros (r & -> & E)%denotes_inv. unfold hexToBytes.
  cbn [String.length]. replace (S (S (String.length r)) - 2)%nat
    with (String.length r) by lia.
  change (substring 2 (String.length r) (String "0" (String "x" r)))
    with (substring 0 (String.length r) r).
  assert (substring 0 (String.length r) r = r) as ->.
  { clear. induction r as [|c r IH]; simpl; [done | by rewrite IH]. }
  rewrite (parseDigits_length r b E).
  by rewrite Nat.odd_mul, andb_false_l.
Qed.

(** [concatHex] denotes the concatenation. *)
Lemma parseDigits_fold (l : list Hex) (bs : list bytes) (acc : string)
    (bacc : bytes) :
  parseDigits acc = Some bacc -> Forall2 denotes l bs ->
  parseDigits (fold_left (fun acc x => acc +:+ JS.replace_0x x) l acc)
  = Some (bacc ++ concat bs).
Proof.
  intros Ea F. revert acc bacc Ea.
  induction F as [|h b l bs D F IH]; intros acc bacc Ea; simpl.
  - by rewrite app_nil_r.
  - rewrite app_assoc. apply IH.
    apply parseDigits_app; [done | by apply denotes_replace_0x].
Qed.

Lemma denotes_concatHex (l : list Hex) (bs : list bytes) :
  Forall2 denotes l bs -> denotes (concatHex l) (concat bs).
Proof.
  intros F. apply denotes_intro.
  by apply (parseDigits_fold l bs "" []).
Qed.

Lemma denotes_concat2 (h1 h2 : Hex) (b1 b2 : bytes) :
  denotes h1 b1 -> denotes h2 b2 -> denotes (concatHex [h1; h2]) (b1 ++ b2).
Proof.
  intros D1 D2.
  pose proof (denotes_concatHex [h1; h2] [b1; b2]) as D.
  simpl in D. rewrite app_nil_r in D. apply D. by repeat constructor.
Qed.

Lemma denotes_concat3 (h1 h2 h3 : Hex) (b1 b2 b3 : bytes) :
  denotes h1 b1 -> denotes h2 b2 -> denotes h3 b3 ->
  denotes (concatHex [h1; h2; h3]) (b1 ++ b2 ++ b3).
Proof.
  intros D1 D2 D3.
  pose proof (denotes_concatHex [h1; h2; h3] [b1; b2; b3]) as D.
  simpl in D. rewrite app_nil_r in D. apply D. by repeat constructor.
Qed.

Lemma denotes_concat4 (h1 h2 h3 h4 : Hex) (b1 b2 b3 b4 : bytes) :
  denotes h1 b1 -> denotes h2 b2 -> denotes h3 b3 -> denotes h4 b4 ->
  denotes (concatHex [h1; h2; h3; h4]) (b1 ++ b2 ++ b3 ++ b4).
Proof.
  intros D1 D2 D3 D4.
  pose proof (denotes_concatHex [h1; h2; h3; h4] [b1; b2; b3; b4]) as D.
  simpl in D. rewrite app_nil_r in D. apply D. by repeat constructor.
Qed.

Lemma denotes_hexWord (n : nat) : denotes (hexWord n) (word32 (Z.of_nat n)).
Proof. apply denotes_intro, (parseDigits_digits 32). Qed.

Lemma denotes_numberToHex (v : Z) :
  0 <= v < 2 ^ 256 ->
  exists h, numberToHex v 32 = Some h /\ denotes h (word32 v).
Proof.
  intros Hv. unfold numberToHex.
  destruct (Z.ltb_spec v 0); [lia|].
  destruct (Z.ltb_spec (2 ^ (8 * Z.of_nat 32) - 1) v) as [Hlt|_].
  { change (2 ^ (8 * Z.of_nat 32)) with (2 ^ 256) in Hlt. lia. }
  simpl orb. eexists. split; [done|].
  apply denotes_intro, (parseDigits_digits 32).
Qed.

Lemma length_beBytes (n : nat) (v : Z) : length (beBytes n v) = n.
Proof. induction n as [|n IH]; simpl; [done | by f_equal]. Qed.

Lemma length_word32 (v : Z) : length (word32 v) = 32%nat.
Proof. apply length_beBytes. Qed.

Lemma length_zeroBytes (n : nat) : length (zeroBytes n) = n.
Proof. apply repeat_length. Qed.

(** Padding on the right and on the left. *)
Lemma denotes_padHex_right (h : Hex) (b : bytes) (sz : nat) :
  denotes h b -> (length b <= sz)%nat ->
  exists h', padHex dirRight h sz = Some h'
             /\ denotes h' (b ++ zeroBytes (sz - length b)).
Proof.
  intros D Hl. unfold padHex.
  pose proof (denotes_replace_0x h b D) as E.
  rewrite (parseDigits_length _ _ E).
  destruct (Nat.ltb_spec (sz * 2) (2 * length b)); [lia|].
  eexists. split; [done|]. apply denotes_intro. unfold JS.padEnd0.
  apply parseDigits_app; [done|].
  rewrite (parseDigits_length _ _ E).
  replace (sz * 2 - 2 * length b)%nat with (2 * (sz - length b))%nat by lia.
  apply parseDigits_zeros.
Qed.

Lemma denotes_padHex_left (h : Hex) (b : bytes) (sz : nat) :
  denotes h b -> (length b <= sz)%nat ->
  exists h', padHex dirLeft h sz = Some h'
             /\ denotes h' (zeroBytes (sz - length b) ++ b).
Proof.
  intros D Hl. unfold padHex.
  pose proof (denotes_replace_0x h b D) as E.
  rewrite (parseDigits_length _ _ E).
  destruct (Nat.ltb_spec (sz * 2) (2 * length b)); [lia|].
  eexists. split; [done|]. apply denotes_intro. unfold JS.padStart0.
  apply parseDigits_app; [|done].
  rewrite (parseDigits_length _ _ E).
  replace (sz * 2 - 2 * length b)%nat with (2 * (sz - length b))%nat by lia.
  apply parseDigits_zeros.
Qed.

End HexFacts.

(** ** viem's encoders against the ABI on bytes *)

Module AbiFacts.
Import Hexa Viem Spec HexFacts.

Lemma pad_amount (L : nat) :
  (L mod 32 <> 0)%nat ->
  (L <= (2 * L + 63) / 64 * 32)%nat
  /\ ((2 * L + 63) / 64 * 32 - L = (32 - L mod 32) mod 32)%nat.
Proof.
  intros Hr.
  pose proof (Nat.div_mod_eq L 32) as E.
  pose proof (Nat.mod_upper_bound L 32 ltac:(lia)) as Hb.
  assert ((2 * L + 63) / 64 = L / 32 + 1)%nat as ->.
  { symmetry. apply (Nat.div_unique _ _ _ (2 * (L mod 32) - 1)); lia. }
  rewrite (Nat.mod_small (32 - L mod 32) 32) by lia. lia.
Qed.

Section WithKeccak.
Context `{Keccak}.

Lemma encodeBytes_denotes (h : Hex) (b : bytes) :
  denotes h b ->
  exists p, encodeBytes h = Some p /\ prepared true p (encBytes b).
Proof.
  intros D. unfold encodeBytes, encBytes.
  rewrite (denotes_size h b D), (denotes_length h b D).
  destruct (Nat.eqb_spec (length b mod 32) 0) as [E0|Hne].
  - eexists. split; [done|]. split; [done|]. cbn [encoded].
    rewrite E0. change ((32 - 0) mod 32)%nat with 0%nat.
    apply denotes_concat2; [apply denotes_hexWord|].
    by rewrite app_nil_r.
  - replace (2 + 2 * length b - 2 + 63)%nat with (2 * length b + 63)%nat
      by lia.
    destruct (pad_amount (length b) Hne) as [Hle Hpad].
    destruct (denotes_padHex_right h b _ D Hle) as (h' & -> & D').
    eexists. split; [done|]. split; [done|]. cbn [encoded].
    rewrite <- Hpad.
    apply denotes_concat2; [apply denotes_hexWord|done].
Qed.

Lemma encodeNumber_denotes (v : Z) :
  0 <= v < 2 ^ 256 ->
  exists p, encodeNumber v 256 = Some p /\ prepared false p (word32 v).
Proof.
  intros Hv. unfold encodeNumber.
  destruct (Z.ltb_spec (2 ^ 256 - 1) v); [lia|].
  destruct (Z.ltb_spec v 0); [lia|]. simpl.
  destruct (denotes_numberToHex v Hv) as (h & -> & D).
  eexists. by split.
Qed.

Lemma isAddress_length (a : Hex) :
  isAddress a = true -> String.length a = 42%nat.
Proof.
  unfold isAddress, addressRegex.
  destruct (JS.startsWith "0x" a); [|done]. simpl.
  destruct (Nat.eqb_spec (String.length a) 42); [done|]. done.
Qed.

Lemma encodeAddress_denotes (a : Hex) (b : bytes) :
  isAddress a = true -> denotes a b ->
  length b = 20%nat
  /\ exists p, encodeAddress a = Some p
               /\ prepared false p (zeroBytes 12 ++ b).
Proof.
  intros Ha D.
  assert (length b = 20%nat) as Hl.
  { pose proof (isAddress_length a Ha). pose proof (denotes_length a b D). lia. }
  split; [done|]. unfold encodeAddress. rewrite Ha. simpl.
  destruct (denotes_padHex_left (JS.toLowerCase a) b 32) as (h' & -> & D');
    [by apply denotes_lower | lia |].
  rewrite Hl in D'. eexists. by split.
Qed.

(** *** Heads and tails *)

Lemma staticSize_dynamic (ps : list PreparedParam) :
  Forall (fun p => dynamic p = true) ps ->
  staticSize ps = (32 * length ps)%nat.
Proof.
  unfold staticSize. intros F.
  assert (forall acc,
            fold_left (fun s p => if dynamic p then (s + 32)%nat
                                  else (s + size (encoded p))%nat) ps acc
            = (acc + 32 * length ps)%nat) as G.
  { induction F as [|p ps Hp F IH]; intros acc; simpl; [lia|].
    rewrite Hp, IH. lia. }
  apply G.
Qed.

Lemma splitParams_dynamic (ps : list PreparedParam) (tails : list bytes)
    (st dy : nat) :
  Forall2 (prepared true) ps tails ->
  exists heads,
    splitParams ps st dy = (heads, map encoded ps)
    /\ Forall2 denotes heads (offsets (st + dy) tails).
Proof.
  intros F. revert dy.
  induction F as [|p t ps tails [Hp D] F IH]; intros dy; simpl.
  - by exists [].
  - rewrite Hp. destruct (IH (dy + size (encoded p))%nat) as (heads & -> & Fh).
    eexists. split; [done|]. constructor; [apply denotes_hexWord|].
    rewrite (denotes_size _ _ D) in Fh.
    by rewrite <- Nat.add_assoc.
Qed.

Lemma Forall2_prepared_denotes (dyn : bool) (ps : list PreparedParam)
    (ds : list bytes) :
  Forall2 (prepared dyn) ps ds -> Forall2 denotes (map encoded ps) ds.
Proof. induction 1 as [|p d ps ds [_ D] F IH]; simpl; by constructor. Qed.

(** A sequence of dynamic parameters: offsets, then tails. *)
Lemma encodeParams_dynamic (ps : list PreparedParam) (tails : list bytes) :
  Forall2 (prepared true) ps tails ->
  denotes (encodeParams ps) (encDynamicSeq tails).
Proof.
  intros F. unfold encodeParams, encDynamicSeq.
  rewrite staticSize_dynamic
    by (clear -F; induction F as [|???? [? _]]; by constructor).
  destruct (splitParams_dynamic ps tails (32 * length ps) 0 F)
    as (heads & -> & Fh).
  rewrite Nat.add_0_r, (Forall2_length _ _ _ F) in Fh.
  rewrite <- concat_app. apply denotes_concatHex.
  apply Forall2_app; [done | by eapply Forall2_prepared_denotes].
Qed.

Lemma encodeArray_denotes (ps : list PreparedParam) (tails : list bytes) :
  Forall2 (prepared true) ps tails ->
  prepared true (encodeArray ps) (encDynamicArray tails).
Proof.
  intros F. split; [done|]. unfold encodeArray, encDynamicArray.
  cbn [encoded]. rewrite <- (Forall2_length _ _ _ F).
  destruct ps as [|p ps].
  - apply Forall2_nil_inv_l in F as ->.
    change (denotes (hexWord 0) (word32 (Z.of_nat 0) ++ [])).
    rewrite app_nil_r. apply denotes_hexWord.
  - change (0 <? length (p :: ps))%nat with true. cbv iota.
    apply denotes_concat2; [apply denotes_hexWord|].
    by apply encodeParams_dynamic.
Qed.

(** The tuple (address, uint256, bytes). *)
Lemma encodeTuple_call (pa pv pd : PreparedParam) (a v d : bytes) :
  prepared false pa a -> length a = 32%nat ->
  prepared false pv v -> length v = 32%nat ->
  prepared true pd d ->
  prepared true (encodeTuple [pa; pv; pd]) (a ++ v ++ word32 96 ++ d).
Proof.
  intros [Ea Da] La [Ev Dv] Lv [Ed Dd].
  assert (existsb dynamic [pa; pv; pd] = true) as Ex
    by (cbn [existsb]; by rewrite Ea, Ev, Ed).
  split.
  - unfold encodeTuple. cbn [dynamic]. done.
  - unfold encodeTuple. cbn [encoded]. rewrite Ex.
    unfold encodeParams, staticSize. cbn [fold_left splitParams].
    rewrite Ea, Ev, Ed.
    rewrite (denotes_size _ _ Da), (denotes_size _ _ Dv), La, Lv.
    cbn [app].
    apply denotes_concat4; first [done | apply (denotes_hexWord 96)].
Qed.

End WithKeccak.

End AbiFacts.

(** ** Claims on the encoders *)

Module EncodingClaims.
Import Store Chain Hexa Viem Spec HexFacts AbiFacts.

Section WithKeccak.
Context `{Keccak}.

Lemma mapM_encodeBytes (hs : list Hex) (bs : list bytes) :
  Forall2 denotes hs bs ->
  exists ps, mapM encodeBytes hs = Some ps
             /\ Forall2 (prepared true) ps (map encBytes bs).
Proof.
  induction 1 as [|h b hs bs D F (ps & E & Fp)]; [by exists []|].
  destruct (encodeBytes_denotes h b D) as (p & Ep & Pp).
  exists (p :: ps). cbn [mapM]. rewrite Ep, E. split; [done|].
  by constructor.
Qed.

Lemma prepareCall_denotes (c : Store.Call) (cb : CallBytes) :
  denotesCall c cb ->
  exists p, Submit.prepareCall c = Some p /\ prepared true p (encCall cb).
Proof.
  intros (Ha & Dt & Ev & Hv & Dd). unfold Submit.prepareCall.
  destruct (encodeAddress_denotes _ _ Ha Dt) as (Hl & pa & -> & Pa).
  destruct (encodeNumber_denotes _ Hv) as (pv & -> & Pv).
  destruct (encodeBytes_denotes _ _ Dd) as (pd & -> & Pd).
  eexists. split; [done|]. unfold encCall. rewrite <- Ev.
  rewrite (app_assoc (zeroBytes 12)).
  apply encodeTuple_call; try done;
    rewrite ?length_app, ?length_zeroBytes, ?length_word32; lia.
Qed.

Lemma mapM_prepareCall (cs : list Store.Call) (cbs : list CallBytes) :
  Forall2 denotesCall cs cbs ->
  exists ps, mapM Submit.prepareCall cs = Some ps
             /\ Forall2 (prepared true) ps (map encCall cbs).
Proof.
  induction 1 as [|c cb cs cbs D F (ps & E & Fp)]; [by exists []|].
  destruct (prepareCall_denotes c cb D) as (p & Ep & Pp).
  exists (p :: ps). cbn [mapM]. rewrite Ep, E. split; [done|].
  by constructor.
Qed.

Lemma aggregate_denotes (hs : list Hex) (bs : list bytes) :
  Forall2 denotes hs bs ->
  exists h, Submit.aggregate hs = Some h
            /\ denotes h (abiEncodeSignatures bs).
Proof.
  intros F. unfold Submit.aggregate.
  destruct (mapM_encodeBytes hs bs F) as (ps & -> & Fp).
  eexists. split; [done|]. unfold encodeAbiParameters, abiEncodeSignatures.
  apply encodeParams_dynamic. constructor; [|constructor].
  by apply encodeArray_denotes.
Qed.

(** The payload built by steps 1 to 4 of the route. *)
Lemma executionData_denotes (i : Intent) (sigs : list bytes) (key : bytes)
    (cs : list CallBytes) :
  Forall2 denotes (map Store.sig (signatures i)) sigs ->
  denotes (externalKeyHash i) key ->
  0 <= nonce i < 2 ^ 256 ->
  Forall2 denotesCall (calls i) cs ->
  exists e, Submit.executionData i = Some e
            /\ denotes e (payload sigs key (nonce i) cs).
Proof.
  intros Fs Dk Hn Fc. unfold Submit.executionData, toHex.
  destruct (aggregate_denotes _ _ Fs) as (agg & -> & Dagg).
  destruct (denotes_numberToHex _ Hn) as (n32 & -> & Dn).
  destruct (mapM_prepareCall _ _ Fc) as (pcs & -> & Fpc).
  cbn [mbind option_bind].
  assert (denotes (concatHex [n32; concatHex [agg; externalKeyHash i; "0x00"]])
            (word32 (nonce i) ++ abiEncodeSignatures sigs ++ key ++ [Byte.x00]))
    as Dop.
  { apply denotes_concat2; [done|]. by apply denotes_concat3. }
  destruct (encodeBytes_denotes _ _ Dop) as (pod & -> & Pod).
  eexists. split; [done|]. unfold encodeAbiParameters, payload, abiEncodeExecution.
  apply encodeParams_dynamic. constructor; [|constructor; [done|constructor]].
  by apply encodeArray_denotes.
Qed.

(** C5.  For an intent whose signatures reach the threshold, with its hex
    fields denoting byte strings: the execution payload that submit-intent
    builds denotes exactly the ABI encoding of (calls as
    (address,uint256,bytes)[], operation data as bytes), where the
    operation data is the nonce as 32 bytes followed by the outer
    envelope, and the outer envelope is the ABI encoding of the stored
    signatures as bytes[] in their stored order followed by the policy key
    identifier and one 0x00 byte.  It is the payload passed to execute
    when the run reaches the broadcast. *)
Theorem execution_payload_layout (i : Intent) (sigs : list bytes)
    (key : bytes) (cs : list CallBytes) :
  threshold i <= Z.of_nat (length (signatures i)) ->
  Forall2 denotes (map Store.sig (signatures i)) sigs ->
  denotes (externalKeyHash i) key ->
  0 <= nonce i < 2 ^ 256 ->
  Forall2 denotesCall (calls i) cs ->
  exists e,
    Submit.executionData i = Some e
    /\ denotes e (payload sigs key (nonce i) cs)
    /\ (forall c db k,
          db !! k = Some i -> walletClient c = true ->
          getNonce c (account i) 0 = Some (nonce i) ->
          In (CallExecute (account i) MODE_SINGLE_WITH_OPDATA e)
             (Submit.POST c db k).2).
Proof.
  intros Ht Fs Dk Hn Fc.
  destruct (executionData_denotes i sigs key cs Fs Dk Hn Fc) as (e & Ee & De).
  exists e. split; [done|]. split; [done|].
  intros c db k Ei Hw En.
  rewrite (SubmitFacts.POST_encoded c db k i e Ei Hw Ht Ee), En.
  rewrite Z.eqb_refl. cbn [negb].
  destruct (execute c _ _ _) as [hash|];
    [destruct (waitForTransactionReceipt c hash)|]; simpl; by right; left.
Qed.

(** C8.  With the policy-contract address denoting 20 bytes and the salt
    12 bytes: the public key is their 32-byte concatenation, and the
    external key hash is the hash of the 32-byte word of the External key
    type (3) followed by the hash of the public key.  It depends on the
    address and the salt alone: the authorization call built for any
    account carries the same external key hash. *)
Theorem external_key_hash_derivation (multisig salt12 : Hex)
    (a s : bytes) :
  denotes multisig a -> denotes salt12 s ->
  length a = 20%nat -> length s = 12%nat ->
  denotes (ExternalKey.externalPublicKey multisig salt12) (a ++ s)
  /\ length (a ++ s) = 32%nat
  /\ ExternalKey.computeExternalKeyHash multisig salt12
     = Some (bytesToHex (externalKeyHashOf a s))
  /\ (forall encodeAuthorize encodeExecute account r,
        ExternalKey.encodeAuthorizeExternalExecute encodeAuthorize
          encodeExecute account multisig salt12 = Some r ->
        ExternalKey.to r = account
        /\ ExternalKey.externalKeyHash r = bytesToHex (externalKeyHashOf a s)).
Proof.
  intros Da Ds La Ls.
  assert (denotes (ExternalKey.externalPublicKey multisig salt12) (a ++ s))
    as Dp by by apply denotes_concat2.
  assert (ExternalKey.computeExternalKeyHash multisig salt12
          = Some (bytesToHex (externalKeyHashOf a s))) as Ek.
  { unfold ExternalKey.computeExternalKeyHash, keccak256.
    rewrite (denotes_startsWith _ _ Dp), (denotes_hexToBytes _ _ Dp).
    cbn [mbind option_bind].
    set (pubHash := keccak_256 (a ++ s)).
    assert (length pubHash = 32%nat) as Lh by apply keccak_256_length.
    change (encodeNumber 3 8)
      with (Some {| dynamic := false; encoded := hexWord 3 |}).
    cbn [mbind option_bind].
    unfold encodeBytesN.
    rewrite (denotes_size _ _ (denotes_bytesToHex pubHash)), Lh.
    cbn [Nat.eqb negb].
    destruct (denotes_padHex_right _ _ 32 (denotes_bytesToHex pubHash))
      as (h' & -> & D'); [lia|].
    rewrite Lh, app_nil_r in D'. cbn [mbind option_bind].
    assert (denotes (encodeAbiParameters
                       [{| dynamic := false; encoded := hexWord 3 |};
                        {| dynamic := false; encoded := h' |}])
              (word32 3 ++ pubHash)) as Dpk.
    { unfold encodeAbiParameters, encodeParams, staticSize.
      cbn [fold_left splitParams dynamic encoded app].
      apply denotes_concat2; [apply (denotes_hexWord 3) | done]. }
    by rewrite (denotes_startsWith _ _ Dpk), (denotes_hexToBytes _ _ Dpk). }
  split; [done|]. split; [rewrite length_app; lia|]. split; [done|].
  intros encodeAuthorize encodeExecute account r.
  unfold ExternalKey.encodeAuthorizeExternalExecute. rewrite Ek.
  destruct (encodeAuthorize _) as [authorizeData|]; [|done].
  cbn [mbind option_bind].
  destruct (encodeAddress _) as [zero|]; [|done]. cbn [mbind option_bind].
  destruct (encodeNumber 0 256) as [value|]; [|done]. cbn [mbind option_bind].
  destruct (encodeBytes authorizeData) as [data|]; [|done].
  cbn [mbind option_bind].
  destruct (encodeExecute _ _) as [data'|]; [|done]. cbn [mbind option_bind].
  by intros [= <-].
Qed.

End WithKeccak.

Lemma execution_payload_layout_witness :
  exists e,
    Submit.executionData (H := Keccak256.keccak)
      (Scenario.intent1 [Scenario.sigO1; Scenario.sigO2] collecting) = Some e
    /\ denotes e
         (payload
            [Scenario.bytesOf (Scenario.wrappedSig "1" "00");
             Scenario.bytesOf (Scenario.wrappedSig "2" "00")]
            (Scenario.bytesOf Scenario.policyH) 7 [Scenario.transferBytes])
    /\ (forall c db k,
          db !! k
          = Some (Scenario.intent1 [Scenario.sigO1; Scenario.sigO2] collecting) ->
          walletClient c = true ->
          getNonce c Scenario.accountA 0 = Some 7 ->
          In (CallExecute Scenario.accountA MODE_SINGLE_WITH_OPDATA e)
             (Submit.POST (H := Keccak256.keccak) c db k).2).
Proof.
  apply (execution_payload_layout (H := Keccak256.keccak)
           (Scenario.intent1 [Scenario.sigO1; Scenario.sigO2] collecting)).
  - vm_compute. discriminate.
  - repeat constructor; vm_compute; reflexivity.
  - vm_compute. reflexivity.
  - vm_compute. split; [discriminate | reflexivity].
  - repeat constructor; vm_compute; try reflexivity; discriminate.
Defined.

Lemma external_key_hash_derivation_witness :
  denotes (ExternalKey.externalPublicKey Scenario.multisig Scenario.salt)
    (Scenario.bytesOf Scenario.multisig ++ Scenario.bytesOf Scenario.salt)
  /\ length (Scenario.bytesOf Scenario.multisig
             ++ Scenario.bytesOf Scenario.salt) = 32%nat
  /\ ExternalKey.computeExternalKeyHash (H := Keccak256.keccak)
       Scenario.multisig Scenario.salt
     = Some (bytesToHex
               (externalKeyHashOf (H := Keccak256.keccak)
                  (Scenario.bytesOf Scenario.multisig)
                  (Scenario.bytesOf Scenario.salt)))
  /\ (forall encodeAuthorize encodeExecute account r,
        ExternalKey.encodeAuthorizeExternalExecute (H := Keccak256.keccak)
          encodeAuthorize encodeExecute account Scenario.multisig
          Scenario.salt = Some r ->
        ExternalKey.to r = account
        /\ ExternalKey.externalKeyHash r
           = bytesToHex
               (externalKeyHashOf (H := Keccak256.keccak)
                  (Scenario.bytesOf Scenario.multisig)
                  (Scenario.bytesOf Scenario.salt))).
Proof.
  apply (external_key_hash_derivation (H := Keccak256.keccak)
           Scenario.multisig Scenario.salt);
    vm_compute; reflexivity.
Defined.

End EncodingClaims.

(** * Further properties of the store and of the routes *)

(** ** The store, creation and reading *)

Module StoreLaws.
Import Store Chain Spec Laws StoreFacts.

(** X1.  [setIntent] never adds or removes an identifier; it leaves
    every other entry as it was, and a store that has no entry for the
    identifier unchanged altogether. *)
Theorem setIntent_keeps_the_identifiers (db : DB) (k : string) (p : Patch) :
  dom (setIntent db k p) = dom db
  /\ (forall k', k' <> k ->
        getIntent (setIntent db k p) k' = getIntent db k')
  /\ (getIntent db k = None -> setIntent db k p = db).
Proof.
  unfold setIntent, getIntent. destruct (db !! k) as [now|] eqn:E.
  - split; [|split].
    + rewrite dom_insert_L. apply elem_of_dom_2 in E.
      apply set_eq. intros x. rewrite elem_of_union, elem_of_singleton.
      split; [intros [->|Hx]; assumption | auto].
    + intros k' Hk. rewrite lookup_insert_ne; [reflexivity | congruence].
    + discriminate.
  - split; [reflexivity | split; [reflexivity | reflexivity]].
Qed.

Lemma setIntent_keeps_the_identifiers_witness :
  dom (setIntent Scenario.db2 "intent-1" (patchStatus failed))
  = dom Scenario.db2
  /\ (forall k', k' <> "intent-1"%string ->
        getIntent (setIntent Scenario.db2 "intent-1" (patchStatus failed)) k'
        = getIntent Scenario.db2 k')
  /\ (getIntent Scenario.db2 "intent-1" = None ->
      setIntent Scenario.db2 "intent-1" (patchStatus failed) = Scenario.db2).
Proof.
  exact (setIntent_keeps_the_identifiers Scenario.db2 "intent-1"
           (patchStatus failed)).
Defined.

End StoreLaws.

Module CreateLaws.
Import Store Chain Create Spec Laws StoreFacts CreateFacts.

(** X2.  What create-intent does to the store: a created intent sits
    under the fresh identifier, collecting, with no signature and no
    transaction hash, and every other entry is as before; a request that
    fails (no owners configured, or a chain read that throws) leaves the
    store unchanged, and without owners only the configuration was read. *)
Theorem create_stores_a_fresh_intent_or_nothing (c : Client) (db : DB)
    (uuid : string) (body : Body) :
  match (POST c db uuid body).1.1 with
  | Created k dg t os =>
      k = uuid /\ os <> []
      /\ (exists i,
            (POST c db uuid body).1.2 !! uuid = Some i
            /\ id i = uuid /\ account i = b_account body
            /\ calls i = b_calls body
            /\ digest i = dg /\ threshold i = t /\ owners i = os
            /\ signatures i = [] /\ status i = collecting
            /\ txHash i = None)
      /\ (forall k', k' <> uuid ->
            (POST c db uuid body).1.2 !! k' = db !! k')
  | NoOwners =>
      (POST c db uuid body).1.2 = db
      /\ (exists t,
            getConfig c (b_multisigAddress body) (b_account body)
              (b_externalKeyHash body) = Some (t, []))
      /\ (POST c db uuid body).2
         = [CallGetConfig (b_multisigAddress body) (b_account body)
              (b_externalKeyHash body)]
  | Threw => (POST c db uuid body).1.2 = db
  end.
Proof.
  unfold POST.
  destruct (getConfig c _ _ _) as [[t os]|] eqn:Ec; [|reflexivity].
  destruct os as [|o os].
  { cbn. split; [reflexivity | split; [eauto | reflexivity]]. }
  cbn [length Nat.eqb].
  destruct (getNonce c _ _) as [n|]; [|reflexivity].
  destruct (computeDigest c _ _ _) as [dg|]; [|reflexivity].
  cbn. split; [reflexivity | split; [discriminate | split]].
  - eexists. rewrite lookup_insert_eq. split; [reflexivity|].
    cbn. repeat split; reflexivity.
  - intros k' Hk. rewrite lookup_insert_ne; [reflexivity | congruence].
Qed.

(** X3.  The answer of create-intent is what a read of the new identifier
    returns: the same digest, threshold and owners, the nonce read from
    the chain in decimal, no signature yet. *)
Theorem created_intent_is_read_back (c : Client) (db db' : DB)
    (uuid : string) (body : Body) (k : string) (dg : Hex) (t : Z)
    (os : list Hex) (tr : list Chain.Call) :
  POST c db uuid body = (Created k dg t os, db', tr) ->
  exists j n,
    Read.GET db' k = Read.Found j
    /\ getNonce c (b_account body) (default 0 (b_seqKey body)) = Some n
    /\ Read.j_id j = k /\ Read.j_digest j = dg
    /\ Read.j_threshold j = t /\ Read.j_owners j = os
    /\ Read.j_nonce j = Read.toString n
    /\ Read.j_seqKey j = Read.toString (default 0 (b_seqKey body))
    /\ Read.j_signatures j = [] /\ Read.j_status j = collecting
    /\ Read.j_txHash j = None.
Proof.
  intros HP. apply POST_created in HP.
  destruct HP as (t0 & os0 & n & Hc & Hos & Hn & Hd & -> & -> & -> & -> & _).
  eexists _, n. unfold Read.GET, getIntent. rewrite lookup_insert_eq.
  split; [reflexivity|]. split; [exact Hn|].
  cbn. repeat split; reflexivity.
Qed.

Lemma created_intent_is_read_back_witness :
  exists j n,
    Read.GET Scenario.db0 "intent-1" = Read.Found j
    /\ getNonce Scenario.chain (b_account (Scenario.body None))
         (default 0 (b_seqKey (Scenario.body None))) = Some n
    /\ Read.j_id j = "intent-1"%string /\ Read.j_digest j = Scenario.digestD
    /\ Read.j_threshold j = 2
    /\ Read.j_owners j = [Scenario.O1; Scenario.O2; Scenario.O3]
    /\ Read.j_nonce j = Read.toString n
    /\ Read.j_seqKey j = Read.toString (default 0 (b_seqKey (Scenario.body None)))
    /\ Read.j_signatures j = [] /\ Read.j_status j = collecting
    /\ Read.j_txHash j = None.
Proof.
  apply (created_intent_is_read_back Scenario.chain ∅ Scenario.db0 "intent-1"
           (Scenario.body None) "intent-1" Scenario.digestD 2
           [Scenario.O1; Scenario.O2; Scenario.O3]
           (Create.POST Scenario.chain ∅ "intent-1" (Scenario.body None)).2).
  vm_compute. reflexivity.
Defined.

End CreateLaws.

Module ReadLaws.
Import Store Chain Read Spec Laws StoreFacts.

Lemma callForJson_inj (a b : Store.Call) : callForJson a = callForJson b -> a = b.
Proof.
  destruct a as [t1 v1 d1], b as [t2 v2 d2]. unfold callForJson, toString.
  cbn. intros [= -> Hv ->]. apply (inj pretty) in Hv. congruence.
Qed.

Lemma map_callForJson_inj (l1 l2 : list Store.Call) :
  map callForJson l1 = map callForJson l2 -> l1 = l2.
Proof.
  revert l2. induction l1 as [|a l1 IH]; intros [|b l2]; cbn [map];
    try discriminate; [reflexivity|].
  intros Hm.
  pose proof (f_equal (hd (callForJson a)) Hm) as Ha.
  pose proof (f_equal (@tl _) Hm) as Hl. cbn [hd tl] in Ha, Hl.
  f_equal; [apply callForJson_inj, Ha | apply IH, Hl].
Qed.

Lemma intentForJson_inj (i j : Intent) :
  intentForJson i = intentForJson j -> i = j.
Proof.
  destruct i, j. unfold intentForJson, toString. cbn.
  intros [= -> -> -> -> Hs Hn -> Hc -> -> -> -> ->].
  apply (inj pretty) in Hs. apply (inj pretty) in Hn.
  apply map_callForJson_inj in Hc. congruence.
Qed.

(** X4.  Reading loses nothing: the answer of get-intent is 404 exactly
    when the identifier is unknown, and two reads with the same answer
    come from the same stored intent, although the sequence key, the
    nonce and the call values travel as decimal strings. *)
Theorem read_determines_the_intent (db db' : DB) (k k' : string) :
  (GET db k = NotFound <-> getIntent db k = None)
  /\ (GET db k = GET db' k' -> getIntent db k = getIntent db' k').
Proof.
  unfold GET. split.
  - destruct (getIntent db k); split; intros; congruence.
  - destruct (getIntent db k) as [i|], (getIntent db' k') as [j|];
      try discriminate; [|reflexivity].
    intros Hj. f_equal. apply intentForJson_inj.
    exact (f_equal (fun r => match r with
                             | Found x => x
                             | NotFound => intentForJson i
                             end) Hj).
Qed.

Lemma read_determines_the_intent_witness :
  (GET Scenario.db1 "intent-1" = NotFound
   <-> getIntent Scenario.db1 "intent-1" = None)
  /\ (GET Scenario.db1 "intent-1" = GET Scenario.db1 "intent-1" ->
      getIntent Scenario.db1 "intent-1" = getIntent Scenario.db1 "intent-1").
Proof.
  exact (read_determines_the_intent Scenario.db1 Scenario.db1 "intent-1"
           "intent-1").
Defined.

End ReadLaws.

(** ** Strings: slices of a concatenation *)

Module StringFacts.
Import HexFacts.

Lemma substring_0_append (a b : string) :
  substring 0 (String.length a) (a +:+ b) = a.
Proof.
  induction a as [|c a IH]; cbn [String.length].
  - rewrite append_empty_l. destruct b; reflexivity.
  - rewrite append_cons. cbn [substring]. by rewrite IH.
Qed.

Lemma substring_all (b : string) : substring 0 (String.length b) b = b.
Proof. induction b as [|c b IH]; cbn; [reflexivity | by rewrite IH]. Qed.

Lemma substring_skip_append (a b : string) (n : nat) :
  substring (String.length a) n (a +:+ b) = substring 0 n b.
Proof.
  induction a as [|c a IH]; cbn [String.length].
  - by rewrite append_empty_l.
  - rewrite append_cons. cbn [substring]. exact IH.
Qed.

Lemma length_substring (s : string) (n m : nat) :
  (n + m <= String.length s)%nat -> String.length (substring n m s) = m.
Proof.
  revert n m. induction s as [|c s IH]; intros n m; cbn [String.length].
  - intros Hn. assert (n = 0%nat) as -> by lia.
    assert (m = 0%nat) as -> by lia. reflexivity.
  - intros Hn. destruct n as [|n]; cbn [substring].
    + destruct m as [|m]; [reflexivity|]. cbn [String.length].
      rewrite (IH 0%nat m); [reflexivity | lia].
    + apply IH. lia.
Qed.

Lemma substring_split (s : string) (n : nat) :
  (n <= String.length s)%nat ->
  s = substring 0 n s +:+ substring n (String.length s - n) s.
Proof.
  revert n. induction s as [|c s IH]; intros n; cbn [String.length].
  - intros Hn. assert (n = 0%nat) as -> by lia. reflexivity.
  - intros Hn. destruct n as [|n].
    + cbn [substring]. rewrite append_empty_l. cbn [Nat.sub].
      by rewrite substring_all.
    + cbn [substring Nat.sub]. rewrite append_cons. f_equal. apply IH. lia.
Qed.

End StringFacts.

(** ** Signature collection, further *)

Module SignLaws.
Import Store Chain Sign Spec Laws StoreFacts SignFacts HexFacts StringFacts.

(** X5.  Only an accepted signature changes the store.  The accepted one
    is appended to the signatures of the intent, for an owner who had not
    signed, with the time of the request; the count answered is the old
    count plus one, and the ready flag says whether the count has reached
    the threshold.  Every other answer leaves the store as it was. *)
Theorem only_an_accepted_signature_changes_the_store (c : Client) (db : DB)
    (k : string) (w : option Hex) (now : Z) :
  match (POST c db k w now).1.1 with
  | Accepted n M ready =>
      exists i s,
        db !! k = Some i
        /\ (POST c db k w now).1.2 !! k = Some (push i s)
        /\ n = S (length (signatures i)) /\ M = threshold i
        /\ (ready = true <-> threshold i <= Z.of_nat n)
        /\ at_ s = now
        /\ isOwner i (ownerKeyHash s) = true
        /\ hasSigned i (ownerKeyHash s) = false
  | _ => (POST c db k w now).1.2 = db
  end.
Proof.
  destruct (POST c db k w now) as [[r db'] t] eqn:E.
  assert (Hcases := POST_store_cases c db k w now). rewrite E in Hcases.
  cbn [fst snd] in *.
  destruct r as [| | | | | n M | n M ready];
    try (destruct Hcases as [->|(n' & M' & r' & [=])]; reflexivity).
  apply POST_accepted_inv in E.
  destruct E as (i & wrapped & Hi & -> & Hw & Hd & Hok & Hown & Hnew & Hn
                 & HM & Hr & Hdb & Ht).
  eexists i, _. split; [exact Hi|]. split.
  { rewrite Hdb. apply lookup_after_push. }
  cbn [push signatures] in Hn, Hr. rewrite length_app in Hn, Hr.
  cbn [length] in Hn, Hr.
  split; [lia|]. split; [exact HM|]. split.
  { rewrite Hr, Hn. apply Z.leb_le. }
  cbn. auto.
Qed.

(** X6.  The defensive digest check of submit-signature: the answer is
    'Digest mismatch' exactly when the chain recomputes a digest that
    differs from the stored one beyond case; then the store is unchanged
    and the signature was never handed to the account.  When the
    recomputation throws, the check is skipped and the signature is
    validated. *)
Theorem digest_mismatch_stops_before_validation (c : Client) (db : DB)
    (k : string) (w : option Hex) (now : Z) :
  ((POST c db k w now).1.1 = DigestMismatch <->
   exists i wrapped d,
     db !! k = Some i /\ w = Some wrapped /\ wrapped <> ""%string
     /\ computeDigest c (account i) (calls i) (nonce i) = Some d
     /\ JS.toLowerCase d <> JS.toLowerCase (digest i))
  /\ ((POST c db k w now).1.1 = DigestMismatch ->
      (POST c db k w now).1.2 = db
      /\ forall a d s, ~ In (CallUnwrap a d s) (POST c db k w now).2)
  /\ (forall i wrapped,
        db !! k = Some i -> w = Some wrapped -> wrapped <> ""%string ->
        computeDigest c (account i) (calls i) (nonce i) = None ->
        (POST c db k w now).1.1 <> DigestMismatch
        /\ In (CallUnwrap (account i) (digest i) wrapped)
              (POST c db k w now).2).
Proof.
  assert (Hval : forall i wrapped,
            db !! k = Some i -> w = Some wrapped -> wrapped <> ""%string ->
            digestOk c i = true ->
            (POST c db k w now).1.1 <> DigestMismatch
            /\ In (CallUnwrap (account i) (digest i) wrapped)
                  (POST c db k w now).2).
  { intros i wrapped Hi -> Hw Hd.
    rewrite (POST_reaches_validation c db k i wrapped now Hi Hw Hd).
    cbv zeta. split.
    - destruct (negb (ok _)); [discriminate|].
      destruct (negb (isOwner _ _)); [discriminate|].
      destruct (hasSigned _ _); discriminate.
    - assert (In (CallUnwrap (account i) (digest i) wrapped)
                (validateWrappedSignature c (account i) (digest i) wrapped).2)
        as Hin.
      { rewrite validate_cases.
        destruct (ok (tryOnce _ _ _ wrapped)); [by left|].
        destruct (retriable _); by left. }
      destruct (negb (ok _)); [by right|].
      destruct (negb (isOwner _ _)); [by right|].
      destruct (hasSigned _ _); by right. }
  assert (Hmis : forall i wrapped d,
            db !! k = Some i -> w = Some wrapped -> wrapped <> ""%string ->
            computeDigest c (account i) (calls i) (nonce i) = Some d ->
            JS.toLowerCase d <> JS.toLowerCase (digest i) ->
            POST c db k w now
            = (DigestMismatch, db,
               [CallComputeDigest (account i) (calls i) (nonce i)])).
  { intros i wrapped d Hi -> Hw Hd Hne. unfold POST, getIntent. rewrite Hi.
    destruct (String.eqb_spec wrapped ""); [done|]. rewrite Hd.
    destruct (String.eqb_spec (JS.toLowerCase d) (JS.toLowerCase (digest i)));
      [done|]. reflexivity. }
  assert (Hinv : (POST c db k w now).1.1 = DigestMismatch ->
            exists i wrapped d,
              db !! k = Some i /\ w = Some wrapped /\ wrapped <> ""%string
              /\ computeDigest c (account i) (calls i) (nonce i) = Some d
              /\ JS.toLowerCase d <> JS.toLowerCase (digest i)).
  { intros HD. destruct (db !! k) as [i|] eqn:Hi;
      [|by unfold POST, getIntent in HD; rewrite Hi in HD].
    destruct w as [wrapped|];
      [|by unfold POST, getIntent in HD; rewrite Hi in HD].
    destruct (String.eqb_spec wrapped "") as [->|Hw];
      [by unfold POST, getIntent in HD; rewrite Hi in HD|].
    destruct (digestOk c i) eqn:Hd.
    { by destruct (Hval i wrapped eq_refl eq_refl Hw Hd). }
    unfold digestOk in Hd.
    destruct (computeDigest c _ _ _) as [d|] eqn:Ed; [|discriminate].
    exists i, wrapped, d. repeat split; try done.
    intros Heq. rewrite Heq, String.eqb_refl in Hd. discriminate. }
  split; [split|split].
  - exact Hinv.
  - intros (i & wrapped & d & Hi & Hw & Hne & Hd & Hdiff).
    by rewrite (Hmis i wrapped d Hi Hw Hne Hd Hdiff).
  - intros HD. destruct (Hinv HD) as (i & wrapped & d & Hi & Hw & Hne & Hd
                                      & Hdiff).
    rewrite (Hmis i wrapped d Hi Hw Hne Hd Hdiff). cbn.
    split; [reflexivity|]. intros a d' s [[=]|[]].
  - intros i wrapped Hi Hw Hne Hd. apply (Hval i wrapped Hi Hw Hne).
    unfold digestOk. by rewrite Hd.
Qed.

(** X7.  Submit-signature does not consult the status or the transaction
    hash: two stored intents that differ in nothing else get the same
    answer and the same chain reads, also once one of them is confirmed
    or failed. *)
Theorem signing_does_not_consult_the_status (c : Client) (db1 db2 : DB)
    (k1 k2 : string) (i1 i2 : Intent) (w : option Hex) (now : Z) :
  db1 !! k1 = Some i1 -> db2 !! k2 = Some i2 -> sameCollection i1 i2 ->
  (POST c db1 k1 w now).1.1 = (POST c db2 k2 w now).1.1
  /\ (POST c db1 k1 w now).2 = (POST c db2 k2 w now).2.
Proof.
  intros H1 H2 (Ha & Hd & Hc & Hn & Ho & Ht & Hs).
  unfold POST, getIntent. rewrite H1, H2.
  destruct w as [wrapped|]; [|done].
  destruct (String.eqb wrapped ""); [done|].
  unfold isOwner, hasSigned. cbn [push signatures threshold].
  rewrite <- Ha, <- Hd, <- Hc, <- Hn, <- Ho, <- Ht, <- Hs.
  destruct (negb _); [done|].
  destruct (validateWrappedSignature _ _ _ _) as [checked tv].
  destruct (negb (ok checked)); [done|].
  destruct (negb (existsb _ _)); [done|].
  destruct (existsb _ _); done.
Qed.

Lemma signing_does_not_consult_the_status_witness :
  (POST Scenario.chain Scenario.db2 "intent-1"
     (Some (Scenario.wrappedSig "3" "01")) 12).1.1
  = (POST Scenario.chain Cases.dbConfirmed "intent-1"
       (Some (Scenario.wrappedSig "3" "01")) 12).1.1
  /\ (POST Scenario.chain Scenario.db2 "intent-1"
        (Some (Scenario.wrappedSig "3" "01")) 12).2
     = (POST Scenario.chain Cases.dbConfirmed "intent-1"
          (Some (Scenario.wrappedSig "3" "01")) 12).2.
Proof.
  apply (signing_does_not_consult_the_status Scenario.chain Scenario.db2
           Cases.dbConfirmed "intent-1" "intent-1" Cases.intentReady
           Cases.intentConfirmed).
  - vm_compute. reflexivity.
  - vm_compute. reflexivity.
  - repeat split; reflexivity.
Defined.

(** X8.  The slice arithmetic of the prehash retry: the other variant of
    a signature has the same length and the same bytes up to the last
    one, ends in 00 after 01 and in 01 after anything else, is never the
    signature itself, and flipping it twice more gives it back. *)
Theorem flip_changes_only_the_last_byte (hex : Hex) :
  (2 <= String.length hex)%nat ->
  String.length (flip hex) = String.length hex
  /\ JS.slice_init 2 (flip hex) = JS.slice_init 2 hex
  /\ JS.slice_last 2 (flip hex)
     = (if String.eqb (JS.slice_last 2 hex) "01" then "00" else "01")%string
  /\ flip hex <> hex
  /\ flip (flip (flip hex)) = flip hex.
Proof.
  intros Hlen.
  set (a := JS.slice_init 2 hex). set (l := JS.slice_last 2 hex).
  assert (Hsplit : hex = a +:+ l).
  { unfold a, l, JS.slice_init, JS.slice_last.
    rewrite (substring_split hex (String.length hex - 2)) at 1 by lia.
    do 2 f_equal. lia. }
  assert (Ha : String.length a = (String.length hex - 2)%nat).
  { unfold a, JS.slice_init. apply length_substring. lia. }
  assert (Hinit : forall t, String.length t = 2%nat ->
            JS.slice_init 2 (a +:+ t) = a).
  { intros t Ht. unfold JS.slice_init. rewrite length_append, Ht.
    replace (String.length a + 2 - 2)%nat with (String.length a) by lia.
    apply substring_0_append. }
  assert (Hlast : forall t, String.length t = 2%nat ->
            JS.slice_last 2 (a +:+ t) = t).
  { intros t Ht. unfold JS.slice_last. rewrite length_append, Ht.
    replace (String.length a + 2 - 2)%nat with (String.length a) by lia.
    rewrite substring_skip_append. rewrite <- Ht. apply substring_all. }
  assert (Hflip : forall t, String.length t = 2%nat ->
            flip (a +:+ t)
            = a +:+ (if String.eqb t "01" then "00" else "01")%string).
  { intros t Ht. unfold flip. by rewrite (Hinit t Ht), (Hlast t Ht). }
  assert (Hl : String.length l = 2%nat).
  { unfold l, JS.slice_last. apply length_substring. lia. }
  assert (Hf : flip hex = a +:+ (if String.eqb l "01" then "00" else "01")%string).
  { rewrite Hsplit at 1. exact (Hflip l Hl). }
  assert (Ht2 : String.length (if String.eqb l "01" then "00" else "01")%string
                = 2%nat) by (destruct (String.eqb l "01"); reflexivity).
  split; [|split; [|split; [|split]]].
  - rewrite Hf, length_append, Ha, Ht2. lia.
  - rewrite Hf. apply Hinit, Ht2.
  - rewrite Hf. apply Hlast, Ht2.
  - intros Heq.
    assert (Hls : JS.slice_last 2 (flip hex) = l) by (by rewrite Heq).
    rewrite Hf, (Hlast _ Ht2) in Hls.
    destruct (String.eqb_spec l "01") as [E|E]; [by rewrite E in Hls | done].
  - rewrite Hf. clear Hf Ht2. destruct (String.eqb l "01").
    + rewrite (Hflip "00"%string eq_refl).
      change (String.eqb "00" "01") with false. cbv iota.
      rewrite (Hflip "01"%string eq_refl). reflexivity.
    + rewrite (Hflip "01"%string eq_refl).
      change (String.eqb "01" "01") with true. cbv iota.
      rewrite (Hflip "00"%string eq_refl). reflexivity.
Qed.

Lemma flip_changes_only_the_last_byte_witness :
  String.length (flip (Scenario.wrappedSig "3" "00"))
  = String.length (Scenario.wrappedSig "3" "00")
  /\ JS.slice_init 2 (flip (Scenario.wrappedSig "3" "00"))
     = JS.slice_init 2 (Scenario.wrappedSig "3" "00")
  /\ JS.slice_last 2 (flip (Scenario.wrappedSig "3" "00"))
     = (if String.eqb (JS.slice_last 2 (Scenario.wrappedSig "3" "00")) "01"
        then "00" else "01")%string
  /\ flip (Scenario.wrappedSig "3" "00") <> Scenario.wrappedSig "3" "00"
  /\ flip (flip (flip (Scenario.wrappedSig "3" "00")))
     = flip (Scenario.wrappedSig "3" "00").
Proof.
  apply (flip_changes_only_the_last_byte (Scenario.wrappedSig "3" "00")).
  vm_compute. lia.
Defined.

End SignLaws.

(** ** Submission, further *)

Module SubmitLaws.
Import Store Chain Submit Spec Laws StoreFacts SubmitFacts.

Section WithKeccak.
Context `{Keccak}.

(** The run of [POST] by cases on the checks. *)
Lemma POST_checks (c : Client) (db : DB) (k : string) :
  (db !! k = None /\ POST c db k = (NotFound, db, []))
  \/ (exists i, db !! k = Some i /\ walletClient c = false
                /\ POST c db k = (RelayerMissing, db, []))
  \/ (exists i, db !! k = Some i /\ walletClient c = true
                /\ Z.of_nat (length (signatures i)) < threshold i
                /\ POST c db k = (NotEnoughSignatures, db, []))
  \/ (exists i, db !! k = Some i /\ walletClient c = true
                /\ threshold i <= Z.of_nat (length (signatures i))
                /\ executionData i = None
                /\ POST c db k = (Threw, db, []))
  \/ (exists i e, db !! k = Some i /\ walletClient c = true
                  /\ threshold i <= Z.of_nat (length (signatures i))
                  /\ executionData i = Some e).
Proof.
  unfold POST, getIntent.
  destruct (db !! k) as [i|] eqn:Ei; [|by left].
  destruct (walletClient c) eqn:Hw; [|right; left; by exists i].
  cbn [negb].
  destruct (Z.ltb_spec (Z.of_nat (length (signatures i))) (threshold i))
    as [Hlt|Ht]; [right; right; left; by exists i|].
  destruct (executionData i) as [e|] eqn:He.
  - right; right; right; right. by exists i, e.
  - right; right; right; left. by exists i.
Qed.

(** X9.  A broadcast is made only past every check: the relayer is
    configured, the signatures have reached the threshold, the nonce read
    on sequence key 0 equals the stored one; it goes to the account of the
    intent in the mode with operation data, carries the payload encoded
    from the stored intent, and is the only broadcast of the request. *)
Theorem broadcast_only_past_every_check (c : Client) (db : DB) (k : string)
    (a m e : Hex) :
  In (CallExecute a m e) (POST c db k).2 ->
  exists i,
    db !! k = Some i /\ walletClient c = true
    /\ threshold i <= Z.of_nat (length (signatures i))
    /\ getNonce c (account i) 0 = Some (nonce i)
    /\ a = account i /\ m = MODE_SINGLE_WITH_OPDATA
    /\ executionData i = Some e
    /\ List.filter isExecute (POST c db k).2 = [CallExecute a m e].
Proof.
  intros Hin.
  destruct (POST_checks c db k)
    as [[_ E]|[(i & _ & _ & E)|[(i & _ & _ & _ & E)|[(i & _ & _ & _ & _ & E)
        |(i & e' & Ei & Hw & Ht & He)]]]];
    try (rewrite E in Hin; destruct Hin).
  rewrite (POST_encoded c db k i e' Ei Hw Ht He) in Hin |- *.
  exists i.
  destruct (getNonce c (account i) 0) as [cur|];
    [|by destruct Hin as [[=]|[]]].
  destruct (Z.eqb_spec (nonce i) cur) as [Heq|Hne]; cbn [negb] in Hin |- *;
    [subst cur|by destruct Hin as [[=]|[]]].
  destruct (execute c _ _ _) as [hash|].
  - destruct (waitForTransactionReceipt c hash) as [r|];
      destruct Hin as [[=]|[[= <- <- <-]|[[=]|[]]]]; by repeat split.
  - destruct Hin as [[=]|[[= <- <- <-]|[]]]; by repeat split.
Qed.

(** X10.  A request that is turned down changes nothing: an unknown
    identifier, a missing relayer key and too few signatures are answered
    without any contact with the chain, a stale nonce after the one nonce
    read; none of them, nor a payload or nonce read that throws, touches
    the store or broadcasts. *)
Theorem rejected_submission_changes_nothing (c : Client) (db : DB)
    (k : string) :
  match (POST c db k).1.1 with
  | NotFound | RelayerMissing | NotEnoughSignatures =>
      (POST c db k).1.2 = db /\ (POST c db k).2 = []
  | NonceMismatch stored current =>
      (POST c db k).1.2 = db /\ stored <> current
      /\ exists i, db !! k = Some i /\ stored = nonce i
                   /\ getNonce c (account i) 0 = Some current
                   /\ (POST c db k).2 = [CallGetNonce (account i) 0]
  | Threw =>
      (POST c db k).1.2 = db /\ existsb isExecute (POST c db k).2 = false
  | Submitted _ _ | SubmitFailed =>
      existsb isExecute (POST c db k).2 = true
  end.
Proof.
  destruct (POST_checks c db k)
    as [[_ E]|[(i & _ & _ & E)|[(i & _ & _ & _ & E)|[(i & _ & _ & _ & _ & E)
        |(i & e & Ei & Hw & Ht & He)]]]];
    try (rewrite E; cbn; by split).
  rewrite (POST_encoded c db k i e Ei Hw Ht He).
  destruct (getNonce c (account i) 0) as [cur|] eqn:En; [|by split].
  destruct (Z.eqb_spec (nonce i) cur) as [Heq|Hne]; cbn [negb].
  - destruct (execute c _ _ _) as [hash|]; [|reflexivity].
    by destruct (waitForTransactionReceipt c hash) as [r|].
  - cbn. split; [reflexivity|]. split; [exact Hne|]. by exists i.
Qed.

(** X11.  What a submission records.  The intent keeps its request and
    its signatures whatever happens.  A confirmed or reverted transaction
    is recorded with its hash; a broadcast that the chain refuses marks
    the intent failed and records no hash; a receipt that never comes
    marks it failed with the hash of the transaction sent.  No other
    entry of the store changes. *)
Theorem submission_outcome_is_recorded (c : Client) (db : DB) (k : string)
    (i : Intent) :
  db !! k = Some i -> id i = k ->
  (exists i',
     (POST c db k).1.2 !! k = Some i'
     /\ sameRequest i i' /\ signatures i' = signatures i
     /\ match (POST c db k).1.1 with
        | Submitted hash receipt =>
            status i' = match receipt with
                        | success => confirmed
                        | reverted => failed
                        end
            /\ txHash i' = Some hash
            /\ waitForTransactionReceipt c hash = Some receipt
        | SubmitFailed =>
            status i' = failed
            /\ exists e,
                 executionData i = Some e
                 /\ match execute c (account i) MODE_SINGLE_WITH_OPDATA e with
                    | None => txHash i' = txHash i
                    | Some hash =>
                        txHash i' = Some hash
                        /\ waitForTransactionReceipt c hash = None
                    end
        | _ => i' = i
        end)
  /\ (forall k', k' <> k -> (POST c db k).1.2 !! k' = db !! k').
Proof.
  intros Ei Ek.
  destruct (POST_checks c db k)
    as [[E _]|[(i0 & E0 & _ & E)|[(i0 & E0 & _ & _ & E)
        |[(i0 & E0 & _ & _ & _ & E)|(i0 & e & E0 & Hw & Ht & He)]]]];
    try congruence;
    try (rewrite E; cbn; split; [exists i; by repeat split | done]).
  assert (i0 = i) as -> by congruence.
  rewrite (POST_encoded c db k i e Ei Hw Ht He), Ek.
  destruct (getNonce c (account i) 0) as [cur|];
    [|split; [exists i; by repeat split | done]].
  destruct (negb _); [split; [exists i; by repeat split | done]|].
  destruct (execute c _ _ _) as [hash|] eqn:Ex.
  - destruct (waitForTransactionReceipt c hash) as [r|] eqn:Er; cbn [fst snd].
    + split.
      * rewrite !lookup_setIntent, !decide_True, Ei by done. cbn.
        eexists. split; [reflexivity|]. cbn. by repeat split.
      * intros k' Hk. by rewrite !lookup_setIntent, !decide_False.
    + split.
      * rewrite !lookup_setIntent, !decide_True, Ei by done. cbn.
        eexists. split; [reflexivity|]. cbn. repeat split.
        exists e. by rewrite Ex.
      * intros k' Hk. by rewrite !lookup_setIntent, !decide_False.
  - cbn [fst snd]. split.
    + rewrite !lookup_setIntent, !decide_True, Ei by done. cbn.
      eexists. split; [reflexivity|]. cbn. repeat split.
      exists e. by rewrite Ex.
    + intros k' Hk. by rewrite !lookup_setIntent, !decide_False.
Qed.

(** X12.  The signature check of submit is the ready flag of
    submit-signature: after an accepted signature, a submission on a
    server with a relayer is turned down for too few signatures exactly
    when the signature was answered with ready false. *)
Theorem ready_flag_is_the_signature_check (c c' : Client) (db db' : DB)
    (k : string) (w : option Hex) (now : Z) (n : nat) (M : Z) (ready : bool)
    (t : list Chain.Call) :
  Sign.POST c db k w now = (Sign.Accepted n M ready, db', t) ->
  walletClient c' = true ->
  ((POST c' db' k).1.1 = NotEnoughSignatures <-> ready = false).
Proof.
  intros HS Hw. apply SignFacts.POST_accepted_inv in HS.
  destruct HS as (i & wrapped & Hi & -> & Hne & Hd & Hok & Hown & Hnew & Hn
                  & HM & Hr & Hdb & Ht).
  set (i' := Sign.push i _) in *.
  assert (Ei' : db' !! k = Some i') by (rewrite Hdb; apply SignFacts.lookup_after_push).
  assert (Hth : threshold i' = threshold i) by reflexivity.
  destruct (POST_checks c' db' k)
    as [[E _]|[(i0 & E0 & Hw' & _)|[(i0 & E0 & _ & Hlt & E)
        |[(i0 & E0 & _ & Hge & _ & E)|(i0 & e & E0 & _ & Hge & He)]]]];
    try congruence.
  - assert (i0 = i') as -> by congruence. rewrite E. cbn.
    split; [intros _ | done]. rewrite Hr. apply Z.leb_gt. lia.
  - assert (i0 = i') as -> by congruence. rewrite E. cbn.
    split; [done|]. rewrite Hr. intros Hf. apply Z.leb_gt in Hf. lia.
  - assert (i0 = i') as -> by congruence.
    rewrite (POST_encoded c' db' k i' e E0 Hw Hge He).
    split.
    + destruct (getNonce c' _ _) as [cur|]; [|done].
      destruct (negb _); [done|].
      destruct (execute c' _ _ _) as [hash|]; [|done].
      by destruct (waitForTransactionReceipt c' hash).
    + rewrite Hr. intros Hf. apply Z.leb_gt in Hf. lia.
Qed.

(** X13.  A stored intent that cannot be encoded is not submitted: with a
    call target that is not an address, or a nonce outside 256 bits, the
    encoder throws before the chain is contacted, and the store is
    unchanged. *)
Theorem unencodable_intent_is_not_submitted (c : Client) (db : DB)
    (k : string) (i : Intent) :
  db !! k = Some i -> walletClient c = true ->
  threshold i <= Z.of_nat (length (signatures i)) ->
  (exists call, In call (calls i) /\ Viem.isAddress (call_to call) = false)
  \/ nonce i < 0 \/ 2 ^ 256 <= nonce i ->
  POST c db k = (Threw, db, []).
Proof.
  intros Ei Hw Ht Hbad.
  assert (He : executionData i = None).
  { unfold executionData.
    destruct (aggregate _) as [ag|]; [|reflexivity]. cbn [mbind option_bind].
    destruct Hbad as [(call & Hin & Ha)|Hn].
    - destruct (Viem.toHex _ _) as [n32|]; [|reflexivity].
      cbn [mbind option_bind].
      assert (mapM prepareCall (calls i) = None) as ->; [|reflexivity].
      induction (calls i) as [|c0 cs IH]; [destruct Hin|].
      cbn [mapM]. destruct Hin as [->|Hin].
      + unfold prepareCall, Viem.encodeAddress. by rewrite Ha.
      + rewrite (IH Hin). by destruct (prepareCall c0).
    - unfold Viem.toHex, Viem.numberToHex.
      assert ((nonce i <? 0) || (2 ^ (8 * Z.of_nat 32) - 1 <? nonce i) = true)
        as ->; [|reflexivity].
      apply orb_true_iff. destruct Hn as [Hn|Hn]; [left | right].
      + by apply Z.ltb_lt.
      + apply Z.ltb_lt. change (8 * Z.of_nat 32) with 256. lia. }
  destruct (POST_checks c db k)
    as [[E _]|[(i0 & E0 & Hw' & _)|[(i0 & E0 & _ & Hlt & _)
        |[(i0 & E0 & _ & _ & _ & E)|(i0 & e & E0 & _ & _ & He')]]]];
    try congruence.
  assert (i0 = i) by congruence. subst. lia.
Qed.

End WithKeccak.

Lemma unencodable_intent_is_not_submitted_witness :
  POST (H := Keccak256.keccak) Scenario.chain Cases.dbBadTarget "intent-2"
  = (Threw, Cases.dbBadTarget, []).
Proof.
  apply (unencodable_intent_is_not_submitted (H := Keccak256.keccak)
           Scenario.chain Cases.dbBadTarget "intent-2" Cases.intentBadTarget).
  - vm_compute. reflexivity.
  - reflexivity.
  - vm_compute. intros [=].
  - left. exists Cases.badTransfer. split; [left; reflexivity|].
    vm_compute. reflexivity.
Defined.

Lemma broadcast_only_past_every_check_witness :
  exists i,
    Scenario.db2 !! "intent-1"%string = Some i
    /\ walletClient Scenario.chain = true
    /\ threshold i <= Z.of_nat (length (signatures i))
    /\ getNonce Scenario.chain (account i) 0 = Some (nonce i)
    /\ Scenario.accountA = account i
    /\ MODE_SINGLE_WITH_OPDATA = MODE_SINGLE_WITH_OPDATA
    /\ executionData (H := Keccak256.keccak) i
       = Some (default ""%string
                 (executionData (H := Keccak256.keccak) Cases.intentReady))
    /\ List.filter isExecute
         (POST (H := Keccak256.keccak) Scenario.chain Scenario.db2
            "intent-1").2
       = [CallExecute Scenario.accountA MODE_SINGLE_WITH_OPDATA
            (default ""%string
               (executionData (H := Keccak256.keccak) Cases.intentReady))].
Proof.
  apply (broadcast_only_past_every_check (H := Keccak256.keccak)
           Scenario.chain Scenario.db2 "intent-1").
  vm_compute. right. left. reflexivity.
Defined.

Lemma submission_outcome_is_recorded_witness :
  (exists i',
     (POST (H := Keccak256.keccak) Cases.chainNoReceipt Scenario.db2
        "intent-1").1.2 !! "intent-1"%string = Some i'
     /\ sameRequest Cases.intentReady i'
     /\ signatures i' = signatures Cases.intentReady
     /\ match (POST (H := Keccak256.keccak) Cases.chainNoReceipt Scenario.db2
                 "intent-1").1.1 with
        | Submitted hash receipt =>
            status i' = match receipt with
                        | success => confirmed
                        | reverted => failed
                        end
            /\ txHash i' = Some hash
            /\ waitForTransactionReceipt Cases.chainNoReceipt hash
               = Some receipt
        | SubmitFailed =>
            status i' = failed
            /\ exists e,
                 executionData (H := Keccak256.keccak) Cases.intentReady
                 = Some e
                 /\ match execute Cases.chainNoReceipt
                          (account Cases.intentReady)
                          MODE_SINGLE_WITH_OPDATA e with
                    | None => txHash i' = txHash Cases.intentReady
                    | Some hash =>
                        txHash i' = Some hash
                        /\ waitForTransactionReceipt Cases.chainNoReceipt hash
                           = None
                    end
        | _ => i' = Cases.intentReady
        end)
  /\ (forall k', k' <> "intent-1"%string ->
        (POST (H := Keccak256.keccak) Cases.chainNoReceipt Scenario.db2
           "intent-1").1.2 !! k' = Scenario.db2 !! k').
Proof.
  apply (submission_outcome_is_recorded (H := Keccak256.keccak)
           Cases.chainNoReceipt Scenario.db2 "intent-1" Cases.intentReady).
  - vm_compute. reflexivity.
  - reflexivity.
Defined.

Lemma ready_flag_is_the_signature_check_witness :
  (POST (H := Keccak256.keccak) Scenario.chain Scenario.db1 "intent-1").1.1
  = NotEnoughSignatures <-> false = false.
Proof.
  apply (ready_flag_is_the_signature_check (H := Keccak256.keccak)
           Scenario.chain Scenario.chain Scenario.db0 Scenario.db1 "intent-1"
           (Some (Scenario.wrappedSig "1" "00")) 10 1 2 false
           (Sign.POST Scenario.chain Scenario.db0 "intent-1"
              (Some (Scenario.wrappedSig "1" "00")) 10).2).
  - vm_compute. reflexivity.
  - reflexivity.
Defined.

End SubmitLaws.

(** ** What holds of every store the routes produce *)

Module StoreInvariants.
Import Store Chain Spec Laws StoreFacts.

Lemma collected_push (i : Intent) (s : OwnerSig) :
  collectedFromOwners i ->
  Sign.isOwner i (ownerKeyHash s) = true ->
  Sign.hasSigned i (ownerKeyHash s) = false ->
  collectedFromOwners (Sign.push i s).
Proof.
  intros [Hown Hnd] Ho Hs. split.
  - intros s' Hin. cbn [Sign.push signatures] in Hin.
    apply in_app_iff in Hin as [Hin|[<-|[]]]; [by apply Hown | exact Ho].
  - cbn [Sign.push signatures]. rewrite map_app. cbn [map].
    apply NoDup_app. split; [exact Hnd|]. split; [|apply NoDup_singleton].
    intros x Hx Hx'. apply list_elem_of_singleton in Hx'. subst x.
    apply list_elem_of_In, in_map_iff in Hx as (s' & Heq & Hin).
    assert (Sign.hasSigned i (ownerKeyHash s) = true); [|congruence].
    apply SignFacts.hasSigned_spec. exists s'. by split.
Qed.

Lemma collected_spread_status (i : Intent) (p : Patch) :
  p_signatures p = None -> p_owners p = None ->
  collectedFromOwners i -> collectedFromOwners (spread i p).
Proof.
  intros Hs Ho [Hown Hnd]. unfold collectedFromOwners, Sign.isOwner.
  cbn [spread signatures owners]. rewrite Hs, Ho. cbn [default].
  split; [exact Hown | exact Hnd].
Qed.

Section WithKeccak.
Context `{Keccak}.

(** The store after a submission, by cases. *)
Lemma submit_store_cases (c : Client) (db : DB) (k : string) :
  (Submit.POST c db k).1.2 = db
  \/ (exists i, db !! k = Some i
                /\ (Submit.POST c db k).1.2
                   = setIntent db (id i) (patchStatus failed))
  \/ (exists i hash s,
        db !! k = Some i /\ terminal s
        /\ (Submit.POST c db k).1.2
           = setIntent (setIntent db (id i) (patchStatusTx submitted hash))
               (id i) (patchStatus s)).
Proof.
  destruct (SubmitLaws.POST_checks c db k)
    as [[_ E]|[(i & _ & _ & E)|[(i & _ & _ & _ & E)|[(i & _ & _ & _ & _ & E)
        |(i & e & Ei & Hw & Ht & He)]]]];
    try (left; by rewrite E).
  rewrite (SubmitFacts.POST_encoded c db k i e Ei Hw Ht He).
  destruct (getNonce c (account i) 0) as [cur|]; [|by left].
  destruct (negb _); [by left|].
  destruct (execute c _ _ _) as [hash|]; [|right; left; by exists i].
  right; right.
  destruct (waitForTransactionReceipt c hash) as [[]|]; cbn [fst snd].
  - exists i, hash, confirmed. split; [done|]. split; [by left | done].
  - exists i, hash, failed. split; [done|]. split; [by right | done].
  - exists i, hash, failed. split; [done|]. split; [by right | done].
Qed.

Lemma create_wellFormed (c : Client) (db : DB) (uuid : string)
    (body : Create.Body) :
  wellFormed db -> wellFormed (Create.POST c db uuid body).1.2.
Proof.
  intros W. unfold Create.POST.
  destruct (getConfig c _ _ _) as [[t os]|]; [|exact W].
  destruct (_ =? _)%nat; [exact W|].
  destruct (getNonce c _ _) as [n|]; [|exact W].
  destruct (computeDigest c _ _ _) as [dg|]; [|exact W].
  cbn. intros k i. destruct (decide (uuid = k)) as [<-|Hk].
  - rewrite lookup_insert_eq. intros [= <-]. cbn.
    split; [reflexivity|]. split; [|reflexivity].
    split; [intros s []| apply NoDup_nil_2].
  - rewrite lookup_insert_ne by done. apply W.
Qed.

Lemma sign_wellFormed (c : Client) (db : DB) (k : string) (w : option Hex)
    (now : Z) :
  wellFormed db -> wellFormed (Sign.POST c db k w now).1.2.
Proof.
  intros W.
  destruct (SignFacts.POST_store_cases c db k w now) as [->|(n & M & r & E)];
    [done|].
  destruct (Sign.POST c db k w now) as [[r0 db'] t] eqn:EP.
  cbn in E. subst r0. cbn.
  apply SignFacts.POST_accepted_inv in EP
    as (i & wrapped & Ei & _ & _ & _ & _ & Hown & Hnew & _ & _ & _ & -> & _).
  destruct (W k i Ei) as (Hid & Hcol & Hset).
  rewrite SignFacts.push_then_patch_keyed by exact Hid.
  intros k' i'. destruct (decide (k = k')) as [<-|Hk].
  - rewrite lookup_insert_eq. intros [= <-].
    split; [exact Hid|]. split; [by apply collected_push | exact Hset].
  - rewrite lookup_insert_ne by done. apply W.
Qed.

Lemma setIntent_wellFormed (db : DB) (k : string) (p : Patch) :
  p_id p = None -> p_signatures p = None -> p_owners p = None ->
  (forall i, settled i -> settled (spread i p)) ->
  wellFormed db -> wellFormed (setIntent db k p).
Proof.
  intros Hi Hs Ho Hp W k' i'. rewrite lookup_setIntent.
  case_decide as Hk; [|apply W]. subst k'.
  destruct (db !! k) as [i|] eqn:Ei; [|done]. cbn. intros [= <-].
  destruct (W k i Ei) as (Hid & Hcol & Hset).
  split; [cbn; by rewrite Hi|].
  split; [by apply collected_spread_status | by apply Hp].
Qed.

Lemma submit_wellFormed (c : Client) (db : DB) (k : string) :
  wellFormed db -> wellFormed (Submit.POST c db k).1.2.
Proof.
  intros W.
  destruct (submit_store_cases c db k)
    as [->|[(i & Ei & ->)|(i & hash & s & Ei & Hs & ->)]]; [done| |].
  - apply setIntent_wellFormed; try done.
  - destruct (W k i Ei) as (Hid & Hcol & Hset). rewrite Hid.
    intros k' i'. rewrite !lookup_setIntent.
    case_decide as Hk; [|apply W]. subst k'.
    rewrite decide_True by done. rewrite Ei. cbn. intros [= <-].
    split; [exact Hid|]. split.
    + by do 2 (apply collected_spread_status; [done | done |]).
    + unfold settled. cbn. by destruct Hs as [->| ->].
Qed.

Lemma produced_wellFormed (db : DB) : produced db -> wellFormed db.
Proof.
  induction 1.
  - intros k i. by rewrite lookup_empty.
  - by apply create_wellFormed.
  - by apply sign_wellFormed.
  - by apply submit_wellFormed.
Qed.

(** X14.  In every store the routes produce, each stored signature
    belongs to an owner of its intent, no owner has two of them (key
    hashes compared without case), and so an intent never holds more
    signatures than it has owners. *)
Theorem signatures_come_from_distinct_owners (db : DB) (k : string)
    (i : Intent) :
  produced db -> db !! k = Some i ->
  (forall s, In s (signatures i) ->
     exists own, In own (owners i)
                 /\ JS.toLowerCase own = JS.toLowerCase (ownerKeyHash s))
  /\ NoDup (map signer (signatures i))
  /\ (length (signatures i) <= length (owners i))%nat.
Proof.
  intros P Ei. destruct (produced_wellFormed db P k i Ei) as (_ & [Ho Hnd] & _).
  assert (Hspec : forall s, In s (signatures i) ->
            exists own, In own (owners i)
              /\ JS.toLowerCase own = JS.toLowerCase (ownerKeyHash s)).
  { intros s Hs. apply SignFacts.isOwner_spec. by apply Ho. }
  split; [exact Hspec|]. split; [exact Hnd|].
  rewrite <- (length_map signer (signatures i)).
  rewrite <- (length_map JS.toLowerCase (owners i)).
  apply NoDup_incl_length; [by apply NoDup_ListNoDup|].
  intros x Hx. apply in_map_iff in Hx as (s & <- & Hs).
  destruct (Hspec s Hs) as (own & Hin & Heq).
  apply in_map_iff. exists own. by split.
Qed.

(** X15.  In every store the routes produce, each intent sits under its
    own identifier, and its status agrees with its transaction hash: no
    hash while collecting, a hash once confirmed, and no intent is left
    in the state submitted once a request has returned. *)
Theorem status_agrees_with_the_transaction_hash (db : DB) (k : string)
    (i : Intent) :
  produced db -> db !! k = Some i ->
  id i = k
  /\ status i <> submitted
  /\ (status i = collecting -> txHash i = None)
  /\ (status i = confirmed -> exists hash, txHash i = Some hash).
Proof.
  intros P Ei. destruct (produced_wellFormed db P k i Ei) as (Hid & _ & Hs).
  unfold settled in Hs. split; [exact Hid|].
  destruct (status i); repeat split; try done.
  intros _. destruct (txHash i) as [h|]; [by exists h | done].
Qed.

(** X16.  No route deletes an intent: create-intent keeps every
    identifier of the store, and submit-signature and submit neither add
    nor remove one. *)
Theorem intents_are_never_deleted (c : Client) (db : DB) :
  (forall uuid body, dom db ⊆ dom (Create.POST c db uuid body).1.2)
  /\ (forall k w now, dom (Sign.POST c db k w now).1.2 = dom db)
  /\ (forall k, dom (Submit.POST c db k).1.2 = dom db).
Proof.
  assert (Hset : forall (d : DB) k p, dom (setIntent d k p) = dom d).
  { intros d k p. unfold setIntent. destruct (d !! k) as [now|] eqn:E;
      [|reflexivity].
    rewrite dom_insert_L. apply elem_of_dom_2 in E.
    apply set_eq. intros x. rewrite elem_of_union, elem_of_singleton.
    split; [intros [->|Hx]; assumption | auto]. }
  split; [|split].
  - intros uuid body. unfold Create.POST.
    destruct (getConfig c _ _ _) as [[t os]|]; [|done].
    destruct (_ =? _)%nat; [done|].
    destruct (getNonce c _ _) as [n|]; [|done].
    destruct (computeDigest c _ _ _) as [dg|]; [|done].
    cbn. apply dom_insert_subseteq.
  - intros k w now.
    destruct (SignFacts.POST_store_cases c db k w now)
      as [->|(n & M & r & E)]; [done|].
    destruct (Sign.POST c db k w now) as [[r0 db'] t] eqn:EP.
    cbn in E. subst r0. cbn.
    apply SignFacts.POST_accepted_inv in EP
      as (i & wrapped & Ei & _ & _ & _ & _ & _ & _ & _ & _ & _ & -> & _).
    rewrite Hset, dom_insert_L. apply elem_of_dom_2 in Ei.
    apply set_eq. intros x. rewrite elem_of_union, elem_of_singleton.
    split; [intros [->|Hx]; assumption | auto].
  - intros k.
    destruct (submit_store_cases c db k)
      as [->|[(i & Ei & ->)|(i & hash & s & Ei & Hs & ->)]]; [done| |].
    + apply Hset.
    + by rewrite !Hset.
Qed.

End WithKeccak.

Lemma produced_db2 : produced (H := Keccak256.keccak) Scenario.db2.
Proof.
  unfold Scenario.db2, Scenario.db1, Scenario.db0.
  do 2 apply produced_sign. apply produced_create, produced_empty.
Defined.

Lemma produced_dbConfirmed : produced (H := Keccak256.keccak) Cases.dbConfirmed.
Proof. unfold Cases.dbConfirmed. apply produced_submit, produced_db2. Defined.

Lemma signatures_come_from_distinct_owners_witness :
  (forall s, In s (signatures Cases.intentReady) ->
     exists own, In own (owners Cases.intentReady)
                 /\ JS.toLowerCase own = JS.toLowerCase (ownerKeyHash s))
  /\ NoDup (map signer (signatures Cases.intentReady))
  /\ (length (signatures Cases.intentReady)
      <= length (owners Cases.intentReady))%nat.
Proof.
  apply (signatures_come_from_distinct_owners (H := Keccak256.keccak)
           Scenario.db2 "intent-1" Cases.intentReady).
  - exact produced_db2.
  - vm_compute. reflexivity.
Defined.

Lemma status_agrees_with_the_transaction_hash_witness :
  id Cases.intentConfirmed = "intent-1"%string
  /\ status Cases.intentConfirmed <> submitted
  /\ (status Cases.intentConfirmed = collecting ->
      txHash Cases.intentConfirmed = None)
  /\ (status Cases.intentConfirmed = confirmed ->
      exists hash, txHash Cases.intentConfirmed = Some hash).
Proof.
  apply (status_agrees_with_the_transaction_hash (H := Keccak256.keccak)
           Cases.dbConfirmed "intent-1" Cases.intentConfirmed).
  - exact produced_dbConfirmed.
  - vm_compute. reflexivity.
Defined.

End StoreInvariants.

(** ** The helpers of the page *)

Module PageLaws.
Import Hexa Viem Spec Laws HexFacts StringFacts Page.

Lemma prefix_append (p t : string) : String.prefix p (p +:+ t) = true.
Proof. apply prefix_correct, substring_0_append. Qed.

Lemma prefix_inv (p s : string) :
  String.prefix p s = true -> exists t, s = p +:+ t.
Proof.
  revert s. induction p as [|c p IH]; intros s.
  - intros _. exists s. by rewrite append_empty_l.
  - destruct s as [|d s]; [discriminate|]. cbn [String.prefix].
    destruct (ascii_dec c d) as [<-|]; [|discriminate].
    intros Hp. destruct (IH s Hp) as (t & ->). exists t.
    by rewrite append_cons.
Qed.

Lemma startsWith_0x_inv (s : string) :
  JS.startsWith "0x" s = true -> exists r, s = String "0" (String "x" r).
Proof.
  unfold JS.startsWith. intros Hp. destruct (prefix_inv _ _ Hp) as (t & ->).
  by exists t.
Qed.

Lemma startsWith_0x_cons (r : string) :
  JS.startsWith "0x" (String "0" (String "x" r)) = true.
Proof. exact (prefix_append "0x" r). Qed.

Lemma slice_from2_0x (r : string) :
  slice_from2 (String "0" (String "x" r)) = r.
Proof.
  unfold slice_from2. cbn [String.length Nat.sub substring].
  rewrite Nat.sub_0_r. apply substring_all.
Qed.


(** [normalizeKeyHash] after its first step. *)
Lemma normalizeKeyHash_ensure0x (h : string) (r : string) :
  ensure0x h = String "0" (String "x" r) ->
  normalizeKeyHash h =
  if (String.length r <? 64)%nat then "0x" +:+ JS.padStart0 64 r
  else if (64 <? String.length r)%nat then "0x" +:+ substring 0 64 r
  else JS.toLowerCase (String "0" (String "x" r)).
Proof.
  unfold normalizeKeyHash, ensure0x.
  destruct (JS.startsWith "0x" h); cbn [negb]; intros ->;
    by rewrite slice_from2_0x.
Qed.



Lemma parseDigits_take (n : nat) (r : string) (b : bytes) :
  parseDigits r = Some b ->
  parseDigits (substring 0 (2 * n) r) = Some (firstn n b).
Proof.
  revert r b. induction n as [|n IH]; intros r b P.
  - cbn. by destruct r.
  - destruct b as [|x b].
    + apply parseDigits_inv in P. subst r. reflexivity.
    + pose proof (parseDigits_inv _ _ P)
        as (c & d & r' & h & l & -> & Hc & Hd & -> & P').
      replace (2 * S n)%nat with (S (S (2 * n))) by lia.
      cbn [substring firstn parseDigits]. rewrite Hc, Hd.
      by rewrite (IH r' b P').
Qed.

(** X18.  On a well-formed hex value [normalizeKeyHash] keeps the bytes
    when there are 32 of them, pads shorter values with zero bytes on the
    left, and cuts longer ones after the first 32 bytes. *)
Theorem normalizeKeyHash_value (keyHash : Hex) (b : bytes) :
  denotes keyHash b ->
  denotes (normalizeKeyHash keyHash)
    (if (length b <=? 32)%nat then zeroBytes (32 - length b) ++ b
     else firstn 32 b).
Proof.
  intros D. destruct (denotes_inv _ _ D) as (r & -> & P).
  pose proof (parseDigits_length _ _ P) as L.
  rewrite (normalizeKeyHash_ensure0x _ r).
  2:{ unfold ensure0x. by rewrite startsWith_0x_cons. }
  destruct (Nat.ltb_spec (String.length r) 64) as [Hlt|Hge].
  - destruct (Nat.leb_spec (length b) 32); [|lia].
    apply denotes_intro. unfold JS.padStart0.
    apply parseDigits_app; [|exact P].
    replace (64 - String.length r)%nat with (2 * (32 - length b))%nat by lia.
    apply parseDigits_zeros.
  - destruct (Nat.ltb_spec 64 (String.length r)) as [Hgt|Hle].
    + destruct (Nat.leb_spec (length b) 32); [lia|].
      apply denotes_intro. by apply (parseDigits_take 32).
    + destruct (Nat.leb_spec (length b) 32); [|lia].
      replace (32 - length b)%nat with 0%nat by lia.
      apply (denotes_lower (String "0" (String "x" r))). exact D.
Qed.

Lemma normalizeKeyHash_value_witness :
  denotes (normalizeKeyHash "0xAB")
    (if (length [Byte.xab] <=? 32)%nat
     then zeroBytes (32 - length [Byte.xab]) ++ [Byte.xab]
     else firstn 32 [Byte.xab]).
Proof.
  apply (normalizeKeyHash_value "0xAB" [Byte.xab]). reflexivity.
Defined.

(** *** [extractIntentId] *)

Lemma substring_after (p t : string) :
  substring (String.length p) (String.length (p +:+ t) - String.length p)
    (p +:+ t) = t.
Proof.
  rewrite substring_skip_append, length_append.
  replace (String.length p + String.length t - String.length p)%nat
    with (String.length t) by lia.
  apply substring_all.
Qed.

Lemma substring_after_intent (t : string) :
  substring 8 (String.length ("/intent/" +:+ t) - 8) ("/intent/" +:+ t) = t.
Proof. exact (substring_after "/intent/" t). Qed.

Lemma segment_split (s : string) :
  exists post, s = segment s +:+ post /\ segment post = ""%string
               /\ plain (segment s) = true.
Proof.
  induction s as [|c s (post & E & Hp & Hs)].
  - exists ""%string. by repeat split.
  - cbn [segment]. destruct (notSeparator c) eqn:Hc.
    + exists post. rewrite append_cons, <- E. split; [done|]. split; [done|].
      unfold plain. cbn. by rewrite Hc.
    + exists (String c s). rewrite append_empty_l. split; [done|].
      split; [|done]. cbn [segment]. by rewrite Hc.
Qed.

Lemma segment_cons (c : ascii) (rest : string) :
  notSeparator c = true -> segment (String c rest) <> ""%string.
Proof. intros Hc. cbn [segment]. by rewrite Hc. Qed.

(** The matcher finds the leftmost place where [/intent/] is followed by
    a character other than a slash and a question mark, and captures the
    longest run of such characters; it finds nothing only when there is
    no such place. *)
Lemma matchIntent_spec (input : string) :
  match matchIntent input with
  | Some captured =>
      exists pre post,
        input = pre +:+ "/intent/" +:+ captured +:+ post
        /\ captured <> ""%string /\ plain captured = true
        /\ segment post = ""%string
        /\ (forall pre' c rest,
              notSeparator c = true ->
              input = pre' +:+ "/intent/" +:+ String c rest ->
              (String.length pre <= String.length pre')%nat)
  | None =>
      forall pre' c rest,
        notSeparator c = true ->
        input <> pre' +:+ "/intent/" +:+ String c rest
  end.
Proof.
  induction input as [|a r IH].
  - cbn. intros pre' c rest _. destruct pre'; discriminate.
  - cbn [matchIntent].
    assert (Hhere : forall c rest,
              notSeparator c = true ->
              String a r = "/intent/" +:+ String c rest ->
              JS.startsWith "/intent/" (String a r) = true
              /\ segment (substring 8 (String.length (String a r) - 8)
                            (String a r)) <> ""%string).
    { intros c rest Hc E. rewrite E. split; [apply prefix_append|].
      rewrite substring_after_intent. by apply segment_cons. }
    assert (Hrec :
      (forall c rest, notSeparator c = true ->
         String a r <> "/intent/" +:+ String c rest) ->
      match matchIntent r with
      | Some captured =>
          exists pre post,
            String a r = pre +:+ "/intent/" +:+ captured +:+ post
            /\ captured <> ""%string /\ plain captured = true
            /\ segment post = ""%string
            /\ (forall pre' c rest,
                  notSeparator c = true ->
                  String a r = pre' +:+ "/intent/" +:+ String c rest ->
                  (String.length pre <= String.length pre')%nat)
      | None =>
          forall pre' c rest,
            notSeparator c = true ->
            String a r <> pre' +:+ "/intent/" +:+ String c rest
      end).
    { intros Hnot. destruct (matchIntent r) as [captured|].
      - destruct IH as (pre & post & E & Hne & Hpl & Hseg & Hleft).
        exists (String a pre), post.
        rewrite append_cons, <- E. repeat split; try done.
        intros pre' c rest Hc E'. destruct pre' as [|a' pre'].
        + rewrite append_empty_l in E'. by destruct (Hnot c rest Hc).
        + rewrite append_cons in E'. injection E' as _ E'.
          cbn [String.length]. specialize (Hleft pre' c rest Hc E'). lia.
      - intros pre' c rest Hc E'. destruct pre' as [|a' pre'].
        + rewrite append_empty_l in E'. by destruct (Hnot c rest Hc).
        + rewrite append_cons in E'. injection E' as _ E'.
          by destruct (IH pre' c rest Hc). }
    destruct (JS.startsWith "/intent/" (String a r)) eqn:Hp.
    + destruct (prefix_inv _ _ Hp) as (t & Et).
      assert (Hsub : substring 8 (String.length (String a r) - 8) (String a r)
                     = t) by (rewrite Et; apply substring_after_intent).
      rewrite Hsub.
      destruct (segment t) as [|c0 seg] eqn:Hseg.
      * apply Hrec. intros c rest Hc E.
        assert (t = String c rest) as ->.
        { rewrite E in Hsub. by rewrite substring_after_intent in Hsub. }
        by destruct (segment_cons c rest Hc).
      * destruct (segment_split t) as (post & Es & Hpost & Hplain).
        rewrite Hseg in Es, Hplain.
        exists ""%string, post. rewrite append_empty_l, Et, <- Es.
        repeat split; try done. intros; cbn; lia.
    + apply Hrec. intros c rest Hc E.
      destruct (Hhere c rest Hc E) as [Hp' _]. discriminate.
Qed.

(** X19.  [extractIntentId] on a pasted link returns what follows the
    leftmost [/intent/] up to the next slash or question mark or the end:
    a non-empty identifier with neither character in it.  On an input
    that has no [/intent/] followed by such a character it returns the
    input trimmed. *)
Theorem extractIntentId_takes_the_path_segment (input : string) :
  (exists pre post,
     input = pre +:+ "/intent/" +:+ extractIntentId input +:+ post
     /\ extractIntentId input <> ""%string
     /\ plain (extractIntentId input) = true
     /\ segment post = ""%string
     /\ (forall pre' c rest,
           notSeparator c = true ->
           input = pre' +:+ "/intent/" +:+ String c rest ->
           (String.length pre <= String.length pre')%nat))
  \/ (extractIntentId input = trim input
      /\ forall pre' c rest,
           notSeparator c = true ->
           input <> pre' +:+ "/intent/" +:+ String c rest).
Proof.
  unfold extractIntentId. pose proof (matchIntent_spec input) as Hm.
  destruct (matchIntent input) as [captured|]; [left | right]; done.
Qed.


Lemma append_eq_split (a b c d : string) :
  a +:+ b = c +:+ d -> (String.length c <= String.length a)%nat ->
  exists e, a = c +:+ e /\ d = e +:+ b.
Proof.
  revert a. induction c as [|x c IH]; intros a E L.
  - exists a. rewrite !append_empty_l in *. by split.
  - destruct a as [|y a]; [cbn in L; lia|].
    rewrite !append_cons in E. injection E as -> E.
    destruct (IH a E) as (e & -> & ->); [cbn in L; lia|].
    exists e. by rewrite append_cons.
Qed.

Lemma segment_append (s t : string) :
  plain s = true -> segment t = ""%string -> segment (s +:+ t) = s.
Proof.
  unfold plain. induction s as [|c s IH]; intros Hs Ht.
  - by rewrite append_empty_l.
  - cbn in Hs. apply andb_true_iff in Hs as [Hc Hs].
    rewrite append_cons. cbn [segment]. rewrite Hc. by rewrite IH.
Qed.

Lemma plain_cons_inv (s : string) :
  s <> ""%string -> plain s = true ->
  exists c rest, s = String c rest /\ notSeparator c = true.
Proof.
  destruct s as [|c rest]; [done|]. intros _ Hp. unfold plain in Hp.
  cbn in Hp. apply andb_true_iff in Hp as [Hc _]. by exists c, rest.
Qed.

(** X20.  A link to an intent gives the identifier back.  When the
    identifier is not empty and has no slash or question mark, what
    follows it is nothing, a query or a further path, and what comes
    before it (up to and including [/intent/]) holds no earlier match,
    [extractIntentId] of the link is the identifier. *)
Theorem extractIntentId_of_a_link (base ident post : string) :
  ident <> ""%string -> plain ident = true -> segment post = ""%string ->
  matchIntent (base +:+ "/intent/") = None ->
  extractIntentId (base +:+ "/intent/" +:+ ident +:+ post) = ident.
Proof.
  intros Hne Hplain Hpost Hbase.
  destruct (plain_cons_inv ident Hne Hplain) as (c & rest & Ei & Hc).
  pose proof (matchIntent_spec (base +:+ "/intent/")) as Hb.
  rewrite Hbase in Hb.
  unfold extractIntentId.
  pose proof (matchIntent_spec (base +:+ "/intent/" +:+ ident +:+ post))
    as Hm.
  revert Hm.
  destruct (matchIntent (base +:+ "/intent/" +:+ ident +:+ post))
    as [captured|]; intros Hm.
  2:{ destruct (Hm base c (rest +:+ post) Hc).
      by rewrite Ei, append_cons. }
  destruct Hm as (pre & post' & E & Hcne & Hcpl & Hseg' & Hleft).
  assert (Hle : (String.length pre <= String.length base)%nat).
  { apply (Hleft base c (rest +:+ post) Hc). by rewrite Ei, append_cons. }
  destruct (plain_cons_inv captured Hcne Hcpl) as (c' & rest' & Ec & Hc').
  destruct (append_eq_split base ("/intent/" +:+ ident +:+ post) pre
              ("/intent/" +:+ captured +:+ post') E Hle) as (e & Eb & Ee).
  destruct e as [|x e].
  - rewrite append_empty_l in Ee. rewrite append_empty_r in Eb. subst pre.
    assert (Hs : ident +:+ post = captured +:+ post').
    { apply (f_equal (fun s => substring 8 (String.length s - 8) s)) in Ee.
      by rewrite !substring_after_intent in Ee. }
    rewrite <- (segment_append captured post' Hcpl Hseg'), <- Hs.
    by apply segment_append.
  - exfalso.
    (* the match found starts inside [base]: it lies in base/intent/ *)
    assert (Hlen : (String.length ("/intent/" +:+ String c' "")
                    <= String.length (String x e +:+ "/intent/"))%nat).
    { rewrite !length_append. cbn [String.length]. lia. }
    assert (E2 : (String x e +:+ "/intent/") +:+ (ident +:+ post)
                 = ("/intent/" +:+ String c' "") +:+ (rest' +:+ post')).
    { rewrite append_assoc, <- Ee, Ec. rewrite !append_assoc.
      by rewrite !append_cons, append_empty_l. }
    destruct (append_eq_split _ _ _ _ E2 Hlen) as (e' & Ex & _).
    apply (Hb pre c' e' Hc').
    rewrite Eb, append_assoc, Ex. rewrite !append_assoc.
    by rewrite !append_cons, append_empty_l.
Qed.

Lemma extractIntentId_of_a_link_witness :
  extractIntentId
    ("https://app.example" +:+ "/intent/" +:+ "intent-1" +:+ "?tab=sign")
  = "intent-1"%string.
Proof.
  apply (extractIntentId_of_a_link "https://app.example" "intent-1"
           "?tab=sign").
  - intros [=].
  - reflexivity.
  - reflexivity.
  - reflexivity.
Defined.

(** *** The list of owners *)

Lemma existsb_keyHash (owners : list Owner) (kh : Hex) :
  existsb (fun o => String.eqb (keyHash o) kh) owners = true
  <-> In kh (map keyHash owners).
Proof.
  rewrite existsb_exists, in_map_iff. split.
  - intros (o & Hin & He). apply String.eqb_eq in He. by exists o.
  - intros (o & He & Hin). exists o. split; [done|]. by apply String.eqb_eq.
Qed.

(** X21.  The owners of the page: adding an owner whose key hash is
    listed changes nothing (its label is not updated), adding another one
    appends it, so key hashes never repeat; removing a key hash removes
    every owner with it and no other; and removing an owner just added
    gives the list back. *)
Theorem owner_list_keeps_key_hashes_distinct (owners : list Owner)
    (owner : Owner) (kh : Hex) :
  (In (keyHash owner) (map keyHash owners) -> addOwner owners owner = owners)
  /\ (~ In (keyHash owner) (map keyHash owners) ->
      addOwner owners owner = owners ++ [owner]
      /\ removeOwner (addOwner owners owner) (keyHash owner) = owners)
  /\ In (keyHash owner) (map keyHash (addOwner owners owner))
  /\ (List.NoDup (map keyHash owners) ->
      List.NoDup (map keyHash (addOwner owners owner)))
  /\ ~ In kh (map keyHash (removeOwner owners kh))
  /\ (forall o, keyHash o <> kh ->
        (In o (removeOwner owners kh) <-> In o owners))
  /\ (List.NoDup (map keyHash owners) ->
      List.NoDup (map keyHash (removeOwner owners kh))).
Proof.
  assert (Hrm : forall l, ~ In kh (map keyHash l) -> removeOwner l kh = l).
  { intros l. unfold removeOwner. induction l as [|o l IH]; [done|].
    cbn. intros Hn. destruct (String.eqb_spec (keyHash o) kh) as [E|E].
    - destruct Hn. by left.
    - cbn. f_equal. apply IH. intros Hin. apply Hn. by right. }
  assert (Hin_rm : forall o, In o (removeOwner owners kh)
                     <-> In o owners /\ keyHash o <> kh).
  { intros o. unfold removeOwner. rewrite filter_In.
    destruct (String.eqb_spec (keyHash o) kh); cbn; intuition congruence. }
  unfold addOwner.
  destruct (existsb _ owners) eqn:Ex.
  - apply existsb_keyHash in Ex.
    split; [done|]. split; [done|]. split; [done|]. split; [done|].
    split; [|split].
    + intros Hin. apply in_map_iff in Hin as (o & Ho & Hin).
      apply Hin_rm in Hin. tauto.
    + intros o Ho. rewrite Hin_rm. tauto.
    + intros Hnd. unfold removeOwner. clear -Hnd.
      induction owners as [|o l IH]; [constructor|].
      cbn in Hnd. apply NoDup_cons_iff in Hnd as [Hn Hnd]. cbn.
      destruct (negb _); [|by apply IH]. cbn. constructor; [|by apply IH].
      intros Hin. apply Hn. apply in_map_iff in Hin as (o' & Ho' & Hin').
      apply filter_In in Hin' as [Hin' _]. apply in_map_iff. by exists o'.
  - assert (Hn : ~ In (keyHash owner) (map keyHash owners)).
    { intros Hin. apply existsb_keyHash in Hin. congruence. }
    split; [done|]. split.
    { intros _. split; [done|]. unfold removeOwner.
      rewrite List.filter_app. cbn. rewrite String.eqb_refl. cbn.
      rewrite app_nil_r.
      clear -Hn. induction owners as [|o l IH]; [done|]. cbn.
      destruct (String.eqb_spec (keyHash o) (keyHash owner)) as [E|E].
      - destruct Hn. by left.
      - cbn. f_equal. apply IH. intros Hin. apply Hn. by right. }
    split.
    { rewrite map_app. apply in_or_app. right. by left. }
    split.
    { intros Hnd. rewrite map_app. cbn.
      apply NoDup_ListNoDup, NoDup_app. split; [by apply NoDup_ListNoDup|].
      split; [|apply NoDup_singleton].
      intros x Hx Hx'. apply list_elem_of_singleton in Hx'. subst x.
      by apply list_elem_of_In in Hx. }
    split; [|split].
    + intros Hin. apply in_map_iff in Hin as (o & Ho & Hin).
      apply Hin_rm in Hin. tauto.
    + intros o Ho. rewrite Hin_rm. tauto.
    + intros Hnd. unfold removeOwner. clear -Hnd.
      induction owners as [|o l IH]; [constructor|].
      cbn in Hnd. apply NoDup_cons_iff in Hnd as [Hn Hnd]. cbn.
      destruct (negb _); [|by apply IH]. cbn. constructor; [|by apply IH].
      intros Hin. apply Hn. apply in_map_iff in Hin as (o' & Ho' & Hin').
      apply filter_In in Hin' as [Hin' _]. apply in_map_iff. by exists o'.
Qed.

End PageLaws.

(** ** The calls the page sends to the account *)

Module EncodingLaws.
Import Store Chain Hexa Viem Spec Laws HexFacts AbiFacts.

Section WithKeccak.
Context `{Keccak}.

(** The batch of one call of the account to itself, as the three encoders
    of the repository build it. *)
Lemma selfCall_denotes (setData : Hex) (sd : bytes) :
  denotes setData sd ->
  exists zero value data,
    encodeAddress "0x0000000000000000000000000000000000000000" = Some zero
    /\ encodeNumber 0 256 = Some value
    /\ encodeBytes setData = Some data
    /\ denotes
         (encodeAbiParameters [encodeArray [encodeTuple [zero; value; data]]])
         (selfCallBatch sd).
Proof.
  intros D.
  destruct (EncodingClaims.prepareCall_denotes
              {| call_to := "0x0000000000000000000000000000000000000000";
                 call_value := 0; call_data := setData |}
              {| cb_to := zeroBytes 20; cb_value := 0; cb_data := sd |})
    as (p & Ep & Pp).
  { split; [reflexivity|]. split; [reflexivity|]. split; [reflexivity|].
    split; [cbn; lia | exact D]. }
  unfold Submit.prepareCall in Ep. cbn [call_to call_value call_data] in Ep.
  destruct (encodeAddress _) as [zero|]; [|discriminate].
  destruct (encodeNumber 0 256) as [value|]; [|discriminate].
  destruct (encodeBytes setData) as [data|]; [|discriminate].
  cbn [mbind option_bind] in Ep. injection Ep as <-.
  exists zero, value, data. repeat split.
  unfold encodeAbiParameters, selfCallBatch.
  apply encodeParams_dynamic. constructor; [|constructor].
  apply (encodeArray_denotes [_] [_]). constructor; [exact Pp | constructor].
Qed.

(** The hash of a key of type [t] with public key [pk]. *)
Lemma keyHash_of_public_key (t : Z) (pub : Hex) (pk : bytes) :
  0 <= t < 256 -> denotes pub pk ->
  (pubHash ← keccak256 pub;
   p1 ← encodeNumber t 8;
   p2 ← encodeBytesN pubHash 32;
   keccak256 (encodeAbiParameters [p1; p2]))
  = Some (bytesToHex (keccak_256 (word32 t ++ keccak_256 pk))).
Proof.
  intros Ht Dp. unfold keccak256.
  rewrite (denotes_startsWith _ _ Dp), (denotes_hexToBytes _ _ Dp).
  cbn [mbind option_bind].
  set (pubHash := keccak_256 pk).
  assert (length pubHash = 32%nat) as Lh by apply keccak_256_length.
  unfold encodeNumber.
  destruct (Z.ltb_spec (2 ^ 8 - 1) t); [lia|].
  destruct (Z.ltb_spec t 0); [lia|]. cbn [orb].
  destruct (denotes_numberToHex t) as (h1 & -> & D1); [lia|].
  cbn [mbind option_bind].
  unfold encodeBytesN.
  rewrite (denotes_size _ _ (denotes_bytesToHex pubHash)), Lh.
  cbn [Nat.eqb negb].
  destruct (denotes_padHex_right _ _ 32 (denotes_bytesToHex pubHash))
    as (h' & -> & D'); [lia|].
  rewrite Lh, app_nil_r in D'. cbn [mbind option_bind].
  assert (denotes (encodeAbiParameters
                     [{| dynamic := false; encoded := h1 |};
                      {| dynamic := false; encoded := h' |}])
            (word32 t ++ pubHash)) as Dpk.
  { unfold encodeAbiParameters, encodeParams, staticSize.
    cbn [fold_left splitParams dynamic encoded app].
    by apply denotes_concat2. }
  by rewrite (denotes_startsWith _ _ Dpk), (denotes_hexToBytes _ _ Dpk).
Qed.

(** The public key of a passkey: abi.encode(x, y). *)
Lemma passkey_public_key (x y : Z) :
  0 <= x < 2 ^ 256 -> 0 <= y < 2 ^ 256 ->
  exists px py,
    encodeNumber x 256 = Some px /\ encodeNumber y 256 = Some py
    /\ denotes (encodeAbiParameters [px; py]) (word32 x ++ word32 y).
Proof.
  intros Hx Hy.
  destruct (encodeNumber_denotes x Hx) as ([dx ex] & Ex & Sx & Dx).
  destruct (encodeNumber_denotes y Hy) as ([dy ey] & Ey & Sy & Dy).
  cbn in Sx, Sy, Dx, Dy. subst dx dy.
  eexists _, _. split; [exact Ex|]. split; [exact Ey|].
  unfold encodeAbiParameters, encodeParams, staticSize.
  cbn [fold_left splitParams dynamic encoded app].
  by apply denotes_concat2.
Qed.

Lemma encodeNumber_out_of_range (v : Z) :
  ~ 0 <= v < 2 ^ 256 -> encodeNumber v 256 = None.
Proof.
  intros Hv. unfold encodeNumber.
  destruct (Z.ltb_spec (2 ^ 256 - 1) v); [reflexivity|].
  destruct (Z.ltb_spec v 0); [reflexivity|]. lia.
Qed.

Lemma ownerKeyHashFromXY_in_range (x y : Z) :
  0 <= x < 2 ^ 256 -> 0 <= y < 2 ^ 256 ->
  Page.ownerKeyHashFromXY x y = Some (bytesToHex (ownerKeyHashOf x y)).
Proof.
  intros Hx Hy. unfold Page.ownerKeyHashFromXY.
  destruct (passkey_public_key x y Hx Hy) as (px & py & -> & -> & Dp).
  cbn [mbind option_bind].
  apply (keyHash_of_public_key 1 _ _ ltac:(lia) Dp).
Qed.

(** X22.  The key hash of a passkey owner is
    keccak256(abi.encode(uint8 1, keccak256(abi.encode(x, y)))): the hash
    of the 32-byte word 1 followed by the hash of the two coordinates as
    32-byte words.  Coordinates outside 256 bits make the encoder throw. *)
Theorem owner_key_hash_layout (x y : Z) :
  (0 <= x < 2 ^ 256 -> 0 <= y < 2 ^ 256 ->
   Page.ownerKeyHashFromXY x y = Some (bytesToHex (ownerKeyHashOf x y)))
  /\ (~ (0 <= x < 2 ^ 256 /\ 0 <= y < 2 ^ 256) ->
      Page.ownerKeyHashFromXY x y = None).
Proof.
  split.
  - apply ownerKeyHashFromXY_in_range.
  - intros Hxy. unfold Page.ownerKeyHashFromXY.
    destruct (encodeNumber x 256) as [px|] eqn:Ex; [|reflexivity].
    cbn [mbind option_bind].
    destruct (encodeNumber y 256) as [py|] eqn:Ey; [|reflexivity].
    exfalso. apply Hxy. split.
    + destruct (decide (0 <= x < 2 ^ 256)) as [|Hn]; [done|].
      by rewrite (encodeNumber_out_of_range x Hn) in Ex.
    + destruct (decide (0 <= y < 2 ^ 256)) as [|Hn]; [done|].
      by rewrite (encodeNumber_out_of_range y Hn) in Ey.
Qed.

(** X23.  The passkey that the page authorizes on the account is the one
    whose hash it registers as an owner: the call goes to the connected
    account, the key has type 1, no expiry and no super-admin right, and
    its public key is the 64 bytes whose typed hash
    [ownerKeyHashFromXY] computes. *)
Theorem authorized_passkey_is_the_owner_key
    (encodeAuthorize : ExternalKey.Key -> option Hex) (address : option Hex)
    (x y : Z) (calls : list Page.SentCall) :
  Page.authorizeKeyOnAccount encodeAuthorize address x y
  = Page.SendCalls calls ->
  exists account publicKey authorizeData,
    address = Some account /\ account <> ""%string
    /\ denotes publicKey (word32 x ++ word32 y)
    /\ encodeAuthorize
         {| ExternalKey.expiry := 0; ExternalKey.keyType := 1;
            ExternalKey.isSuperAdmin := false;
            ExternalKey.publicKey := publicKey |} = Some authorizeData
    /\ calls = [ {| Page.sc_to := Some account;
                    Page.sc_data := authorizeData |} ]
    /\ Page.ownerKeyHashFromXY x y
       = Some (bytesToHex
                 (keccak_256 (word32 1 ++ keccak_256 (word32 x ++ word32 y)))).
Proof.
  unfold Page.authorizeKeyOnAccount, Page.missing.
  destruct address as [account|]; [|discriminate].
  destruct (String.eqb_spec account "") as [|Ha]; [discriminate|].
  destruct (decide (0 <= x < 2 ^ 256)) as [Hx|Hx];
    [|by rewrite (encodeNumber_out_of_range x Hx)].
  destruct (decide (0 <= y < 2 ^ 256)) as [Hy|Hy].
  2:{ rewrite (encodeNumber_out_of_range y Hy).
      by destruct (encodeNumber x 256). }
  destruct (passkey_public_key x y Hx Hy) as (px & py & Ex & Ey & Dp).
  rewrite Ex, Ey. cbn [mbind option_bind].
  destruct (encodeAuthorize _) as [authorizeData|] eqn:Ea; [|discriminate].
  cbn [mbind option_bind]. intros [= <-].
  exists account, (encodeAbiParameters [px; py]), authorizeData.
  split; [reflexivity|]. split; [exact Ha|]. split; [exact Dp|].
  split; [exact Ea|]. split; [reflexivity|].
  by apply ownerKeyHashFromXY_in_range.
Qed.

(** What [execute] is encoded with, given the calldata of the inner call:
    the batch of one self-call and the mode without operation data. *)
Lemma selfCall_execute (encodeExecute : Hex -> Hex -> option Hex)
    (setData out : Hex) :
  (zero ← encodeAddress "0x0000000000000000000000000000000000000000";
   value ← encodeNumber 0 256;
   data ← encodeBytes setData;
   encodeExecute MODE_SINGLE_NO_OPDATA
     (encodeAbiParameters [encodeArray [encodeTuple [zero; value; data]]]))
  = Some out ->
  forall sd, denotes setData sd ->
    exists callsEncoded,
      denotes callsEncoded (selfCallBatch sd)
      /\ encodeExecute MODE_SINGLE_NO_OPDATA callsEncoded = Some out.
Proof.
  intros E sd D.
  destruct (selfCall_denotes setData sd D)
    as (zero & value & data & Ez & Ev & Ed & Dc).
  rewrite Ez, Ev, Ed in E. cbn [mbind option_bind] in E.
  eexists. split; [exact Dc | exact E].
Qed.

(** One step of a chain of encoders: the next one succeeded. *)
Tactic Notation "encoder_step" hyp(E) ident(name) :=
  match type of E with
  | mbind _ ?e = Some _ =>
      let eq := fresh "E" name in
      destruct e as [name|] eqn:eq; [|discriminate];
      cbn [mbind option_bind] in E
  end.

(** X24.  The call that authorizes the external key: it goes to the
    account; the key has type 3, no expiry, no super-admin right and the
    policy contract followed by the salt as public key; the calldata is
    [execute] in the mode without operation data over the ABI encoding of
    the one-call batch (address(0), 0, authorize(key)); the key hash
    returned with it is the one [computeExternalKeyHash] gives. *)
Theorem external_key_authorization_layout
    (encodeAuthorize : ExternalKey.Key -> option Hex)
    (encodeExecute : Hex -> Hex -> option Hex)
    (account multisig salt12 : Hex) (r : ExternalKey.AuthorizeCall) :
  ExternalKey.encodeAuthorizeExternalExecute encodeAuthorize encodeExecute
    account multisig salt12 = Some r ->
  exists authorizeData,
    encodeAuthorize
      {| ExternalKey.expiry := 0; ExternalKey.keyType := 3;
         ExternalKey.isSuperAdmin := false;
         ExternalKey.publicKey := concatHex [multisig; salt12] |}
    = Some authorizeData
    /\ ExternalKey.to r = account
    /\ ExternalKey.computeExternalKeyHash multisig salt12
       = Some (ExternalKey.externalKeyHash r)
    /\ (forall ad, denotes authorizeData ad ->
          exists callsEncoded,
            denotes callsEncoded (selfCallBatch ad)
            /\ encodeExecute MODE_SINGLE_NO_OPDATA callsEncoded
               = Some (ExternalKey.data r)).
Proof.
  unfold ExternalKey.encodeAuthorizeExternalExecute,
    ExternalKey.externalPublicKey.
  intros E. encoder_step E authorizeData. exists authorizeData.
  encoder_step E zero. encoder_step E value. encoder_step E data.
  encoder_step E out. encoder_step E kh. injection E as <-.
  cbn [ExternalKey.to ExternalKey.data ExternalKey.externalKeyHash].
  split; [reflexivity|]. split; [reflexivity|]. split; [reflexivity|].
  apply selfCall_execute. rewrite Ezero, Evalue, Edata. exact Eout.
Qed.

(** X25.  The two permission calls have the same shape: each goes to the
    account and is [execute] in the mode without operation data over the
    one-call batch (address(0), 0, calldata), the calldata being
    [setCanExecute(keyHash, target, fnSel, can)] for the one and
    [setSpendLimit(keyHash, token, period, limit)] for the other. *)
Theorem permission_calls_layout
    (encodeSetCanExecute : Hex -> Hex -> Hex -> bool -> option Hex)
    (encodeSetSpendLimit : Hex -> Hex -> Z -> Z -> option Hex)
    (encodeExecute : Hex -> Hex -> option Hex) (account keyHash : Hex) :
  (forall target fnSel can r,
     Permissions.encodeSetCanExecuteExecute encodeSetCanExecute encodeExecute
       account keyHash target fnSel can = Some r ->
     exists setData,
       encodeSetCanExecute keyHash target fnSel can = Some setData
       /\ Permissions.to r = account
       /\ (forall sd, denotes setData sd ->
             exists callsEncoded,
               denotes callsEncoded (selfCallBatch sd)
               /\ encodeExecute MODE_SINGLE_NO_OPDATA callsEncoded
                  = Some (Permissions.data r)))
  /\ (forall token period limit r,
        Permissions.encodeSetSpendLimitExecute encodeSetSpendLimit
          encodeExecute account keyHash token period limit = Some r ->
        exists setData,
          encodeSetSpendLimit keyHash token period limit = Some setData
          /\ Permissions.to r = account
          /\ (forall sd, denotes setData sd ->
                exists callsEncoded,
                  denotes callsEncoded (selfCallBatch sd)
                  /\ encodeExecute MODE_SINGLE_NO_OPDATA callsEncoded
                     = Some (Permissions.data r))).
Proof.
  split.
  - intros target fnSel can r.
    unfold Permissions.encodeSetCanExecuteExecute.
    intros E. encoder_step E setData. exists setData.
    encoder_step E zero. encoder_step E value. encoder_step E data.
    encoder_step E out. injection E as <-.
    cbn [Permissions.to Permissions.data].
    split; [reflexivity|]. split; [reflexivity|].
    apply selfCall_execute. rewrite Ezero, Evalue, Edata. exact Eout.
  - intros token period limit r.
    unfold Permissions.encodeSetSpendLimitExecute.
    intros E. encoder_step E setData. exists setData.
    encoder_step E zero. encoder_step E value. encoder_step E data.
    encoder_step E out. injection E as <-.
    cbn [Permissions.to Permissions.data].
    split; [reflexivity|]. split; [reflexivity|].
    apply selfCall_execute. rewrite Ezero, Evalue, Edata. exact Eout.
Qed.

(** The three encoders address their call to the account. *)
Lemma authorize_to_and_hash
    (encodeAuthorize : ExternalKey.Key -> option Hex)
    (encodeExecute : Hex -> Hex -> option Hex)
    (account multisig salt12 : Hex) (r : ExternalKey.AuthorizeCall) :
  ExternalKey.encodeAuthorizeExternalExecute encodeAuthorize encodeExecute
    account multisig salt12 = Some r ->
  ExternalKey.to r = account
  /\ ExternalKey.computeExternalKeyHash multisig salt12
     = Some (ExternalKey.externalKeyHash r).
Proof.
  unfold ExternalKey.encodeAuthorizeExternalExecute.
  intros E. encoder_step E authorizeData.
  encoder_step E zero. encoder_step E value. encoder_step E data.
  encoder_step E out. encoder_step E kh. by injection E as <-.
Qed.

Lemma setCanExecute_to
    (encodeSetCanExecute : Hex -> Hex -> Hex -> bool -> option Hex)
    (encodeExecute : Hex -> Hex -> option Hex)
    (account keyHash target fnSel : Hex) (can : bool)
    (r : Permissions.BatchCall) :
  Permissions.encodeSetCanExecuteExecute encodeSetCanExecute encodeExecute
    account keyHash target fnSel can = Some r ->
  Permissions.to r = account.
Proof.
  unfold Permissions.encodeSetCanExecuteExecute.
  intros E. encoder_step E setData.
  encoder_step E zero. encoder_step E value. encoder_step E data.
  encoder_step E out. by injection E as <-.
Qed.

Lemma setSpendLimit_to
    (encodeSetSpendLimit : Hex -> Hex -> Z -> Z -> option Hex)
    (encodeExecute : Hex -> Hex -> option Hex)
    (account keyHash token : Hex) (period limit : Z)
    (r : Permissions.BatchCall) :
  Permissions.encodeSetSpendLimitExecute encodeSetSpendLimit encodeExecute
    account keyHash token period limit = Some r ->
  Permissions.to r = account.
Proof.
  unfold Permissions.encodeSetSpendLimitExecute.
  intros E. encoder_step E setData.
  encoder_step E zero. encoder_step E value. encoder_step E data.
  encoder_step E out. by injection E as <-.
Qed.

(** *** The two setup actions *)

Lemma hexDigits_parse (n : nat) (r : string) :
  String.length r = (2 * n)%nat ->
  forallb isHexDigit (list_ascii_of_string r) = true ->
  exists b, parseDigits r = Some b /\ length b = n.
Proof.
  revert r. induction n as [|n IH]; intros r L F.
  - destruct r; [|discriminate]. by exists [].
  - destruct r as [|c [|d r]]; try (cbn in L; lia).
    cbn in F. apply andb_true_iff in F as [Fc F].
    apply andb_true_iff in F as [Fd F].
    destruct (IH r) as (b & P & Lb); [cbn in L; lia | exact F|].
    unfold isHexDigit in Fc, Fd.
    destruct (digitValue c) as [h|] eqn:Ec; [|discriminate].
    destruct (digitValue d) as [l|] eqn:Ed; [|discriminate].
    eexists. cbn [parseDigits]. rewrite Ec, Ed, P. split; [reflexivity|].
    cbn. by rewrite Lb.
Qed.

Lemma isHex_salt (salt12 : string) :
  Page.isHex salt12 = true -> String.length salt12 = 26%nat ->
  exists s, denotes salt12 s /\ length s = 12%nat.
Proof.
  unfold Page.isHex. intros Hh L. apply andb_true_iff in Hh as [Hp Hd].
  destruct (PageLaws.startsWith_0x_inv salt12 Hp) as (r & ->).
  rewrite PageLaws.slice_from2_0x in Hd.
  destruct (hexDigits_parse 12 r) as (s & P & Ls);
    [cbn in L; lia | exact Hd|].
  exists s. split; [exact P | exact Ls].
Qed.

Lemma encodeNumber_in_range (v : Z) (p : PreparedParam) :
  encodeNumber v 256 = Some p -> 0 <= v < 2 ^ 256.
Proof.
  intros E. destruct (decide (0 <= v < 2 ^ 256)) as [|Hn]; [done|].
  by rewrite (encodeNumber_out_of_range v Hn) in E.
Qed.

(** X26.  The batched setup sends one batch of three calls, all to the
    connected account, and only with a salt of 12 bytes of hex: the
    authorization of the external key, the permission to call any target
    with empty calldata, and a spend limit of one ether of the native
    token for ever; both permissions are set for the key hash of the key
    being authorized, the hash [computeExternalKeyHash] gives for the
    policy contract and the salt. *)
Theorem batched_setup_grants_to_the_authorized_key
    (encodeAuthorize : ExternalKey.Key -> option Hex)
    (encodeExecute : Hex -> Hex -> option Hex)
    (encodeSetCanExecute : Hex -> Hex -> Hex -> bool -> option Hex)
    (encodeSetSpendLimit : Hex -> Hex -> Z -> Z -> option Hex)
    (address MULTISIG_ADDRESS : option Hex) (salt12 : string)
    (calls : list Page.SentCall) :
  Page.onSetupExternalKeyBatched encodeAuthorize encodeExecute
    encodeSetCanExecute encodeSetSpendLimit address MULTISIG_ADDRESS salt12
  = Page.SendCalls calls ->
  exists account multisig s keyHash auth canCall limitCall,
    address = Some account /\ MULTISIG_ADDRESS = Some multisig
    /\ denotes salt12 s /\ length s = 12%nat
    /\ ExternalKey.computeExternalKeyHash multisig salt12 = Some keyHash
    /\ ExternalKey.encodeAuthorizeExternalExecute encodeAuthorize
         encodeExecute account multisig salt12 = Some auth
    /\ ExternalKey.externalKeyHash auth = keyHash
    /\ Permissions.encodeSetCanExecuteExecute encodeSetCanExecute
         encodeExecute account keyHash Permissions.ANY_TARGET
         Permissions.EMPTY_CALLDATA_FN_SEL true = Some canCall
    /\ Permissions.encodeSetSpendLimitExecute encodeSetSpendLimit
         encodeExecute account keyHash
         "0x0000000000000000000000000000000000000000" 6 (10 ^ 18)
       = Some limitCall
    /\ calls = [ {| Page.sc_to := Some account;
                    Page.sc_data := ExternalKey.data auth |};
                 {| Page.sc_to := Some account;
                    Page.sc_data := Permissions.data canCall |};
                 {| Page.sc_to := Some account;
                    Page.sc_data := Permissions.data limitCall |} ].
Proof.
  unfold Page.onSetupExternalKeyBatched, Page.missing.
  destruct address as [account|]; [|discriminate].
  destruct (String.eqb account ""); [discriminate|].
  destruct MULTISIG_ADDRESS as [multisig|]; [|discriminate].
  destruct (String.eqb multisig ""); [discriminate|].
  destruct (Page.isHex salt12) eqn:Hh; [|discriminate].
  destruct (Nat.eqb_spec (String.length salt12) (2 + 24)) as [L|];
    [|discriminate].
  cbn [negb orb default].
  destruct (isHex_salt salt12 Hh L) as (s & Ds & Ls).
  destruct (ExternalKey.encodeAuthorizeExternalExecute _ _ _ _ _)
    as [auth|] eqn:Ea; [|discriminate].
  cbn [mbind option_bind].
  destruct (Permissions.encodeSetCanExecuteExecute _ _ _ _ _ _ _)
    as [empty|] eqn:Ee; [|discriminate].
  cbn [mbind option_bind].
  destruct (Permissions.encodeSetSpendLimitExecute _ _ _ _ _ _ _)
    as [spend|] eqn:Es; [|discriminate].
  cbn [mbind option_bind]. intros [= <-].
  destruct (authorize_to_and_hash _ _ _ _ _ _ Ea) as [Hto Hkh].
  rewrite Hto, (setCanExecute_to _ _ _ _ _ _ _ _ Ee),
    (setSpendLimit_to _ _ _ _ _ _ _ _ Es).
  exists account, multisig, s, (ExternalKey.externalKeyHash auth), auth,
    empty, spend.
  by repeat split.
Qed.

(** X27.  The complete setup sends [initConfig] only with a threshold
    that is an integer between one and the number of owners listed, to
    the key hash and the owners of the page, together with the
    authorization of the saved passkey as a self-call of the connected
    account.  (The address of the policy contract is used as it is
    configured, without a check.) *)
Theorem complete_setup_checks_the_threshold
    (encodeAuthorize : ExternalKey.Key -> option Hex)
    (encodeExecute : Hex -> Hex -> option Hex)
    (encodeInitConfig : Hex -> Z -> list Hex -> option Hex)
    (address MULTISIG_ADDRESS : option Hex) (externalKeyHash : string)
    (owners : list Page.Owner) (threshold : Page.Num)
    (savedCredential : option (option (Z * Z)))
    (calls : list Page.SentCall) :
  Page.onCompleteMultisigSetup encodeAuthorize encodeExecute encodeInitConfig
    address MULTISIG_ADDRESS externalKeyHash owners threshold savedCredential
  = Page.SendCalls calls ->
  exists account t x y publicKey authorizeData executeData initConfigData,
    address = Some account /\ externalKeyHash <> ""%string
    /\ threshold = Page.Int t /\ 1 <= t <= Z.of_nat (length owners)
    /\ savedCredential = Some (Some (x, y))
    /\ denotes publicKey (word32 x ++ word32 y)
    /\ encodeAuthorize
         {| ExternalKey.expiry := 0; ExternalKey.keyType := 1;
            ExternalKey.isSuperAdmin := false;
            ExternalKey.publicKey := publicKey |} = Some authorizeData
    /\ encodeInitConfig externalKeyHash t (map Page.keyHash owners)
       = Some initConfigData
    /\ calls = [ {| Page.sc_to := Some account;
                    Page.sc_data := executeData |};
                 {| Page.sc_to := MULTISIG_ADDRESS;
                    Page.sc_data := initConfigData |} ]
    /\ (forall ad, denotes authorizeData ad ->
          exists callsEncoded,
            denotes callsEncoded (selfCallBatch ad)
            /\ encodeExecute MODE_SINGLE_NO_OPDATA callsEncoded
               = Some executeData).
Proof.
  unfold Page.onCompleteMultisigSetup, Page.missing.
  destruct address as [account|]; [|discriminate].
  destruct (String.eqb account ""); [discriminate|].
  destruct (String.eqb_spec externalKeyHash "") as [|Hk]; [discriminate|].
  destruct (Nat.eqb_spec (length owners) 0); [discriminate|].
  destruct threshold as [t|negative|]; cbn [Page.lessThan Page.greaterThan].
  2:{ by destruct negative. }
  - destruct (Z.ltb_spec t 1); [discriminate|].
    destruct (Z.ltb_spec (Z.of_nat (length owners)) t); [discriminate|].
    cbn [orb].
    destruct savedCredential as [[[x y]|]|]; try discriminate.
    cbn [mbind option_bind].
    destruct (encodeNumber x 256) as [px|] eqn:Ex; [|discriminate].
    cbn [mbind option_bind].
    destruct (encodeNumber y 256) as [py|] eqn:Ey; [|discriminate].
    cbn [mbind option_bind].
    destruct (passkey_public_key x y (encodeNumber_in_range _ _ Ex)
                (encodeNumber_in_range _ _ Ey))
      as (px' & py' & Ex' & Ey' & Dp).
    assert (px' = px) as -> by congruence.
    assert (py' = py) as -> by congruence.
    destruct (encodeAuthorize _) as [authorizeData|] eqn:Ea; [|discriminate].
    cbn [mbind option_bind].
    destruct (encodeAddress _) as [zero|] eqn:Ez; [|discriminate].
    cbn [mbind option_bind].
    destruct (encodeNumber 0 256) as [value|] eqn:Ev; [|discriminate].
    cbn [mbind option_bind].
    destruct (encodeBytes authorizeData) as [data|] eqn:Ed; [|discriminate].
    cbn [mbind option_bind Page.BigInt].
    destruct (encodeInitConfig _ _ _) as [initConfigData|] eqn:Ei;
      [|discriminate].
    cbn [mbind option_bind].
    destruct (encodeExecute _ _) as [executeData|] eqn:Ee; [|discriminate].
    cbn [mbind option_bind]. intros [= <-].
    exists account, t, x, y, (encodeAbiParameters [px; py]), authorizeData,
      executeData, initConfigData.
    split; [reflexivity|]. split; [exact Hk|]. split; [reflexivity|].
    split; [lia|]. split; [reflexivity|]. split; [exact Dp|].
    split; [exact Ea|]. split; [exact Ei|]. split; [reflexivity|].
    apply selfCall_execute. rewrite Ez, Ev, Ed. exact Ee.
  - cbn [orb].
    destruct savedCredential as [[[x y]|]|]; try discriminate.
    cbn [mbind option_bind].
    destruct (encodeNumber x 256) as [px|]; [|discriminate].
    cbn [mbind option_bind].
    destruct (encodeNumber y 256) as [py|]; [|discriminate].
    cbn [mbind option_bind].
    destruct (encodeAuthorize _) as [authorizeData|]; [|discriminate].
    cbn [mbind option_bind].
    destruct (encodeAddress _) as [zero|]; [|discriminate].
    cbn [mbind option_bind].
    destruct (encodeNumber 0 256) as [value|]; [|discriminate].
    cbn [mbind option_bind].
    destruct (encodeBytes authorizeData) as [data|]; discriminate.
Qed.

End WithKeccak.

Lemma owner_key_hash_layout_witness :
  Page.ownerKeyHashFromXY (H := Keccak256.keccak) 1 2
  = Some (bytesToHex (ownerKeyHashOf (H := Keccak256.keccak) 1 2)).
Proof.
  apply (proj1 (owner_key_hash_layout (H := Keccak256.keccak) 1 2)); lia.
Defined.

Lemma authorized_passkey_is_the_owner_key_witness :
  exists account publicKey authorizeData,
    Some Scenario.accountA = Some account /\ account <> ""%string
    /\ denotes publicKey (word32 1 ++ word32 2)
    /\ Cases.encodeAuthorize
         {| ExternalKey.expiry := 0; ExternalKey.keyType := 1;
            ExternalKey.isSuperAdmin := false;
            ExternalKey.publicKey := publicKey |} = Some authorizeData
    /\ [ {| Page.sc_to := Some Scenario.accountA;
            Page.sc_data :=
              concatHex ["0xcebfe336"%string;
                         ("0x" +:+ digits 64 1 +:+ digits 64 2)%string] |} ]
       = [ {| Page.sc_to := Some account; Page.sc_data := authorizeData |} ]
    /\ Page.ownerKeyHashFromXY (H := Keccak256.keccak) 1 2
       = Some (bytesToHex
                 (keccak_256 (Keccak := Keccak256.keccak)
                    (word32 1
                     ++ keccak_256 (Keccak := Keccak256.keccak)
                          (word32 1 ++ word32 2)))).
Proof.
  apply (authorized_passkey_is_the_owner_key (H := Keccak256.keccak)
           Cases.encodeAuthorize (Some Scenario.accountA) 1 2).
  vm_compute. reflexivity.
Defined.

Lemma external_key_authorization_layout_witness :
  exists authorizeData,
    Cases.encodeAuthorize
      {| ExternalKey.expiry := 0; ExternalKey.keyType := 3;
         ExternalKey.isSuperAdmin := false;
         ExternalKey.publicKey :=
           concatHex [Scenario.multisig; Scenario.salt] |}
    = Some authorizeData
    /\ ExternalKey.to Cases.authorizeCall = Scenario.accountA
    /\ ExternalKey.computeExternalKeyHash (H := Keccak256.keccak)
         Scenario.multisig Scenario.salt
       = Some (ExternalKey.externalKeyHash Cases.authorizeCall)
    /\ (forall ad, denotes authorizeData ad ->
          exists callsEncoded,
            denotes callsEncoded (selfCallBatch ad)
            /\ Cases.encodeExecute MODE_SINGLE_NO_OPDATA callsEncoded
               = Some (ExternalKey.data Cases.authorizeCall)).
Proof.
  apply (external_key_authorization_layout (H := Keccak256.keccak)
           Cases.encodeAuthorize Cases.encodeExecute Scenario.accountA
           Scenario.multisig Scenario.salt Cases.authorizeCall).
  vm_compute. reflexivity.
Defined.

Lemma batched_setup_grants_to_the_authorized_key_witness :
  exists account multisig s keyHash auth canCall limitCall,
    Some Scenario.accountA = Some account
    /\ Some Scenario.multisig = Some multisig
    /\ denotes Scenario.salt s /\ length s = 12%nat
    /\ ExternalKey.computeExternalKeyHash (H := Keccak256.keccak) multisig
         Scenario.salt = Some keyHash
    /\ ExternalKey.encodeAuthorizeExternalExecute (H := Keccak256.keccak)
         Cases.encodeAuthorize Cases.encodeExecute account multisig
         Scenario.salt = Some auth
    /\ ExternalKey.externalKeyHash auth = keyHash
    /\ Permissions.encodeSetCanExecuteExecute (H := Keccak256.keccak)
         Cases.encodeSetCanExecute Cases.encodeExecute account keyHash
         Permissions.ANY_TARGET Permissions.EMPTY_CALLDATA_FN_SEL true
       = Some canCall
    /\ Permissions.encodeSetSpendLimitExecute (H := Keccak256.keccak)
         Cases.encodeSetSpendLimit Cases.encodeExecute account keyHash
         "0x0000000000000000000000000000000000000000" 6 (10 ^ 18)
       = Some limitCall
    /\ Cases.setupCalls
       = [ {| Page.sc_to := Some account;
              Page.sc_data := ExternalKey.data auth |};
           {| Page.sc_to := Some account;
              Page.sc_data := Permissions.data canCall |};
           {| Page.sc_to := Some account;
              Page.sc_data := Permissions.data limitCall |} ].
Proof.
  apply (batched_setup_grants_to_the_authorized_key (H := Keccak256.keccak)
           Cases.encodeAuthorize Cases.encodeExecute Cases.encodeSetCanExecute
           Cases.encodeSetSpendLimit (Some Scenario.accountA)
           (Some Scenario.multisig) Scenario.salt Cases.setupCalls).
  vm_compute. reflexivity.
Defined.

Lemma complete_setup_checks_the_threshold_witness :
  exists account t x y publicKey authorizeData executeData initConfigData,
    Some Scenario.accountA = Some account
    /\ Scenario.policyH <> ""%string
    /\ Page.Int 2 = Page.Int t
    /\ 1 <= t <= Z.of_nat (length [Cases.ownerP1; Cases.ownerP2])
    /\ Some (Some (1, 2)) = Some (Some (x, y))
    /\ denotes publicKey (word32 x ++ word32 y)
    /\ Cases.encodeAuthorize
         {| ExternalKey.expiry := 0; ExternalKey.keyType := 1;
            ExternalKey.isSuperAdmin := false;
            ExternalKey.publicKey := publicKey |} = Some authorizeData
    /\ Cases.encodeInitConfig Scenario.policyH t
         (map Page.keyHash [Cases.ownerP1; Cases.ownerP2])
       = Some initConfigData
    /\ Cases.completeCalls
       = [ {| Page.sc_to := Some account; Page.sc_data := executeData |};
           {| Page.sc_to := Some Scenario.multisig;
              Page.sc_data := initConfigData |} ]
    /\ (forall ad, denotes authorizeData ad ->
          exists callsEncoded,
            denotes callsEncoded (selfCallBatch ad)
            /\ Cases.encodeExecute MODE_SINGLE_NO_OPDATA callsEncoded
               = Some executeData).
Proof.
  apply (complete_setup_checks_the_threshold (H := Keccak256.keccak)
           Cases.encodeAuthorize Cases.encodeExecute Cases.encodeInitConfig
           (Some Scenario.accountA) (Some Scenario.multisig) Scenario.policyH
           [Cases.ownerP1; Cases.ownerP2] (Page.Int 2) (Some (Some (1, 2)))
           Cases.completeCalls).
  vm_compute. reflexivity.
Defined.

End EncodingLaws.

(** ** The execution payload determines what it encodes *)

Module PayloadLaws.
Import Store Chain Hexa Viem Spec Laws HexFacts AbiFacts.

Lemma Z_of_byte_of_Z (z : Z) : Z_of_byte (byte_of_Z z) = z mod 256.
Proof.
  unfold byte_of_Z, Z_of_byte.
  pose proof (Z.mod_pos_bound z 256 ltac:(lia)) as Hb.
  destruct (Byte.of_N (Z.to_N (z mod 256))) as [b|] eqn:E.
  - apply Byte.to_of_N in E. rewrite E. lia.
  - apply Byte.of_N_None_iff in E. lia.
Qed.

Lemma fold_beBytes (n : nat) (v acc : Z) :
  fold_left (fun a b => a * 256 + Z_of_byte b) (beBytes n v) acc
  = acc * 256 ^ Z.of_nat n + v mod 256 ^ Z.of_nat n.
Proof.
  revert acc. induction n as [|k IH]; intros acc.
  - cbn. rewrite Z.mod_1_r. lia.
  - cbn [beBytes fold_left]. rewrite IH, Z_of_byte_of_Z, Z.mod_mod by lia.
    rewrite Nat2Z.inj_succ, Z.pow_succ_r by lia.
    rewrite (Z.mul_comm 256 (256 ^ Z.of_nat k)).
    rewrite (Z.rem_mul_r v (256 ^ Z.of_nat k) 256) by lia. ring.
Qed.

Lemma beValue_word32 (v : Z) : 0 <= v < 2 ^ 256 -> beValue (word32 v) = v.
Proof.
  intros Hv. unfold beValue, word32. rewrite fold_beBytes.
  change (256 ^ Z.of_nat 32) with (2 ^ 256). rewrite Z.mod_small by lia. lia.
Qed.

Lemma word32_inj (a b : Z) :
  0 <= a < 2 ^ 256 -> 0 <= b < 2 ^ 256 -> word32 a = word32 b -> a = b.
Proof.
  intros Ha Hb E. rewrite <- (beValue_word32 a Ha), <- (beValue_word32 b Hb).
  by rewrite E.
Qed.

Lemma word32_length_inj (a b : nat) :
  small a -> small b -> word32 (Z.of_nat a) = word32 (Z.of_nat b) -> a = b.
Proof.
  unfold small. intros Ha Hb E. apply Nat2Z.inj.
  apply word32_inj; [lia | lia | exact E].
Qed.

Lemma small_le (n m : nat) : (n <= m)%nat -> small m -> small n.
Proof. unfold small. lia. Qed.

Lemma length_encBytes_ge (b : bytes) : (length b <= length (encBytes b))%nat.
Proof. unfold encBytes. rewrite !length_app. lia. Qed.

(** A [bytes] value can be read off the front of what follows it. *)
Lemma encBytes_inj_app (b b' R R' : bytes) :
  small (length b) -> small (length b') ->
  encBytes b ++ R = encBytes b' ++ R' -> b = b' /\ R = R'.
Proof.
  intros Hb Hb' E. unfold encBytes in E. rewrite <- !app_assoc in E.
  apply app_inj_1 in E as [Ew E]; [|by rewrite !length_word32].
  apply word32_length_inj in Ew; [|done|done].
  apply app_inj_1 in E as [-> E]; [|exact Ew].
  apply app_inj_1 in E as [_ E]; [done|]. by rewrite !length_zeroBytes.
Qed.

Lemma length_concat_ge {A B} (f : A -> list B) (x : A) (l : list A) :
  In x l -> (length (f x) <= length (concat (map f l)))%nat.
Proof.
  induction l as [|y l IH]; [done|]. cbn [map concat].
  rewrite length_app. intros [->|Hin]; [lia|]. specialize (IH Hin). lia.
Qed.

Lemma concat_encBytes_inj (l l' : list bytes) (R R' : bytes) :
  (forall b, In b l -> small (length b)) ->
  (forall b, In b l' -> small (length b)) ->
  length l = length l' ->
  concat (map encBytes l) ++ R = concat (map encBytes l') ++ R' ->
  l = l' /\ R = R'.
Proof.
  revert l'. induction l as [|b l IH]; intros [|b' l'] Hs Hs' L E;
    try discriminate.
  - done.
  - cbn [map concat] in E. rewrite <- !app_assoc in E.
    apply encBytes_inj_app in E as [-> E];
      [|apply Hs; by left | apply Hs'; by left].
    destruct (IH l') as [-> ->]; try done.
    + intros x Hx. apply Hs. by right.
    + intros x Hx. apply Hs'. by right.
    + cbn in L. lia.
Qed.

Lemma length_offsets (start : nat) (tails : list bytes) :
  length (concat (offsets start tails)) = (32 * length tails)%nat.
Proof.
  revert start. induction tails as [|t r IH]; intros start; [done|].
  cbn [offsets concat length]. rewrite length_app, length_word32, IH. lia.
Qed.

(** A dynamic array gives its count, then its tails. *)
Lemma encDynamicArray_split (tails tails' : list bytes) (R R' : bytes) :
  small (length tails) -> small (length tails') ->
  encDynamicArray tails ++ R = encDynamicArray tails' ++ R' ->
  length tails = length tails'
  /\ concat tails ++ R = concat tails' ++ R'.
Proof.
  intros Hs Hs' E. unfold encDynamicArray, encDynamicSeq in E.
  rewrite <- !app_assoc in E.
  apply app_inj_1 in E as [Ew E]; [|by rewrite !length_word32].
  apply word32_length_inj in Ew; [|done|done].
  split; [exact Ew|].
  apply app_inj_1 in E as [_ E]; [done|]. by rewrite !length_offsets, Ew.
Qed.

Lemma length_encDynamicArray (tails : list bytes) :
  length (encDynamicArray tails)
  = (32 + 32 * length tails + length (concat tails))%nat.
Proof.
  unfold encDynamicArray, encDynamicSeq.
  rewrite !length_app, length_word32, length_offsets. lia.
Qed.

Lemma encCall_inj_app (c c' : CallBytes) (R R' : bytes) :
  wellSized c -> wellSized c' ->
  small (length (cb_data c)) -> small (length (cb_data c')) ->
  encCall c ++ R = encCall c' ++ R' -> c = c' /\ R = R'.
Proof.
  intros [Lt Hv] [Lt' Hv'] Hd Hd' E. unfold encCall in E.
  rewrite <- !app_assoc in E.
  apply app_inj_1 in E as [_ E]; [|by rewrite !length_zeroBytes].
  apply app_inj_1 in E as [Et E]; [|by rewrite Lt, Lt'].
  apply app_inj_1 in E as [Ev E]; [|by rewrite !length_word32].
  apply word32_inj in Ev; [|done|done].
  apply app_inj_1 in E as [_ E]; [|by rewrite !length_word32].
  apply encBytes_inj_app in E as [Ed E]; [|done|done].
  split; [|exact E]. destruct c, c'. cbn in *. by subst.
Qed.

Lemma length_encCall_ge (c : CallBytes) :
  (length (cb_data c) <= length (encCall c))%nat.
Proof.
  unfold encCall. rewrite !length_app.
  pose proof (length_encBytes_ge (cb_data c)). lia.
Qed.

Lemma concat_encCall_inj (l l' : list CallBytes) (R R' : bytes) :
  Forall wellSized l -> Forall wellSized l' ->
  (forall c, In c l -> small (length (cb_data c))) ->
  (forall c, In c l' -> small (length (cb_data c))) ->
  length l = length l' ->
  concat (map encCall l) ++ R = concat (map encCall l') ++ R' ->
  l = l' /\ R = R'.
Proof.
  revert l'. induction l as [|c l IH]; intros [|c' l'] W W' Hs Hs' L E;
    try discriminate.
  - done.
  - cbn [map concat] in E. rewrite <- !app_assoc in E.
    apply Forall_cons_iff in W as [Wc W]. apply Forall_cons_iff in W' as [Wc' W'].
    apply encCall_inj_app in E as [-> E]; try done;
      [|apply Hs; by left | apply Hs'; by left].
    destruct (IH l') as [-> ->]; try done.
    + intros x Hx. apply Hs. by right.
    + intros x Hx. apply Hs'. by right.
    + cbn in L. lia.
Qed.

(** The payload by parts. *)
Lemma payload_parts (sigs : list bytes) (key : bytes) (nonce : Z)
    (cs : list CallBytes) :
  payload sigs key nonce cs
  = word32 64 ++ word32 (Z.of_nat (64 + length (encCalls cs)))
    ++ encCalls cs
    ++ encBytes (word32 nonce
                 ++ (word32 32 ++ encBytesArray sigs) ++ key ++ [Byte.x00]).
Proof.
  unfold payload, abiEncodeExecution, abiEncodeSignatures, encDynamicSeq.
  cbn [offsets concat length Nat.mul Nat.add]. rewrite !app_nil_r.
  by rewrite <- !app_assoc.
Qed.

(** Every length inside a payload is at most the length of the payload. *)
Lemma payload_bounds (sigs : list bytes) (key : bytes) (nonce : Z)
    (cs : list CallBytes) :
  small (length (payload sigs key nonce cs)) ->
  small (64 + length (encCalls cs))
  /\ small (length (word32 nonce
                    ++ (word32 32 ++ encBytesArray sigs) ++ key ++ [Byte.x00]))
  /\ small (length (map encBytes sigs))
  /\ (forall b, In b sigs -> small (length b))
  /\ small (length (map encCall cs))
  /\ (forall c, In c cs -> small (length (cb_data c))).
Proof.
  rewrite payload_parts. rewrite !length_app, !length_word32.
  set (O := word32 nonce ++ _).
  pose proof (length_encBytes_ge O) as HO.
  assert (LO : length O
               = (32 + (32 + length (encBytesArray sigs)) + length key + 1)%nat).
  { unfold O. rewrite !length_app, !length_word32. cbn [length]. lia. }
  unfold encBytesArray, encCalls in *.
  rewrite !length_encDynamicArray in *.
  cbn [length]. intros Hs.
  split; [eapply small_le; [|exact Hs]; lia|].
  split; [eapply small_le; [|exact Hs]; lia|].
  split; [eapply small_le; [|exact Hs]; lia|].
  split.
  { intros b Hb. pose proof (length_concat_ge encBytes b sigs Hb).
    pose proof (length_encBytes_ge b). eapply small_le; [|exact Hs]. lia. }
  split; [eapply small_le; [|exact Hs]; lia|].
  intros c Hc. pose proof (length_concat_ge encCall c cs Hc).
  pose proof (length_encCall_ge c). eapply small_le; [|exact Hs]. lia.
Qed.

(** Two payloads that are equal encode the same signatures, policy key,
    nonce and calls. *)
Lemma payload_inj (sigs sigs' : list bytes) (key key' : bytes)
    (nonce nonce' : Z) (cs cs' : list CallBytes) :
  small (length (payload sigs key nonce cs)) ->
  length key = 32%nat -> length key' = 32%nat ->
  0 <= nonce < 2 ^ 256 -> 0 <= nonce' < 2 ^ 256 ->
  Forall wellSized cs -> Forall wellSized cs' ->
  payload sigs key nonce cs = payload sigs' key' nonce' cs' ->
  sigs = sigs' /\ key = key' /\ nonce = nonce' /\ cs = cs'.
Proof.
  intros Hs Lk Lk' Hn Hn' W W' E.
  assert (Hs' : small (length (payload sigs' key' nonce' cs')))
    by (by rewrite <- E).
  destruct (payload_bounds _ _ _ _ Hs) as (BA & BO & Bn & Bb & Bm & Bc).
  destruct (payload_bounds _ _ _ _ Hs') as (BA' & BO' & Bn' & Bb' & Bm' & Bc').
  rewrite !payload_parts in E.
  apply app_inj_1 in E as [_ E]; [|by rewrite !length_word32].
  apply app_inj_1 in E as [EA E]; [|by rewrite !length_word32].
  apply word32_length_inj in EA; [|done|done].
  apply app_inj_1 in E as [EC EO]; [|lia].
  (* the calls *)
  assert (cs = cs') as ->.
  { unfold encCalls in EC.
    rewrite <- (app_nil_r (encDynamicArray (map encCall cs))) in EC.
    rewrite <- (app_nil_r (encDynamicArray (map encCall cs'))) in EC.
    apply encDynamicArray_split in EC as [Lm EC]; [|done|done].
    rewrite !length_map in Lm.
    by apply concat_encCall_inj in EC as [-> _]. }
  (* the operation data *)
  rewrite <- (app_nil_r (encBytes _)) in EO.
  rewrite <- (app_nil_r (encBytes (word32 nonce' ++ _))) in EO.
  apply encBytes_inj_app in EO as [EO _]; [|done|done].
  apply app_inj_1 in EO as [En EO]; [|by rewrite !length_word32].
  apply word32_inj in En; [|done|done].
  apply app_inj_2 in EO as [ES EK];
    [|rewrite !length_app; cbn [length]; lia].
  apply app_inj_tail in EK as [-> _].
  apply app_inv_head in ES. unfold encBytesArray in ES.
  rewrite <- (app_nil_r (encDynamicArray (map encBytes sigs))) in ES.
  rewrite <- (app_nil_r (encDynamicArray (map encBytes sigs'))) in ES.
  apply encDynamicArray_split in ES as [Ln ES]; [|done|done].
  rewrite !length_map in Ln.
  apply concat_encBytes_inj in ES as [-> _]; done.
Qed.

Section WithKeccak.
Context `{Keccak}.

Lemma denotesCall_wellSized (c : Store.Call) (cb : CallBytes) :
  denotesCall c cb -> wellSized cb.
Proof.
  intros (Ha & Dt & Ev & Hv & _). split.
  - by destruct (encodeAddress_denotes _ _ Ha Dt).
  - by rewrite <- Ev.
Qed.

Lemma executionData_nonce_range (i : Intent) (e : Hex) :
  Submit.executionData i = Some e -> 0 <= nonce i < 2 ^ 256.
Proof.
  unfold Submit.executionData.
  destruct (Submit.aggregate _) as [ag|]; [|discriminate].
  cbn [mbind option_bind]. unfold toHex, numberToHex.
  destruct (Z.ltb_spec (nonce i) 0); [discriminate|].
  destruct (Z.ltb_spec (2 ^ (8 * Z.of_nat 32) - 1) (nonce i));
    [discriminate|].
  change (8 * Z.of_nat 32) with 256 in *. lia.
Qed.

(** X28.  The execution payload determines what it encodes: two stored
    intents whose payloads are the same hex string (shorter than 2^256
    characters) have the same owner signatures in the same order, the
    same policy key, the same nonce and the same calls. *)
Theorem execution_payload_determines_the_intent (i i' : Intent)
    (sigs sigs' : list bytes) (key key' : bytes) (cs cs' : list CallBytes)
    (e : Hex) :
  Submit.executionData i = Some e -> Submit.executionData i' = Some e ->
  small (String.length e) ->
  Forall2 denotes (map Store.sig (signatures i)) sigs ->
  Forall2 denotes (map Store.sig (signatures i')) sigs' ->
  denotes (externalKeyHash i) key -> length key = 32%nat ->
  denotes (externalKeyHash i') key' -> length key' = 32%nat ->
  Forall2 denotesCall (calls i) cs -> Forall2 denotesCall (calls i') cs' ->
  sigs = sigs' /\ key = key' /\ nonce i = nonce i' /\ cs = cs'.
Proof.
  intros E E' Hs Fs Fs' Dk Lk Dk' Lk' Fc Fc'.
  pose proof (executionData_nonce_range i e E) as Hn.
  pose proof (executionData_nonce_range i' e E') as Hn'.
  destruct (EncodingClaims.executionData_denotes i sigs key cs Fs Dk Hn Fc)
    as (e0 & E0 & D).
  destruct (EncodingClaims.executionData_denotes i' sigs' key' cs' Fs' Dk'
              Hn' Fc') as (e0' & E0' & D').
  assert (e0 = e) as -> by congruence.
  assert (e0' = e) as -> by congruence.
  assert (EP : payload sigs key (nonce i) cs
               = payload sigs' key' (nonce i') cs').
  { unfold denotes in D, D'. congruence. }
  apply payload_inj; try done.
  - pose proof (denotes_length _ _ D) as L. unfold small in *. lia.
  - clear -Fc. induction Fc as [|c cb l lb Dc F IH]; constructor; [|done].
    by apply (denotesCall_wellSized c).
  - clear -Fc'. induction Fc' as [|c cb l lb Dc F IH]; constructor; [|done].
    by apply (denotesCall_wellSized c).
Qed.

End WithKeccak.

Lemma execution_payload_determines_the_intent_witness :
  [Scenario.bytesOf (Scenario.wrappedSig "1" "00");
   Scenario.bytesOf (Scenario.wrappedSig "2" "00")]
  = [Scenario.bytesOf (Scenario.wrappedSig "1" "00");
     Scenario.bytesOf (Scenario.wrappedSig "2" "00")]
  /\ Scenario.bytesOf Scenario.policyH = Scenario.bytesOf Scenario.policyH
  /\ nonce Cases.intentReady = nonce Cases.intentConfirmed
  /\ [Scenario.transferBytes] = [Scenario.transferBytes].
Proof.
  apply (execution_payload_determines_the_intent (H := Keccak256.keccak)
           Cases.intentReady Cases.intentConfirmed _ _ _ _ _ _
           (default ""%string
              (Submit.executionData (H := Keccak256.keccak)
                 Cases.intentReady))).
  - vm_compute. reflexivity.
  - vm_compute. reflexivity.
  - vm_compute. reflexivity.
  - repeat constructor.
  - repeat constructor.
  - reflexivity.
  - reflexivity.
  - reflexivity.
  - reflexivity.
  - repeat constructor; vm_compute; intuition discriminate.
  - repeat constructor; vm_compute; intuition discriminate.
Defined.

End PayloadLaws.

(** ** Creation and submission together *)

Module EndToEnd.
Import Store Chain Spec Laws StoreFacts CreateFacts SubmitFacts.

Section WithKeccak.
Context `{Keccak}.

(** X29.  The signature check of submit compares the number of signatures
    with the threshold as create-intent stored it, and nothing bounds that
    threshold from below: when the policy contract answers threshold zero
    (with owners), the intent just created, with no signature at all, is
    broadcast by a submission that finds the nonce unchanged. *)
Theorem zero_threshold_needs_no_signature (c c' : Client) (db : DB)
    (uuid : string) (body : Create.Body) (os : list Hex) (n : Z)
    (dg e : Hex) :
  getConfig c (Create.b_multisigAddress body) (Create.b_account body)
    (Create.b_externalKeyHash body) = Some (0, os) ->
  os <> [] ->
  getNonce c (Create.b_account body) (default 0 (Create.b_seqKey body))
  = Some n ->
  computeDigest c (Create.b_account body) (Create.b_calls body) n = Some dg ->
  walletClient c' = true ->
  getNonce c' (Create.b_account body) 0 = Some n ->
  Submit.executionData (created uuid body 0 os n dg) = Some e ->
  exists i,
    (Create.POST c db uuid body).1.2 !! uuid = Some i
    /\ signatures i = [] /\ threshold i = 0
    /\ In (CallExecute (Create.b_account body) MODE_SINGLE_WITH_OPDATA e)
          (Submit.POST c' (Create.POST c db uuid body).1.2 uuid).2.
Proof.
  intros Hc Hos Hn Hd Hw Hn' He.
  assert (Hdb : (Create.POST c db uuid body).1.2
                = <[uuid := created uuid body 0 os n dg]> db).
  { unfold Create.POST. rewrite Hc.
    destruct os as [|o os']; [done|]. cbn [length Nat.eqb].
    by rewrite Hn, Hd. }
  rewrite Hdb. exists (created uuid body 0 os n dg).
  split; [apply lookup_insert_eq|]. split; [reflexivity|].
  split; [reflexivity|].
  rewrite (POST_encoded c' _ uuid (created uuid body 0 os n dg) e);
    [|apply lookup_insert_eq | exact Hw
     |cbn [created threshold signatures length];
      change (JS.Number 0) with 0; lia
     |exact He].
  cbn [account created nonce]. rewrite Hn', Z.eqb_refl. cbn [negb].
  destruct (execute c' _ _ _) as [hash|]; [|right; by left].
  destruct (waitForTransactionReceipt c' hash); right; by left.
Qed.

End WithKeccak.

Lemma zero_threshold_needs_no_signature_witness :
  exists i,
    (Create.POST Scenario.chainZeroThreshold ∅ "intent-0"
       (Scenario.body None)).1.2 !! "intent-0"%string = Some i
    /\ signatures i = [] /\ threshold i = 0
    /\ In (CallExecute (Create.b_account (Scenario.body None))
             MODE_SINGLE_WITH_OPDATA
             (default ""%string
                (Submit.executionData (H := Keccak256.keccak)
                   (created "intent-0" (Scenario.body None) 0 [Scenario.O1]
                      7 Scenario.digestD))))
          (Submit.POST (H := Keccak256.keccak) Scenario.chainZeroThreshold
             (Create.POST Scenario.chainZeroThreshold ∅ "intent-0"
                (Scenario.body None)).1.2 "intent-0").2.
Proof.
  apply (zero_threshold_needs_no_signature (H := Keccak256.keccak)
           Scenario.chainZeroThreshold Scenario.chainZeroThreshold ∅
           "intent-0" (Scenario.body None) [Scenario.O1] 7 Scenario.digestD).
  - reflexivity.
  - intros [=].
  - reflexivity.
  - reflexivity.
  - reflexivity.
  - reflexivity.
  - vm_compute. reflexivity.
Defined.

End EndToEnd.
